(** * Conflict resolution and hash cache of vscode-janus-debug

    A shallow embedding of the upload-conflict helpers of [src/helpers.ts]
    ([askForUpload], [ensureForceUpload], [readConflictModes],
    [readHashValues], [updateHashValues]) together with the properties that
    the specification states about them.  Further parts cover the other
    helpers of that file ([ensureUploadOnSave], the file of script names,
    [extend]), the login helpers ([loadConfigFile], the login prompts) and
    the steps of [src/extension.ts] that work on the same files (the
    activation file, the configuration of the server console).

    Conventions of the embedding:
    - a JavaScript string is a [string]; its characters are the code units
      below 256, so the white space that [trim] removes is the ECMAScript
      white space of that range;
    - [undefined] is [None];
    - script objects live in a store and arrays hold references to them,
      because the helpers mutate the objects they are handed and the same
      object may be handed over more than once;
    - the quick pick is an oracle that is asked once per prompt and answers
      with the position of the chosen item, or with nothing when the prompt
      is dismissed;
    - the cache file, the [forceUpload] setting and the warnings shown are
      the fields of an explicit environment that the helpers thread;
    - a promise is the way it ends: fulfilled, rejected or never settled;
    - functions of Node.js and of other packages that a helper calls and
      whose code is not part of the repository ([path.basename], [os.EOL],
      [Number], [checkLoginData]) are parameters of its embedding. *)

From Stdlib Require Import String Ascii List Bool Arith Lia DecimalString.
Import ListNotations.

Open Scope string_scope.
Open Scope list_scope.

(** ** JavaScript strings *)

Module JS.

(** White space in the sense of [String.prototype.trim], restricted to the
    code units below 256: TAB, LF, VT, FF, CR, SP and NBSP. *)
Definition isWhiteSpace (c : ascii) : bool :=
  let n := nat_of_ascii c in
  ((9 <=? n)%nat && (n <=? 13)%nat) || (n =? 32)%nat || (n =? 160)%nat.

Fixpoint trimStart (s : string) : string :=
  match s with
  | EmptyString => EmptyString
  | String c r => if isWhiteSpace c then trimStart r else s
  end.

Fixpoint trimEnd (s : string) : string :=
  match s with
  | EmptyString => EmptyString
  | String c r =>
      match trimEnd r with
      | EmptyString => if isWhiteSpace c then EmptyString else String c EmptyString
      | r' => String c r'
      end
  end.

(** [s.trim()] *)
Definition trim (s : string) : string := trimEnd (trimStart s).

(** [s.split(sep)] for a separator of one character: never empty, and the
    empty string splits into one empty field. *)
Fixpoint split (sep : ascii) (s : string) : list string :=
  match s with
  | EmptyString => [EmptyString]
  | String c r =>
      if Ascii.eqb c sep then EmptyString :: split sep r
      else match split sep r with
           | f :: fs => String c f :: fs
           | [] => [String c EmptyString]
           end
  end.

(** [l.join(sep)] *)
Fixpoint join (sep : string) (l : list string) : string :=
  match l with
  | [] => EmptyString
  | x :: rest =>
      match rest with
      | [] => x
      | _ :: _ => (x ++ sep ++ join sep rest)%string
      end
  end.

(** [arr.indexOf(x)] compared with 0: [0 <= arr.indexOf(x)]. *)
Definition includes (arr : list string) (x : string) : bool :=
  existsb (String.eqb x) arr.

(** Truthiness of an optional boolean and of an optional string. *)
Definition truthyB (b : option bool) : bool :=
  match b with Some true => true | _ => false end.

Definition truthyS (s : option string) : bool :=
  match s with
  | Some (String _ _) => true
  | _ => false
  end.

(** String concatenation with a value that may be [undefined]. *)
Definition toString (s : option string) : string :=
  match s with Some v => v | None => "undefined" end.

Definition LF : ascii := ascii_of_nat 10.
Definition COLON : ascii := ":"%char.

(** Every character of [s] satisfies [p]. *)
Fixpoint every (p : ascii -> bool) (s : string) : bool :=
  match s with
  | EmptyString => true
  | String c r => p c && every p r
  end.

Definition isnt (sep c : ascii) : bool := negb (Ascii.eqb c sep).

(** No white space anywhere in the string. *)
Definition dense (s : string) : bool :=
  every (fun c => negb (isWhiteSpace c)) s.

(** Neither white space nor a colon: what a name, a server or a hash may
    consist of for the line format [name@server:hash] to hold it. *)
Definition plain (s : string) : bool :=
  every (fun c => negb (isWhiteSpace c) && isnt COLON c) s.

(** A line that [trim] leaves alone at its start, and at its end. *)
Definition tightStart (s : string) : bool :=
  match s with
  | EmptyString => false
  | String c _ => negb (isWhiteSpace c)
  end.

Fixpoint tightEnd (s : string) : bool :=
  match s with
  | EmptyString => false
  | String c EmptyString => negb (isWhiteSpace c)
  | String _ r => tightEnd r
  end.

End JS.

(** ** Script records, the store and the constants *)

(** The fields of [nodeDoc.scriptT] that the helpers read or write. *)
Record scriptT : Type := mkScript {
  name : string;
  lastSyncHash : option string;
  conflict : option bool;
  conflictMode : option bool;
  forceUpload : option bool
}.

Definition ref := nat.

(** The store maps every reference to the record of its object. *)
Definition Store := ref -> scriptT.

Definition assign (st : Store) (r : ref) (s : scriptT) : Store :=
  fun r' => if Nat.eqb r' r then s else st r'.

Definition set_lastSyncHash (h : option string) (s : scriptT) : scriptT :=
  mkScript (name s) h (conflict s) (conflictMode s) (forceUpload s).

Definition set_conflict (c : option bool) (s : scriptT) : scriptT :=
  mkScript (name s) (lastSyncHash s) c (conflictMode s) (forceUpload s).

Definition set_conflictMode (m : option bool) (s : scriptT) : scriptT :=
  mkScript (name s) (lastSyncHash s) (conflict s) m (forceUpload s).

Definition set_forceUpload (f : option bool) (s : scriptT) : scriptT :=
  mkScript (name s) (lastSyncHash s) (conflict s) (conflictMode s) f.

Definition FORCE_UPLOAD_YES : string := "Yes".
Definition FORCE_UPLOAD_NO : string := "No".
Definition FORCE_UPLOAD_ALL : string := "Yes (remember my answer for this operation)".
Definition FORCE_UPLOAD_NONE : string := "No (remember my answer for this operation)".
Definition NO_CONFLICT : string := "No conflict".

(** ** askForUpload *)

(** What [askForUpload] does with its promise: it resolves it at once, or it
    shows a quick pick and resolves it with whatever the quick pick yields. *)
Inductive Asked : Type :=
| Resolved (value : string)
| QuickPick (answers : list string) (placeHolder : string).

Definition askForUpload (script : scriptT) (all none singlescript : bool) : Asked :=
  if JS.truthyB (conflict script) || negb (JS.truthyS (lastSyncHash script)) then
    if all then Resolved FORCE_UPLOAD_ALL
    else if none then Resolved FORCE_UPLOAD_NONE
    else
      let question :=
        if JS.truthyS (lastSyncHash script)
        then (name script ++ " has been changed on server, upload anyway?")%string
        else (name script ++ " might have been changed on server, upload anyway?")%string in
      let answers :=
        if negb singlescript
        then [FORCE_UPLOAD_YES; FORCE_UPLOAD_NO; FORCE_UPLOAD_ALL; FORCE_UPLOAD_NONE]
        else [FORCE_UPLOAD_YES; FORCE_UPLOAD_NO] in
      QuickPick answers question
  else Resolved NO_CONFLICT.

Definition isPrompt (a : Asked) : bool :=
  match a with QuickPick _ _ => true | Resolved _ => false end.

(** ** The quick pick *)

(** The person at the quick pick: asked for the [k]-th time, with these
    items and this place holder, they pick the item at a position or
    dismiss the prompt. *)
Definition User := nat -> list string -> string -> option nat.

(** [vscode.window.showQuickPick]: the chosen item, or [undefined]. *)
Definition showQuickPick (u : User) (k : nat) (answers : list string)
    (placeHolder : string) : option string :=
  match u k answers placeHolder with
  | Some i => nth_error answers i
  | None => None
  end.

(** ** ensureForceUpload *)

(** The variables that the callback of [reduce] closes over, the store and
    the number of prompts shown so far. *)
Record Batch : Type := mkBatch {
  heap : Store;
  forceUploadArr : list ref;
  noConflictArr : list ref;
  all : bool;
  none : bool;
  numScripts : nat;
  prompts : nat
}.

Definition equals (value : option string) (c : string) : bool :=
  match value with Some v => String.eqb c v | None => false end.

(** The [then] callback: what is done with the value that [askForUpload]
    resolved for [script]. *)
Definition route (b : Batch) (script : ref) (value : option string) : Batch :=
  if equals value NO_CONFLICT then
    mkBatch (heap b) (forceUploadArr b) (noConflictArr b ++ [script])
            (all b) (none b) (S (numScripts b)) (prompts b)
  else if equals value FORCE_UPLOAD_ALL then
    mkBatch (assign (heap b) script
               (set_conflict (Some false) (set_forceUpload (Some true) (heap b script))))
            (forceUploadArr b ++ [script]) (noConflictArr b)
            true (none b) (S (numScripts b)) (prompts b)
  else if equals value FORCE_UPLOAD_YES then
    mkBatch (assign (heap b) script
               (set_conflict (Some false) (set_forceUpload (Some true) (heap b script))))
            (forceUploadArr b ++ [script]) (noConflictArr b)
            (all b) (none b) (S (numScripts b)) (prompts b)
  else if equals value FORCE_UPLOAD_NO then
    mkBatch (heap b) (forceUploadArr b) (noConflictArr b)
            (all b) (none b) (S (numScripts b)) (prompts b)
  else
    mkBatch (heap b) (forceUploadArr b) (noConflictArr b)
            (all b) true (S (numScripts b)) (prompts b).

(** What happened to one script of the batch: the record it had when it
    was asked about, whether a prompt was shown, and the value resolved. *)
Record Resolution : Type := mkResolution {
  res_script : ref;
  res_record : scriptT;
  res_prompted : bool;
  res_value : option string
}.

(** One turn of the callback of [reduce]: ask, then route. *)
Definition resolveScript (u : User) (singlescript : bool) (b : Batch) (script : ref)
    : Resolution * Batch :=
  match askForUpload (heap b script) (all b) (none b) singlescript with
  | Resolved value =>
      (mkResolution script (heap b script) false (Some value),
       route b script (Some value))
  | QuickPick answers question =>
      let value := showQuickPick u (prompts b) answers question in
      (mkResolution script (heap b script) true value,
       route (mkBatch (heap b) (forceUploadArr b) (noConflictArr b)
                (all b) (none b) (numScripts b) (S (prompts b)))
             script value)
  end.

(** [reduce(scripts, callback, 0)], the reduce of the package
    reduce-for-promises: the callback is run for the scripts one after the
    other, in the order of the array, each turn after the promise of the
    turn before has resolved. *)
Fixpoint reduce (u : User) (singlescript : bool) (scripts : list ref) (b : Batch)
    : list Resolution * Batch :=
  match scripts with
  | [] => ([], b)
  | script :: rest =>
      let (r, b1) := resolveScript u singlescript b script in
      let (rs, b2) := reduce u singlescript rest b1 in
      (r :: rs, b2)
  end.

Definition startBatch (st : Store) : Batch :=
  mkBatch st [] [] false false 0 0.

Definition runBatch (u : User) (scripts : list ref) (st : Store)
    : list Resolution * Batch :=
  reduce u (Nat.eqb 1 (length scripts)) scripts (startBatch st).

(** The pair of arrays [[noConflict, forceUpload]] that the promise of
    [ensureForceUpload] is resolved with, and the store afterwards. *)
Definition ensureForceUpload (u : User) (scripts : list ref) (st : Store)
    : (list ref * list ref) * Store :=
  let b := snd (runBatch u scripts st) in
  ((noConflictArr b, forceUploadArr b), heap b).

(** ** The workspace: cache file and settings *)

(** What [fs.readFileSync] finds at [path.join(rootPath, CACHE_FILE)]. *)
Inductive FileState : Type :=
| ENOENT
| Unreadable
| File (content : string).

(** What [conf.get('forceUpload')] yields. *)
Inductive Setting : Type :=
| ArrayOf (items : list string)
| NotAnArray.

Record Env : Type := mkEnv {
  workspace : bool;
  rootPath : option string;
  cacheFile : FileState;
  confForceUpload : Setting;
  warnings : list string
}.

Definition showWarningMessage (msg : string) (env : Env) : Env :=
  mkEnv (workspace env) (rootPath env) (cacheFile env) (confForceUpload env)
        (warnings env ++ [msg]).

(** [fs.writeFileSync(_documents, text)]: the cache file holds the text
    afterwards. *)
Definition writeFileSync (text : string) (env : Env) : Env :=
  mkEnv (workspace env) (rootPath env) (File text) (confForceUpload env)
        (warnings env).

(** Modelled from the spec: [nodeDoc.writeFile(text, _documents)] belongs to
    the package node-documents-scripting, which is not among the sources.
    As the spec's [writeAll] it rewrites the file, which holds the text
    afterwards. *)
Definition writeFile (text : string) (env : Env) : Env :=
  writeFileSync text env.

Definition newline : string := String JS.LF EmptyString.

(** [text.trim().split('\n')] *)
Definition lines (text : string) : list string :=
  JS.split JS.LF (JS.trim text).

(** [value.split(':')[0]] and [value.split(':')[1]] *)
Definition scriptpart (value : string) : string :=
  hd EmptyString (JS.split JS.COLON value).

Definition hashpart (value : string) : option string :=
  nth_error (JS.split JS.COLON value) 1.

Definition scriptAtServer (script : scriptT) (server : string) : string :=
  (name script ++ "@" ++ server)%string.

(** ** readConflictModes *)

Definition markConflictMode (forceUpload : list string) (st : Store) (script : ref)
    : Store :=
  if JS.includes forceUpload (name (st script))
  then assign st script (set_conflictMode (Some false) (st script))
  else st.

Definition readConflictModes (pscripts : list ref) (env : Env) (st : Store)
    : Env * Store :=
  match pscripts with
  | [] => (env, st)
  | _ :: _ =>
      if negb (workspace env) then (env, st)
      else
        match confForceUpload env with
        | ArrayOf forceUpload =>
            (env, fold_left (markConflictMode forceUpload) pscripts st)
        | NotAnArray =>
            (showWarningMessage "Cannot write to settings.json" env, st)
        end
  end.

(** ** readHashValues *)

(** The callback of the inner [forEach]: one line of the cache against one
    script. *)
Definition readLine (key : string) (script : scriptT) (value : string) : scriptT :=
  if String.eqb (scriptpart value) key
  then set_lastSyncHash (hashpart value) script
  else script.

(** The callback of the outer [forEach]. *)
Definition readScript (forceUpload hashValues : list string) (server : string)
    (st : Store) (script : ref) : Store :=
  if JS.includes forceUpload (name (st script))
  then assign st script (set_conflictMode (Some false) (st script))
  else assign st script
         (fold_left (readLine (scriptAtServer (st script) server)) hashValues
            (st script)).

Definition readHashValues (pscripts : list ref) (server : string) (env : Env)
    (st : Store) : Env * Store :=
  match pscripts with
  | [] => (env, st)
  | _ :: _ =>
      if negb (workspace env) || negb (JS.truthyS (rootPath env)) then (env, st)
      else
        let read :=
          match cacheFile env with
          | File content => Some (lines content, env)
          | ENOENT => Some ([], writeFileSync EmptyString env)
          | Unreadable => None
          end in
        match read with
        | None => (env, st)
        | Some (hashValues, env1) =>
            match confForceUpload env1 with
            | ArrayOf forceUpload =>
                (env1, fold_left (readScript forceUpload hashValues server) pscripts st)
            | NotAnArray =>
                (showWarningMessage "Cannot write to settings.json" env1, st)
            end
        end
  end.

(** ** updateHashValues *)

(** The inner [forEach] that searches the entry: every line of the
    identity is overwritten, and [updated] tells whether there was one. *)
Fixpoint searchEntry (key entry : string) (hashValues : list string)
    : list string * bool :=
  match hashValues with
  | [] => ([], false)
  | value :: rest =>
      let (rest', updated) := searchEntry key entry rest in
      if String.eqb (scriptpart value) key
      then (entry :: rest', true)
      else (value :: rest', updated)
  end.

(** The callback of the outer [forEach]. *)
Definition writeScript (forceUpload : list string) (server : string) (st : Store)
    (hashValues : list string) (script : ref) : list string :=
  if negb (JS.includes forceUpload (name (st script)))
     && negb (JS.truthyB (conflict (st script)))
  then
    let key := scriptAtServer (st script) server in
    let entry := (key ++ ":" ++ JS.toString (lastSyncHash (st script)))%string in
    let (hashValues', updated) := searchEntry key entry hashValues in
    if negb updated then hashValues' ++ [entry] else hashValues'
  else hashValues.

Definition updateHashValues (pscripts : list ref) (server : string) (env : Env)
    (st : Store) : Env :=
  match pscripts with
  | [] => env
  | _ :: _ =>
      if negb (workspace env) || negb (JS.truthyS (rootPath env)) then env
      else
        match cacheFile env with
        | File content =>
            let hashValues := lines content in
            match confForceUpload env with
            | ArrayOf forceUpload =>
                let hashValues' :=
                  fold_left (writeScript forceUpload server st) pscripts hashValues in
                writeFile (JS.trim (JS.join newline hashValues')) env
            | NotAnArray =>
                showWarningMessage "Cannot write to settings.json" env
            end
        | ENOENT | Unreadable => env
        end
  end.

(** ** Vocabulary of the properties *)

(** A script is unresolved when [askForUpload] does not let it pass: its
    [conflict] is set, or it carries no [lastSyncHash]. *)
Definition unresolved (script : scriptT) : bool :=
  JS.truthyB (conflict script) || negb (JS.truthyS (lastSyncHash script)).

(** The routes that [ensureForceUpload] takes for a resolved value. *)
Definition noConflictValue (value : option string) : bool :=
  equals value NO_CONFLICT.

Definition forcedValue (value : option string) : bool :=
  equals value FORCE_UPLOAD_ALL || equals value FORCE_UPLOAD_YES.

Definition appliedAll (value : option string) : bool :=
  equals value FORCE_UPLOAD_ALL.

(** The last branch of the callback, the one that latches [none]: any value
    that is none of the four others, [undefined] included. *)
Definition appliedNone (value : option string) : bool :=
  negb (equals value NO_CONFLICT) && negb (equals value FORCE_UPLOAD_ALL)
  && negb (equals value FORCE_UPLOAD_YES) && negb (equals value FORCE_UPLOAD_NO).

(** A resolution that follows a remembered answer: no prompt, and the
    answer for an unresolved script, [NO_CONFLICT] for the others. *)
Definition remembered (answer : string) (r : Resolution) : Prop :=
  res_prompted r = false /\
  res_value r = Some (if unresolved (res_record r) then answer else NO_CONFLICT).

(** The two flags are never set together. *)
Definition exclusive (b : Batch) : Prop := all b && none b = false.

(** The scripts of an annotation pass that are on the exemption list. *)
Definition exempt (forceUpload : list string) (script : scriptT) : bool :=
  JS.includes forceUpload (name script).

(** The scripts for which [updateHashValues] writes an entry. *)
Definition recorded (forceUpload : list string) (script : scriptT) : bool :=
  negb (exempt forceUpload script) && negb (JS.truthyB (conflict script)).

Definition entryOf (script : scriptT) (server : string) : string :=
  (scriptAtServer script server ++ ":" ++ JS.toString (lastSyncHash script))%string.

(** The lines of the cache that carry a given identity. *)
Definition linesOf (key : string) (hashValues : list string) : list string :=
  filter (fun value => String.eqb (scriptpart value) key) hashValues.

(** The line that decides what is read for an identity: the last one that
    carries it. *)
Definition cached (key : string) (hashValues : list string) : option string :=
  hd_error (rev (linesOf key hashValues)).

(** What reading the cache gives a script that is not exempt. *)
Definition lookup (key : string) (hashValues : list string) (script : scriptT)
    : scriptT :=
  match cached key hashValues with
  | Some value => set_lastSyncHash (hashpart value) script
  | None => script
  end.

(** A line of the identity gives way to the entry, any other line stays. *)
Definition overwrite (key entry value : string) : string :=
  if String.eqb (scriptpart value) key then entry else value.

(** The merge of one entry into the lines of the cache, in the words of the
    spec: the lines of the identity are updated in place, and the entry is
    appended when there is none. *)
Definition merge (key entry : string) (hashValues : list string) : list string :=
  if existsb (fun value => String.eqb (scriptpart value) key) hashValues
  then map (overwrite key entry) hashValues
  else hashValues ++ [entry].

(** The empty line that an empty cache file splits into is gone once
    entries follow it. *)
Definition dropBlank (hashValues : list string) : list string :=
  match hashValues with
  | EmptyString :: (_ :: _) as rest => rest
  | _ => hashValues
  end.

(** Lines that survive [join('\n').trim()] and the next
    [trim().split('\n')] as they are. *)
Definition tidy (hashValues : list string) : Prop :=
  Forall (fun value => JS.every (JS.isnt JS.LF) value = true) hashValues /\
  (hashValues = [] \/
   (JS.tightStart (hd EmptyString hashValues) = true /\
    JS.tightEnd (last hashValues EmptyString) = true)).

(** A script whose entry fits the line format. *)
Definition fitsFormat (script : scriptT) (server : string) : Prop :=
  JS.plain (name script) = true /\ JS.plain server = true /\
  JS.plain (JS.toString (lastSyncHash script)) = true.

(** Every script of the array that gets an entry fits the line format. *)
Definition allFit (exemptions : list string) (server : string) (st : Store)
    (pscripts : list ref) : Prop :=
  forall r, In r pscripts -> recorded exemptions (st r) = true ->
            fitsFormat (st r) server.

(** What a forced upload leaves in the record of a script. *)
Definition marked (script : scriptT) : Prop :=
  forceUpload script = Some true /\ conflict script = Some false.

(** A workspace in which both helpers get as far as the cache: it has a
    root, the cache file can be read and the setting is an array. *)
Definition cacheReady (env : Env) (exemptions : list string) (content : string)
    : Prop :=
  workspace env = true /\ JS.truthyS (rootPath env) = true /\
  cacheFile env = File content /\ confForceUpload env = ArrayOf exemptions.

(** *** The properties in the words of the spec *)

(** "For all exempted scripts, resolve() returns NoConflict with zero
    prompts regardless of lastSyncHash": whatever the flags, an exempt
    script of the annotated array is let pass. *)
Definition exemptAlwaysPass (pscripts : list ref) (server : string) (env : Env)
    (st : Store) : Prop :=
  forall exemptions r all none single,
    confForceUpload env = ArrayOf exemptions ->
    In r pscripts ->
    exempt exemptions (st r) = true ->
    askForUpload (snd (readHashValues pscripts server env st) r) all none single
    = Resolved NO_CONFLICT.

(** "For all non-exempted scripts with no lastSyncHash, resolve() always
    prompts." *)
Definition alwaysPrompts (script : scriptT) : Prop :=
  conflictMode script <> Some false ->
  JS.truthyS (lastSyncHash script) = false ->
  forall all none single,
    isPrompt (askForUpload script all none single) = true.

(** "After any AppliedAll in a batch, every later script resolves
    UploadForced without prompting." *)
Definition laterAllForced (u : User) (scripts : list ref) (st : Store) : Prop :=
  forall i j ri rj,
    nth_error (fst (runBatch u scripts st)) i = Some ri ->
    nth_error (fst (runBatch u scripts st)) j = Some rj ->
    i < j ->
    appliedAll (res_value ri) = true ->
    res_prompted rj = false /\ forcedValue (res_value rj) = true.

(** "After any AppliedNone, every later script resolves UploadDenied
    without prompting": it is dropped from both results. *)
Definition laterAllDenied (u : User) (scripts : list ref) (st : Store) : Prop :=
  forall i j ri rj,
    nth_error (fst (runBatch u scripts st)) i = Some ri ->
    nth_error (fst (runBatch u scripts st)) j = Some rj ->
    i < j ->
    appliedNone (res_value ri) = true ->
    res_prompted rj = false /\
    ~ In (res_script rj) (fst (fst (ensureForceUpload u scripts st))) /\
    ~ In (res_script rj) (snd (fst (ensureForceUpload u scripts st))).

(** "noConflict and forceUpload are disjoint." *)
Definition disjointArrays (u : User) (scripts : list ref) (st : Store) : Prop :=
  forall r,
    In r (fst (fst (ensureForceUpload u scripts st))) ->
    In r (snd (fst (ensureForceUpload u scripts st))) -> False.

(** "A dismissed prompt ...: the script is dropped from both output
    sets." *)
Definition dismissedIsDropped (u : User) (scripts : list ref) (st : Store) : Prop :=
  forall i ri,
    nth_error (fst (runBatch u scripts st)) i = Some ri ->
    res_prompted ri = true ->
    res_value ri = None ->
    ~ In (res_script ri) (fst (fst (ensureForceUpload u scripts st))) /\
    ~ In (res_script ri) (snd (fst (ensureForceUpload u scripts st))).

(** "After updateHashValues is called for server srv with a script named
    "a" carrying hash h1 (non-exempt, conflict false), readHashValues for
    srv yields lastSyncHash=h1 for "a"": for every server and every hash,
    in every workspace in which both helpers get as far as the cache. *)
Definition roundTripAsStated : Prop :=
  forall srv h1 env exemptions content st ra,
    cacheReady env exemptions content ->
    name (st ra) = "a" -> lastSyncHash (st ra) = Some h1 ->
    recorded exemptions (st ra) = true ->
    forall pscripts st' r,
      In r pscripts -> name (st' r) = "a" ->
      lastSyncHash
        (snd (readHashValues pscripts srv (updateHashValues [ra] srv env st) st') r)
      = Some h1.

(** ** Scenarios *)

Definition changedOnServer (n h : string) : scriptT :=
  mkScript n (Some h) (Some true) None None.

Definition inSync (n h : string) : scriptT :=
  mkScript n (Some h) (Some false) None None.

Definition neverSynced (n : string) : scriptT :=
  mkScript n None (Some false) None None.

Definition exempted (n : string) : scriptT :=
  mkScript n None (Some false) (Some false) None.

(** A store whose objects are the records of a list, in its order. *)
Definition storeOf (records : list scriptT) : Store :=
  fun r => nth r records (neverSynced EmptyString).

(** Someone who gives the same answer to every prompt. *)
Definition answering (choice : option nat) : User := fun _ _ _ => choice.

(** Someone who answers like [u] but, instead of dismissing a prompt,
    picks the fourth item, "No (remember my answer for this operation)". *)
Definition insisting (u : User) : User :=
  fun k answers placeHolder =>
    match u k answers placeHolder with
    | None => Some 3
    | Some i => Some i
    end.

Definition pickYes : option nat := Some 0.
Definition pickNo : option nat := Some 1.
Definition pickAll : option nat := Some 2.
Definition pickNone : option nat := Some 3.
Definition dismiss : option nat := None.

Definition twoScripts : Store :=
  storeOf [changedOnServer "a" "x"; inSync "b" "y"].

Definition threeScripts : Store :=
  storeOf [changedOnServer "a" "x"; neverSynced "b"; inSync "c" "z"].

(** A workspace whose cache file holds [content] and whose [forceUpload]
    setting lists [exemptions]. *)
Definition workspaceWith (content : FileState) (exemptions : list string) : Env :=
  mkEnv true (Some "/workspace") content (ArrayOf exemptions) [].

(** The workspace of the round trip: an empty cache file, no exemptions,
    and the two arrays that are uploaded one after the other. *)
Definition emptyCache : Env := workspaceWith (File EmptyString) [].

Definition missingCache : Env := workspaceWith ENOENT [].

Definition firstUpload : Store := storeOf [inSync "a" "h1"].

Definition secondUpload : Store := storeOf [inSync "a" "h2"; inSync "b" "h3"].

Definition notYetRead : Store := storeOf [neverSynced "a"; neverSynced "b"].

(** Someone who answers the first prompt with "Yes" and dismisses every
    later one. *)
Definition yesThenDismiss : User :=
  fun k _ _ => match k with 0 => pickYes | _ => dismiss end.

(** ** Further vocabulary *)

(** The record of a script after a forced upload was granted. *)
Definition markForced (script : scriptT) : scriptT :=
  set_conflict (Some false) (set_forceUpload (Some true) script).

(** [l1] holds elements of [l2], in the order they have in [l2]. *)
Inductive inOrder {A : Type} : list A -> list A -> Prop :=
| inOrder_nil : inOrder [] []
| inOrder_skip x l1 l2 : inOrder l1 l2 -> inOrder l1 (x :: l2)
| inOrder_keep x l1 l2 : inOrder l1 l2 -> inOrder (x :: l1) (x :: l2).

(** The step of [activate] that creates the activation file: with a folder
    open, the cache file is read, and written empty when reading fails with
    ENOENT. *)
Definition createActivationFile (env : Env) : Env :=
  if workspace env && JS.truthyS (rootPath env) then
    match cacheFile env with
    | ENOENT => writeFileSync EmptyString env
    | Unreadable | File _ => env
    end
  else env.

(** The recorded scripts of an array that share a name carry the same
    [lastSyncHash]: the array holds no two different versions of a
    script. *)
Definition agree (exemptions : list string) (st : Store) (pscripts : list ref)
    : Prop :=
  forall r1 r2, In r1 pscripts -> In r2 pscripts ->
    recorded exemptions (st r1) = true -> recorded exemptions (st r2) = true ->
    name (st r1) = name (st r2) -> lastSyncHash (st r1) = lastSyncHash (st r2).

(** ** Promises *)

(** What a promise is rejected with: [reject('...')], [reject()],
    [reject(new Error('...'))], or the exception that its executor threw. *)
Inductive Reason : Type :=
| Message (text : string)
| NoReason
| ErrorOf (message : string)
| TypeError.

(** How a promise ends: fulfilled, rejected, or never settled. *)
Inductive Promise (A : Type) : Type :=
| Fulfilled (value : A)
| Rejected (reason : Reason)
| Pending.

Arguments Fulfilled {A} value.
Arguments Rejected {A} reason.
Arguments Pending {A}.

(** ** ensureUploadOnSave *)

Module autoUploadAnswer.

Inductive t : Type := yes | no | never.

End autoUploadAnswer.

(** The part of the workspace that [ensureUploadOnSave] works on: whether
    [vscode.workspace] is there, the settings [uploadOnSave] and
    [uploadManually] of the extension, the user setting
    [uploadOnSaveGlobal] as far as the extension wrote it, and the warnings
    shown. *)
Record UploadSettings : Type := mkUploadSettings {
  folderOpen : bool;
  uploadOnSave : Setting;
  uploadManually : Setting;
  uploadOnSaveGlobal : option bool;
  uploadWarnings : list string
}.

(** [conf.update('uploadOnSave', always)], [conf.update('uploadManually',
    never)] and [conf.update('uploadOnSaveGlobal', false, true)]: the
    setting holds the value afterwards. *)
Definition update_uploadOnSave (always : list string) (conf : UploadSettings)
    : UploadSettings :=
  mkUploadSettings (folderOpen conf) (ArrayOf always) (uploadManually conf)
                   (uploadOnSaveGlobal conf) (uploadWarnings conf).

Definition update_uploadManually (never : list string) (conf : UploadSettings)
    : UploadSettings :=
  mkUploadSettings (folderOpen conf) (uploadOnSave conf) (ArrayOf never)
                   (uploadOnSaveGlobal conf) (uploadWarnings conf).

Definition update_uploadOnSaveGlobal (value : bool) (conf : UploadSettings)
    : UploadSettings :=
  mkUploadSettings (folderOpen conf) (uploadOnSave conf) (uploadManually conf)
                   (Some value) (uploadWarnings conf).

Definition warnUpload (msg : string) (conf : UploadSettings) : UploadSettings :=
  mkUploadSettings (folderOpen conf) (uploadOnSave conf) (uploadManually conf)
                   (uploadOnSaveGlobal conf) (uploadWarnings conf ++ [msg]).

(** The five items of the quick pick for a script name. *)
Definition UPLOAD_YES : string := "Yes".
Definition UPLOAD_NO : string := "No".
Definition UPLOAD_ALWAYS (scriptname : string) : string :=
  ("Always upload " ++ scriptname ++ " automatically")%string.
Definition UPLOAD_NEVER (scriptname : string) : string :=
  ("Never upload " ++ scriptname ++ " automatically")%string.
Definition UPLOAD_NEVERASK : string := "Never upload automatically".

Definition uploadItems (scriptname : string) : list string :=
  [UPLOAD_YES; UPLOAD_NO; UPLOAD_ALWAYS scriptname; UPLOAD_NEVER scriptname;
   UPLOAD_NEVERASK].

(** [ensureUploadOnSave(param)].  [basename] stands for [path.basename] of
    Node.js, which the function calls with the extension '.js'.  Without
    [vscode.workspace] the executor throws on [getConfiguration], before
    its own check for the workspace.  A quick pick that yields none of the
    five items leaves the promise unsettled. *)
Definition ensureUploadOnSave (basename : string -> string -> string) (u : User)
    (param : string) (conf : UploadSettings)
    : Promise autoUploadAnswer.t * UploadSettings :=
  if negb (folderOpen conf) then (Rejected TypeError, conf)
  else if String.eqb param EmptyString
  then (Rejected (Message "something is undefined"), conf)
  else
    let scriptname := basename param ".js" in
    match uploadOnSave conf, uploadManually conf with
    | ArrayOf always, ArrayOf never =>
        if JS.includes never scriptname
        then (Fulfilled autoUploadAnswer.no, conf)
        else if JS.includes always scriptname
        then (Fulfilled autoUploadAnswer.yes, conf)
        else
          let QUESTION := ("Upload script " ++ scriptname ++ "?")%string in
          let answer := showQuickPick u 0 (uploadItems scriptname) QUESTION in
          if equals answer UPLOAD_YES
          then (Fulfilled autoUploadAnswer.yes, conf)
          else if equals answer UPLOAD_NO
          then (Fulfilled autoUploadAnswer.no, conf)
          else if equals answer (UPLOAD_ALWAYS scriptname)
          then (Fulfilled autoUploadAnswer.yes,
                update_uploadOnSave (always ++ [scriptname]) conf)
          else if equals answer (UPLOAD_NEVER scriptname)
          then (Fulfilled autoUploadAnswer.no,
                update_uploadManually (never ++ [scriptname]) conf)
          else if equals answer UPLOAD_NEVERASK
          then (Fulfilled autoUploadAnswer.never,
                update_uploadOnSaveGlobal false conf)
          else (Pending, conf)
    | _, _ =>
        (Rejected NoReason,
         warnUpload "Cannot read upload mode from settings.json" conf)
    end.

(** The prompt of [ensureUploadOnSave] is shown: the workspace is there,
    the parameter is not empty, both settings are arrays and the script is
    on neither. *)
Definition asksAboutUpload (basename : string -> string -> string) (param : string)
    (conf : UploadSettings) : Prop :=
  folderOpen conf = true /\ param <> EmptyString /\
  exists always never,
    uploadOnSave conf = ArrayOf always /\ uploadManually conf = ArrayOf never /\
    JS.includes always (basename param ".js") = false /\
    JS.includes never (basename param ".js") = false.

(** The two lists of script names share no name and repeat none. *)
Definition listsApart (conf : UploadSettings) : Prop :=
  exists always never,
    uploadOnSave conf = ArrayOf always /\ uploadManually conf = ArrayOf never /\
    NoDup always /\ NoDup never /\
    (forall x, In x always -> In x never -> False).

(** A stand-in for [path.basename(p, '.js')] in the scenarios: the text
    after the last slash, less the extension. *)
Fixpoint stripExt (ext s : string) : string :=
  match s with
  | EmptyString => EmptyString
  | String c r => if String.eqb r ext then String c EmptyString
                  else String c (stripExt ext r)
  end.

Definition lastSegment (s : string) : string :=
  last (JS.split "/"%char s) EmptyString.

Definition sampleBasename (p ext : string) : string :=
  stripExt ext (lastSegment p).

(** A workspace in which nothing was decided about any script. *)
Definition undecided : UploadSettings :=
  mkUploadSettings true (ArrayOf []) (ArrayOf []) None [].

(** ** The file of script names *)

(** [s.split(sep)] for a separator that is a string. *)
Module JSString.

Fixpoint startsWith (s prefix : string) {struct prefix} : bool :=
  match prefix with
  | EmptyString => true
  | String p prefix' =>
      match s with
      | EmptyString => false
      | String c s' => Ascii.eqb c p && startsWith s' prefix'
      end
  end.

(** The fields of [s] from a position on; [skip] counts the characters of
    a separator just found that are still to be passed over. *)
Fixpoint splitFrom (sep : string) (skip : nat) (s : string) : list string :=
  match s with
  | EmptyString => [EmptyString]
  | String c rest =>
      match skip with
      | S k => splitFrom sep k rest
      | O =>
          if startsWith s sep
          then EmptyString :: splitFrom sep (String.length sep - 1) rest
          else match splitFrom sep 0 rest with
               | f :: fs => String c f :: fs
               | [] => [String c EmptyString]
               end
      end
  end.

(** With the empty separator the string falls into its characters. *)
Definition split (sep s : string) : list string :=
  match sep with
  | EmptyString => map (fun c => String c EmptyString) (list_ascii_of_string s)
  | String _ _ => splitFrom sep 0 s
  end.

End JSString.

(** [getDownloadScriptNamesFromList()].  [EOL] is [os.EOL], [newScript]
    the constructor [new nodeDoc.scriptT(name)] of the package
    node-documents-scripting, and [namesFile] what [fs.readFileSync] finds
    at [.documents-script-names]. *)
Definition getDownloadScriptNamesFromList (EOL : string)
    (newScript : string -> scriptT) (env : Env) (namesFile : FileState)
    : list scriptT :=
  if negb (workspace env) || negb (JS.truthyS (rootPath env)) then []
  else
    match namesFile with
    | File content =>
        map (fun scriptname => newScript (JS.trim scriptname))
            (JSString.split EOL (JS.trim content))
    | ENOENT | Unreadable => []
    end.

(** [writeScriptNamesToFile(scripts)]: the file afterwards. *)
Definition writeScriptNamesToFile (EOL : string) (env : Env)
    (scripts : list scriptT) (namesFile : FileState) : FileState :=
  if negb (workspace env) || negb (JS.truthyS (rootPath env)) then namesFile
  else
    match scripts with
    | [] => namesFile
    | _ :: _ => File (JS.join EOL (map name scripts) ++ EOL)
    end.

(** A line break: not empty, and white space only. *)
Definition lineBreak (EOL : string) : Prop :=
  EOL <> EmptyString /\ JS.every JS.isWhiteSpace EOL = true.

(** A script name that the file holds as it is: not empty, and without
    white space. *)
Definition listable (script : scriptT) : Prop :=
  name script <> EmptyString /\ JS.dense (name script) = true.

Definition CRLF : string :=
  String (ascii_of_nat 13) (String (ascii_of_nat 10) EmptyString).

(** ** The values of a launch.json *)

(** What [JSON.parse] yields.  Numbers are the natural numbers, which is
    what ports and timeouts are. *)
#[warnings="-register-all"]
Inductive json : Type :=
| JNull
| JBool (b : bool)
| JNumber (n : nat)
| JString (s : string)
| JArray (items : list json)
| JObject (members : list (string * json)).

(** The own property of a name: the last member of that name. *)
Fixpoint ownProperty (key : string) (members : list (string * json)) : option json :=
  match members with
  | [] => None
  | (k, v) :: rest =>
      match ownProperty key rest with
      | Some w => Some w
      | None => if String.eqb k key then Some v else None
      end
  end.

Definition hasOwn (key : string) (members : list (string * json)) : bool :=
  existsb (fun kv => String.eqb (fst kv) key) members.

(** [v.key] for a value that is not [null] and a name that no prototype
    of a JSON value defines: the own property of an object, [undefined]
    otherwise. *)
Definition member (v : json) (key : string) : option json :=
  match v with
  | JObject members => ownProperty key members
  | _ => None
  end.

(** Truthiness of a value that may be [undefined]. *)
Definition truthyJ (v : option json) : bool :=
  match v with
  | None | Some JNull => false
  | Some (JBool b) => b
  | Some (JNumber n) => negb (Nat.eqb n 0)
  | Some (JString s) => negb (String.eqb s EmptyString)
  | Some (JArray _) | Some (JObject _) => true
  end.

(** [v === 'text'] *)
Definition strictEq (v : option json) (text : string) : bool :=
  match v with
  | Some (JString s) => String.eqb s text
  | _ => false
  end.

(** What is found at the path of a launch.json: no file that can be read,
    a text that [JSON.parse] rejects, or a value. *)
Inductive LaunchJson : Type :=
| Missing
| Malformed
| Parsed (jsonObject : json).

(** ** loadConfigFile *)

Module Login.

(** The fields of [nodeDoc.LoginData] that the extension reads and
    writes. *)
Record LoginData : Type := mkLoginData {
  server : option json;
  port : option json;
  principal : option json;
  username : option json;
  password : option json;
  askForPassword : bool;
  askForPasswordStr : string;
  configFile : string;
  sdsTimeout : option json;
  lastWarning : string
}.

Definition set_configFile (file : string) (login : LoginData) : LoginData :=
  mkLoginData (server login) (port login) (principal login) (username login)
              (password login) (askForPassword login) (askForPasswordStr login)
              file (sdsTimeout login) (lastWarning login).

(** The condition of the callback of the [forEach], and the assignments
    that it guards. *)
Definition isLaunch (config : json) : bool :=
  strictEq (member config "type") "janus"
  && strictEq (member config "request") "launch".

Definition asksForPassword (login : LoginData) (config : json) : bool :=
  strictEq (member config "password") (askForPasswordStr login).

Definition takeConfig (login : LoginData) (config : json) : LoginData :=
  mkLoginData
    (member config "host")
    (member config "applicationPort")
    (member config "principal")
    (member config "username")
    (member config "password")
    (if asksForPassword login config then true else askForPassword login)
    (askForPasswordStr login)
    (configFile login)
    (member config "sdsTimeout")
    (lastWarning login).

(** The callback of the [forEach]; [None] when it throws, which it does on
    [null]. *)
Definition loadConfig (login : LoginData) (config : json) : option LoginData :=
  match config with
  | JNull => None
  | _ => if isLaunch config then Some (takeConfig login config) else Some login
  end.

(** [configurations.forEach(...)]: the login data when the loop ends, and
    whether it ended without an exception. *)
Fixpoint forEachConfig (login : LoginData) (configurations : list json)
    : LoginData * bool :=
  match configurations with
  | [] => (login, true)
  | config :: rest =>
      match loadConfig login config with
      | Some login' => forEachConfig login' rest
      | None => (login, false)
      end
  end.

(** [loadConfigFile(login, configFile)], with what is found at
    [configFile]: the value returned and the login data afterwards. *)
Definition loadConfigFile (login : LoginData) (file : string) (found : LaunchJson)
    : bool * LoginData :=
  let login := set_configFile file login in
  match found with
  | Missing | Malformed => (false, login)
  | Parsed JNull => (false, login)
  | Parsed jsonObject =>
      let configurations := member jsonObject "configurations" in
      if truthyJ configurations then
        match configurations with
        | Some (JArray configs) =>
            let (login', finished) := forEachConfig login configs in
            (finished, login')
        | _ => (false, login)
        end
      else (true, login)
  end.

End Login.

(** ** extend *)

(** An object that receives properties: its prototype, which is the one
    it was created with unless an assignment to [__proto__] replaced it,
    and its own properties. *)
Inductive Prototype : Type :=
| ClassPrototype
| AssignedPrototype (v : json).

Record Object : Type := mkObject {
  prototype : Prototype;
  own : list (string * json)
}.

Definition setOwn (key : string) (v : json) (members : list (string * json))
    : list (string * json) :=
  if hasOwn key members
  then map (fun kv => if String.eqb (fst kv) key then (fst kv, v) else kv) members
  else members ++ [(key, v)].

(** Whether an assignment to [__proto__] reaches the setter of
    [Object.prototype]: the object has no own property of that name, and
    neither [null] nor a data property of that name stands in the way. *)
Definition reachesSetter (t : Object) : bool :=
  negb (hasOwn "__proto__" (own t))
  && match prototype t with
     | ClassPrototype => true
     | AssignedPrototype JNull => false
     | AssignedPrototype (JObject members) => negb (hasOwn "__proto__" members)
     | AssignedPrototype _ => true
     end.

(** [t[key] = v] *)
Definition assignProperty (t : Object) (key : string) (v : json) : Object :=
  if String.eqb key "__proto__" && reachesSetter t then
    match v with
    | JNull | JArray _ | JObject _ => mkObject (AssignedPrototype v) (own t)
    | JBool _ | JNumber _ | JString _ => t
    end
  else mkObject (prototype t) (setOwn key v (own t)).

(** The index of an array element or of a character, as a property
    name. *)
Definition indexKey (i : nat) : string :=
  NilZero.string_of_uint (Nat.to_uint i).

Definition indexed (items : list json) : list (string * json) :=
  combine (map indexKey (seq 0 (length items))) items.

Definition characters (s : string) : list json :=
  map (fun c => JString (String c EmptyString)) (list_ascii_of_string s).

(** [Object.keys(s)] with the values [s[key]]; [None] when [Object.keys]
    throws. *)
Definition entries (s : json) : option (list (string * json)) :=
  match s with
  | JNull => None
  | JBool _ | JNumber _ => Some []
  | JString text => Some (indexed (characters text))
  | JArray items => Some (indexed items)
  | JObject members => Some members
  end.

(** [extend(target, source)] *)
Definition extend (target : Object) (source : json) : option Object :=
  match entries source with
  | None => None
  | Some properties =>
      Some (fold_left (fun t kv => assignProperty t (fst kv) (snd kv))
              properties target)
  end.

(** ** reconnectServerConsole *)

(** [new Config()] in [getLaunchConfigFromDisk] *)
Definition emptyConfig : Object := mkObject ClassPrototype [].

(** [getLaunchConfigFromDisk()].  An exception in the callback of
    [fs.readFile] leaves the promise unsettled. *)
Definition getLaunchConfigFromDisk (root : option string) (found : LaunchJson)
    : Promise Object :=
  if negb (JS.truthyS root) then Fulfilled emptyConfig
  else
    match found with
    | Missing => Fulfilled emptyConfig
    | Malformed => Pending
    | Parsed obj =>
        match extend emptyConfig obj with
        | Some config => Fulfilled config
        | None => Pending
        end
    end.

(** [config.get(section, defaultValue)] of the class [Config]; [None] when
    the call throws because [get], [has] or [hasOwnProperty] is no longer
    the method. *)
Definition Config_get (config : Object) (section : string) (defaultValue : json)
    : option json :=
  match prototype config with
  | AssignedPrototype _ => None
  | ClassPrototype =>
      if hasOwn "get" (own config) || hasOwn "has" (own config)
         || hasOwn "hasOwnProperty" (own config)
      then None
      else
        match ownProperty section (own config) with
        | Some v => Some v
        | None => Some defaultValue
        end
  end.

(** [config.hasOwnProperty('type')]; [None] when it throws. *)
Definition ownsType (config : json) : option bool :=
  match config with
  | JNull => None
  | JObject members =>
      if hasOwn "hasOwnProperty" members then None
      else Some (hasOwn "type" members)
  | _ => Some false
  end.

(** The [for ... of] loop with its [break]: the configuration it stops
    at, if any; [None] when it throws. *)
Fixpoint firstJanus (configs : list json) : option (option json) :=
  match configs with
  | [] => Some None
  | config :: rest =>
      match ownsType config with
      | None => None
      | Some owns =>
          if owns && strictEq (member config "type") "janus"
          then Some (Some config)
          else firstJanus rest
      end
  end.

(** What [for ... of] iterates over; [None] when the value is not
    iterable. *)
Definition iterate (configs : json) : option (list json) :=
  match configs with
  | JArray items => Some items
  | JString text => Some (characters text)
  | _ => None
  end.

Inductive ConsoleAction : Type :=
| Connect (hostname port : json) (timeout : option json)
| NoConnect
| Hangs.

(** [reconnectServerConsole(console)]: what is done with the console
    after the disconnect.  [disconnects] tells whether the promise of
    [console.disconnect()] is fulfilled. *)
Definition reconnectServerConsole (disconnects : bool) (root : option string)
    (found : LaunchJson) : ConsoleAction :=
  if negb disconnects then NoConnect
  else
    match getLaunchConfigFromDisk root found with
    | Pending => Hangs
    | Rejected _ => NoConnect
    | Fulfilled launchJson =>
        match Config_get launchJson "configurations" (JArray []) with
        | None => NoConnect
        | Some configs =>
            match iterate configs with
            | None => NoConnect
            | Some items =>
                match firstJanus items with
                | Some (Some config) =>
                    match member config "host", member config "applicationPort" with
                    | Some hostname, Some port =>
                        if truthyJ (Some hostname) && truthyJ (Some port)
                        then Connect hostname port (member config "timeout")
                        else NoConnect
                    | _, _ => NoConnect
                    end
                | _ => NoConnect
                end
            end
        end
    end.

(** A launch.json as the extension writes it and as people extend it: an
    object without members that would shadow the methods of [Config], and
    configurations that are objects without a member [hasOwnProperty]. *)
Definition ordinaryMembers (members : list (string * json)) : Prop :=
  hasOwn "get" members = false /\ hasOwn "has" members = false /\
  hasOwn "hasOwnProperty" members = false /\ hasOwn "__proto__" members = false.

Definition ordinaryConfig (config : json) : Prop :=
  exists members, config = JObject members /\
                  hasOwn "hasOwnProperty" members = false.

Definition isJanus (config : json) : bool :=
  strictEq (member config "type") "janus".

(** *** Scenarios *)

Definition janusConfig (request host : string) (applicationPort : nat) : json :=
  JObject [("type", JString "janus"); ("request", JString request);
           ("host", JString host); ("applicationPort", JNumber applicationPort);
           ("principal", JString "dopaag"); ("username", JString "admin");
           ("password", JString "secret")].

Definition launchJsonOf (configs : list json) : json :=
  JObject [("version", JString "0.2.0"); ("configurations", JArray configs)].

Definition noLogin : Login.LoginData :=
  Login.mkLoginData None None None None None false
    "${command:extension.vscode-janus-debug.askForPassword}"
    EmptyString None EmptyString.

(** ** The login prompts *)

(** The person at the input boxes: in the [k]-th box of a dialogue, with
    this prompt and this initial value, they enter a text or cancel. *)
Definition Typist := nat -> string -> json -> option string.

(** What [fs.stat] finds at [.vscode/launch.json]. *)
Inductive LaunchFileState : Type :=
| Absent
| Present
| StatFails (message : string).

(** The argument of [provideInitialConfigurations] in
    [createLaunchJson]. *)
Record InitialConfiguration : Type := mkInitialConfiguration {
  init_host : option json;
  init_applicationPort : option json;
  init_principal : option json;
  init_username : option json;
  init_password : option json
}.

Module Prompts.
Import Login.

Definition CANCELLED : Reason := ErrorOf "input login data cancelled".

Definition set_password (pw : option json) (login : LoginData) : LoginData :=
  mkLoginData (server login) (port login) (principal login) (username login)
              pw (askForPassword login) (askForPasswordStr login)
              (configFile login) (sdsTimeout login) (lastWarning login).

Definition set_askForPassword (ask : bool) (login : LoginData) : LoginData :=
  mkLoginData (server login) (port login) (principal login) (username login)
              (password login) ask (askForPasswordStr login)
              (configFile login) (sdsTimeout login) (lastWarning login).

(** The four assignments after the fourth input box. *)
Definition set_account (server' port' principal' username' : json)
    (login : LoginData) : LoginData :=
  mkLoginData (Some server') (Some port') (Some principal') (Some username')
              (password login) (askForPassword login) (askForPasswordStr login)
              (configFile login) (sdsTimeout login) (lastWarning login).

(** [!text] for what an input box yields. *)
Definition entered (text : option string) : option string :=
  match text with
  | Some (String c r) => Some (String c r)
  | Some EmptyString | None => None
  end.

(** [askForPassword(_loginData)] *)
Definition askForPassword (t : Typist) (login : LoginData)
    : Promise unit * LoginData :=
  match t 0 "Please enter the password" (JString EmptyString) with
  | None => (Rejected (ErrorOf "input password cancelled"), login)
  | Some pw => (Fulfilled tt, set_password (Some (JString pw)) login)
  end.

(** [askForLoginData(_loginData)].  [Number] and [show] stand for the
    conversions [Number(port)] and [port.toString()] of JavaScript, as far
    as their results are values of [json]. *)
Definition askForLoginData (Number : string -> json) (show : json -> string)
    (t : Typist) (u : User) (login : LoginData) : Promise unit * LoginData :=
  match entered (t 0 "Please enter the hostname" (JString "localhost")) with
  | None => (Rejected CANCELLED, login)
  | Some server' =>
  match entered (t 1 "Please enter the port"
                   (JString (match port login with
                             | Some p => if truthyJ (Some p) then show p else "11000"
                             | None => "11000"
                             end))) with
  | None => (Rejected CANCELLED, login)
  | Some port' =>
  match entered (t 2 "Please enter the principal"
                   (match principal login with
                    | Some p => if truthyJ (Some p) then p else JString "dopaag"
                    | None => JString "dopaag"
                    end)) with
  | None => (Rejected CANCELLED, login)
  | Some principal' =>
  match entered (t 3 "Please enter the username (username.principal)"
                   (match username login with
                    | Some n => if truthyJ (Some n) then n else JString "admin"
                    | None => JString "admin"
                    end)) with
  | None => (Rejected CANCELLED, login)
  | Some username' =>
      let login1 := set_account (JString server') (Number port')
                      (JString principal') (JString username') login in
      match t 4 "Please enter the password" (JString EmptyString) with
      | None => (Rejected CANCELLED, login1)
      | Some pw =>
          let login2 := set_password (Some (JString pw)) login1 in
          let savePw :=
            showQuickPick u 0 ["Yes"; "No"] "Save password to launch.json?" in
          if equals savePw "Yes"
          then (Fulfilled tt, set_askForPassword false login2)
          else if equals savePw "No"
          then (Fulfilled tt, set_askForPassword true login2)
          else (Fulfilled tt, login2)
      end
  end end end end.

(** [createLaunchJson(loginData)]: how its promise ends, and the
    configuration that is handed to [provideInitialConfigurations] and
    written when [nodeDoc.writeFile] succeeds.  [written] tells whether it
    does, and with which reason it fails. *)
Definition createLaunchJson (ws : bool) (root : option string)
    (found : LaunchFileState) (written : option string) (login : LoginData)
    : Promise unit * option InitialConfiguration :=
  if negb ws then (Rejected (Message "no workspace"), None)
  else if negb (JS.truthyS root)
  then (Rejected (Message "folder must be open to save login data"), None)
  else
    match found with
    | Absent =>
        let pw := if Login.askForPassword login
                  then Some (JString "${command:extension.vscode-janus-debug.askForPassword}")
                  else password login in
        let data := mkInitialConfiguration (server login) (port login)
                      (principal login) (username login) pw in
        match written with
        | None => (Fulfilled tt, Some data)
        | Some reason => (Rejected (Message reason), None)
        end
    | StatFails message => (Rejected (ErrorOf message), None)
    | Present => (Rejected (Message "cannot overwrite existing launch.json"), None)
    end.

(** The text of a reason in a string concatenation. *)
Definition reasonText (reason : Reason) : string :=
  match reason with
  | Message text => text
  | NoReason => "undefined"
  | ErrorOf message => ("Error: " ++ message)%string
  | TypeError => "TypeError"
  end.

(** The world of [getLoginData]: the people at the prompts, the workspace
    and its launch.json. *)
Record Desk : Type := mkDesk {
  typist : Typist;
  user : User;
  deskWorkspace : bool;
  deskRoot : option string;
  launchFile : LaunchFileState;
  writeFails : option string
}.

(** [getLoginData(_loginData)]: how its promise ends, the login data, the
    warnings shown and what was written to the launch.json. *)
Definition getLoginData (checkLoginData : LoginData -> bool)
    (Number : string -> json) (show : json -> string) (d : Desk)
    (login : LoginData)
    : Promise unit * LoginData * list string * option InitialConfiguration :=
  if negb (checkLoginData login) then
    match askForLoginData Number show (typist d) (user d) login with
    | (Fulfilled _, login') =>
        match createLaunchJson (deskWorkspace d) (deskRoot d) (launchFile d)
                (writeFails d) login' with
        | (Rejected err, _) =>
            (Fulfilled tt, login',
             [("did not save login data: " ++ reasonText err)%string], None)
        | (Fulfilled _, data) => (Fulfilled tt, login', [], data)
        | (Pending, data) => (Pending, login', [], data)
        end
    | (Rejected err, login') => (Rejected err, login', [], None)
    | (Pending, login') => (Pending, login', [], None)
    end
  else
    match askForPassword (typist d) login with
    | (Fulfilled _, login') => (Fulfilled tt, login', [], None)
    | (Rejected err, login') => (Rejected err, login', [], None)
    | (Pending, login') => (Pending, login', [], None)
    end.

(** [serverInfo.askForPasswordStr === serverInfo.password] *)
Definition placeholderPassword (login : LoginData) : bool :=
  strictEq (password login) (askForPasswordStr login).

(** [ensureLoginInformation(serverInfo)] *)
Definition ensureLoginInformation (checkLoginData : LoginData -> bool)
    (Number : string -> json) (show : json -> string) (d : Desk)
    (login : LoginData)
    : Promise unit * LoginData * list string * option InitialConfiguration :=
  if checkLoginData login
     && negb (Login.askForPassword login && placeholderPassword login)
  then (Fulfilled tt, login, [], None)
  else
    match getLoginData checkLoginData Number show d login with
    | (Fulfilled _, login', warnings, data) =>
        if checkLoginData login' && negb (placeholderPassword login')
        then (Fulfilled tt, login', warnings, data)
        else (Rejected (Message "getting login data failed"), login', warnings, data)
    | (Rejected reason, login', warnings, data) =>
        (Rejected reason, login', warnings, data)
    | (Pending, login', warnings, data) => (Pending, login', warnings, data)
    end.

(** *** Scenarios *)

(** Stand-ins for [checkLoginData], [Number] and [toString]: the login
    data are complete when server, port, principal and user name are
    there; every port is read as 1100 and shown as "1100". *)
Definition complete (login : LoginData) : bool :=
  truthyJ (server login) && truthyJ (port login)
  && truthyJ (principal login) && truthyJ (username login).

Definition anyPort (text : string) : json := JNumber 1100.

Definition showPort (v : json) : string := "1100".

(** Someone who accepts the initial value of every box but types "secret"
    for the password, or cancels there. *)
Definition accepting (pw : option string) : Typist :=
  fun k prompt value =>
    match k with
    | 4 => pw
    | _ => match value with JString s => Some s | _ => Some "x" end
    end.

Definition deskOf (t : Typist) (choice : option nat) : Desk :=
  mkDesk t (answering choice) true (Some "/workspace") Absent None.

End Prompts.

(** ** Routing of a resolved value *)

Lemma equals_true (value : option string) (c : string) :
  equals value c = true <-> value = Some c.
Proof.
  destruct value as [v|]; simpl.
  - rewrite String.eqb_eq. split; intros H; [subst | inversion H]; reflexivity.
  - split; discriminate.
Qed.

(** The five branches of the callback. *)
Lemma value_cases (value : option string) :
  value = Some NO_CONFLICT \/ value = Some FORCE_UPLOAD_ALL \/
  value = Some FORCE_UPLOAD_YES \/ value = Some FORCE_UPLOAD_NO \/
  appliedNone value = true.
Proof.
  unfold appliedNone.
  destruct (equals value NO_CONFLICT) eqn:E1;
    [left; now apply equals_true|].
  destruct (equals value FORCE_UPLOAD_ALL) eqn:E2;
    [right; left; now apply equals_true|].
  destruct (equals value FORCE_UPLOAD_YES) eqn:E3;
    [right; right; left; now apply equals_true|].
  destruct (equals value FORCE_UPLOAD_NO) eqn:E4;
    [right; right; right; left; now apply equals_true|].
  right; right; right; right; reflexivity.
Qed.

Lemma appliedNone_inv (value : option string) :
  appliedNone value = true ->
  equals value NO_CONFLICT = false /\ equals value FORCE_UPLOAD_ALL = false /\
  equals value FORCE_UPLOAD_YES = false /\ equals value FORCE_UPLOAD_NO = false.
Proof.
  unfold appliedNone. intros H.
  repeat (apply andb_prop in H; destruct H as [H ?]).
  repeat match goal with
         | E : negb _ = true |- _ => apply negb_true_iff in E
         end.
  auto.
Qed.

(** Decide the comparisons of a known value with the constants. *)
Ltac decide_equals :=
  repeat match goal with
         | |- context [equals (Some ?a) ?c] =>
             let v := eval vm_compute in (equals (Some a) c) in
             change (equals (Some a) c) with v
         end.

Ltac by_value value :=
  let Hv := fresh "Hv" in
  let E1 := fresh "E" in let E2 := fresh "E" in
  let E3 := fresh "E" in let E4 := fresh "E" in
  unfold route, noConflictValue, forcedValue, appliedAll, appliedNone;
  destruct (value_cases value) as [Hv|[Hv|[Hv|[Hv|Hv]]]];
  [ subst value; decide_equals ..
  | destruct (appliedNone_inv _ Hv) as (E1 & E2 & E3 & E4);
    rewrite ?E1, ?E2, ?E3, ?E4 ];
  simpl; rewrite ?app_nil_r, ?orb_false_r, ?orb_true_r; try reflexivity.

Lemma route_all b script value :
  all (route b script value) = all b || appliedAll value.
Proof. by_value value. Qed.

Lemma route_none b script value :
  none (route b script value) = none b || appliedNone value.
Proof. by_value value. Qed.

Lemma route_numScripts b script value :
  numScripts (route b script value) = S (numScripts b).
Proof. by_value value. Qed.

Lemma route_noConflictArr b script value :
  noConflictArr (route b script value) =
  noConflictArr b ++ (if noConflictValue value then [script] else []).
Proof. by_value value. Qed.

Lemma route_forceUploadArr b script value :
  forceUploadArr (route b script value) =
  forceUploadArr b ++ (if forcedValue value then [script] else []).
Proof. by_value value. Qed.

Lemma route_heap b script value :
  heap (route b script value) =
  if forcedValue value
  then assign (heap b) script
         (set_conflict (Some false) (set_forceUpload (Some true) (heap b script)))
  else heap b.
Proof. by_value value. Qed.

(** ** One turn of the batch *)

Section Turn.

Variable u : User.
Variable singlescript : bool.

Local Abbreviation turn := (resolveScript u singlescript).

Lemma resolveScript_script b s : res_script (fst (turn b s)) = s.
Proof. unfold resolveScript. destruct (askForUpload _ _ _ _); reflexivity. Qed.

Lemma resolveScript_record b s : res_record (fst (turn b s)) = heap b s.
Proof. unfold resolveScript. destruct (askForUpload _ _ _ _); reflexivity. Qed.

(** A prompt is shown exactly for an unresolved script while no flag is
    latched. *)
Lemma resolveScript_prompted b s :
  res_prompted (fst (turn b s)) =
  unresolved (heap b s) && negb (all b) && negb (none b).
Proof.
  unfold resolveScript, askForUpload, unresolved.
  destruct (JS.truthyB _ || negb _); simpl; [|reflexivity].
  destruct (all b); simpl; [reflexivity|].
  destruct (none b); reflexivity.
Qed.

(** Without a prompt the value is the remembered answer, or [NO_CONFLICT]. *)
Lemma resolveScript_unprompted b s :
  res_prompted (fst (turn b s)) = false ->
  res_value (fst (turn b s)) =
  Some (if unresolved (heap b s)
        then if all b then FORCE_UPLOAD_ALL else FORCE_UPLOAD_NONE
        else NO_CONFLICT).
Proof.
  unfold resolveScript, askForUpload, unresolved.
  destruct (JS.truthyB _ || negb _); simpl; [|reflexivity].
  destruct (all b); simpl; [reflexivity|].
  destruct (none b); simpl; [reflexivity|discriminate].
Qed.

Lemma resolveScript_all b s :
  all (snd (turn b s)) = all b || appliedAll (res_value (fst (turn b s))).
Proof.
  unfold resolveScript. destruct (askForUpload _ _ _ _); simpl;
    now rewrite route_all.
Qed.

Lemma resolveScript_none b s :
  none (snd (turn b s)) = none b || appliedNone (res_value (fst (turn b s))).
Proof.
  unfold resolveScript. destruct (askForUpload _ _ _ _); simpl;
    now rewrite route_none.
Qed.

Lemma resolveScript_numScripts b s :
  numScripts (snd (turn b s)) = S (numScripts b).
Proof.
  unfold resolveScript. destruct (askForUpload _ _ _ _); simpl;
    now rewrite route_numScripts.
Qed.

Lemma resolveScript_noConflictArr b s :
  noConflictArr (snd (turn b s)) =
  noConflictArr b ++
  (if noConflictValue (res_value (fst (turn b s))) then [s] else []).
Proof.
  unfold resolveScript. destruct (askForUpload _ _ _ _); simpl;
    now rewrite route_noConflictArr.
Qed.

Lemma resolveScript_forceUploadArr b s :
  forceUploadArr (snd (turn b s)) =
  forceUploadArr b ++
  (if forcedValue (res_value (fst (turn b s))) then [s] else []).
Proof.
  unfold resolveScript. destruct (askForUpload _ _ _ _); simpl;
    now rewrite route_forceUploadArr.
Qed.

Lemma resolveScript_heap b s :
  heap (snd (turn b s)) =
  if forcedValue (res_value (fst (turn b s)))
  then assign (heap b) s
         (set_conflict (Some false) (set_forceUpload (Some true) (heap b s)))
  else heap b.
Proof.
  unfold resolveScript. destruct (askForUpload _ _ _ _); simpl;
    now rewrite route_heap.
Qed.

Lemma latched_all_turn b s :
  all b = true ->
  remembered FORCE_UPLOAD_ALL (fst (turn b s)) /\ all (snd (turn b s)) = true.
Proof.
  intros Hall.
  assert (Hp : res_prompted (fst (turn b s)) = false).
  { rewrite resolveScript_prompted, Hall. now rewrite andb_false_r. }
  split; [split; [exact Hp|]|].
  - rewrite (resolveScript_unprompted _ _ Hp), resolveScript_record, Hall.
    reflexivity.
  - rewrite resolveScript_all, Hall. reflexivity.
Qed.

Lemma latched_none_turn b s :
  all b = false -> none b = true ->
  remembered FORCE_UPLOAD_NONE (fst (turn b s)) /\
  all (snd (turn b s)) = false /\ none (snd (turn b s)) = true.
Proof.
  intros Hall Hnone.
  assert (Hp : res_prompted (fst (turn b s)) = false).
  { rewrite resolveScript_prompted, Hnone. now rewrite andb_false_r. }
  pose proof (resolveScript_unprompted _ _ Hp) as Hv. rewrite Hall in Hv.
  split; [split; [exact Hp|]|split].
  - rewrite Hv, resolveScript_record. reflexivity.
  - rewrite resolveScript_all, Hall, Hv. destruct (unresolved _); reflexivity.
  - rewrite resolveScript_none, Hnone. reflexivity.
Qed.

(** A value that latches [none] comes from a prompt: both flags were
    clear, and afterwards [none] alone is set. *)
Lemma appliedNone_turn b s :
  exclusive b ->
  appliedNone (res_value (fst (turn b s))) = true ->
  all (snd (turn b s)) = false /\ none (snd (turn b s)) = true.
Proof.
  unfold exclusive. intros Hex Hn.
  rewrite resolveScript_all, resolveScript_none, Hn, orb_true_r.
  split; [|reflexivity].
  destruct (appliedNone_inv _ Hn) as (E1 & E2 & _).
  unfold appliedAll. rewrite E2, orb_false_r.
  destruct (all b) eqn:Hall; [|reflexivity].
  destruct (latched_all_turn b s Hall) as [[_ Hv] _].
  rewrite Hv in E1, E2.
  destruct (unresolved _); discriminate.
Qed.

Lemma exclusive_turn b s : exclusive b -> exclusive (snd (turn b s)).
Proof.
  unfold exclusive. intros Hex.
  destruct (appliedNone (res_value (fst (turn b s)))) eqn:Hn.
  - destruct (appliedNone_turn b s Hex Hn) as [-> _]. reflexivity.
  - rewrite resolveScript_none, Hn, orb_false_r.
    destruct (none b) eqn:Hnone; [|apply andb_false_r].
    rewrite andb_true_r in Hex |- *.
    destruct (latched_none_turn b s Hex Hnone) as (_ & Ha & _). exact Ha.
Qed.

End Turn.

(** ** The whole batch *)

Section Reduce.

Variable u : User.
Variable singlescript : bool.

Local Abbreviation run := (reduce u singlescript).

Lemma reduce_cons s rest b :
  run (s :: rest) b =
  (fst (resolveScript u singlescript b s)
     :: fst (run rest (snd (resolveScript u singlescript b s))),
   snd (run rest (snd (resolveScript u singlescript b s)))).
Proof.
  simpl. destruct (resolveScript u singlescript b s) as [r b1]. simpl.
  destruct (reduce u singlescript rest b1). reflexivity.
Qed.

(** One resolution per script, in the order of the array. *)
Lemma reduce_scripts scripts b : map res_script (fst (run scripts b)) = scripts.
Proof.
  revert b. induction scripts as [|s rest IH]; intros b; [reflexivity|].
  rewrite reduce_cons. simpl. now rewrite resolveScript_script, IH.
Qed.

Lemma reduce_length scripts b : length (fst (run scripts b)) = length scripts.
Proof. rewrite <- (reduce_scripts scripts b) at 2. now rewrite length_map. Qed.

Lemma reduce_numScripts scripts b :
  numScripts (snd (run scripts b)) = numScripts b + length scripts.
Proof.
  revert b. induction scripts as [|s rest IH]; intros b.
  - simpl. lia.
  - rewrite reduce_cons. simpl. rewrite IH, resolveScript_numScripts. lia.
Qed.

(** The two arrays are read off the resolutions. *)
Lemma reduce_noConflictArr scripts b :
  noConflictArr (snd (run scripts b)) =
  noConflictArr b ++
  map res_script
    (filter (fun r => noConflictValue (res_value r)) (fst (run scripts b))).
Proof.
  revert b. induction scripts as [|s rest IH]; intros b.
  - simpl. now rewrite app_nil_r.
  - rewrite reduce_cons. simpl. rewrite IH, resolveScript_noConflictArr.
    rewrite <- app_assoc. f_equal.
    destruct (noConflictValue _); simpl;
      now rewrite ?resolveScript_script.
Qed.

Lemma reduce_forceUploadArr scripts b :
  forceUploadArr (snd (run scripts b)) =
  forceUploadArr b ++
  map res_script
    (filter (fun r => forcedValue (res_value r)) (fst (run scripts b))).
Proof.
  revert b. induction scripts as [|s rest IH]; intros b.
  - simpl. now rewrite app_nil_r.
  - rewrite reduce_cons. simpl. rewrite IH, resolveScript_forceUploadArr.
    rewrite <- app_assoc. f_equal.
    destruct (forcedValue _); simpl;
      now rewrite ?resolveScript_script.
Qed.

(** The flags only ever go up. *)
Lemma reduce_all_monotone scripts b :
  all b = true -> all (snd (run scripts b)) = true.
Proof.
  revert b. induction scripts as [|s rest IH]; intros b Hall; [exact Hall|].
  rewrite reduce_cons. simpl. apply IH.
  now rewrite resolveScript_all, Hall.
Qed.

Lemma reduce_none_monotone scripts b :
  none b = true -> none (snd (run scripts b)) = true.
Proof.
  revert b. induction scripts as [|s rest IH]; intros b Hnone; [exact Hnone|].
  rewrite reduce_cons. simpl. apply IH.
  now rewrite resolveScript_none, Hnone.
Qed.


(** A batch is the batch of a prefix followed by the batch of the rest. *)
Lemma reduce_app l1 l2 b :
  run (l1 ++ l2) b =
  (fst (run l1 b) ++ fst (run l2 (snd (run l1 b))),
   snd (run l2 (snd (run l1 b)))).
Proof.
  revert b. induction l1 as [|s rest IH]; intros b.
  - simpl. now destruct (reduce u singlescript l2 b).
  - rewrite <- app_comm_cons, !reduce_cons, IH. reflexivity.
Qed.

(** With [all] latched nothing is asked any more. *)
Lemma reduce_latched_all scripts b :
  all b = true -> Forall (remembered FORCE_UPLOAD_ALL) (fst (run scripts b)).
Proof.
  revert b. induction scripts as [|s rest IH]; intros b Hall.
  - constructor.
  - rewrite reduce_cons. simpl.
    destruct (latched_all_turn u singlescript b s Hall) as [Hr Hall'].
    constructor; [exact Hr|now apply IH].
Qed.

Lemma reduce_latched_none scripts b :
  all b = false -> none b = true ->
  Forall (remembered FORCE_UPLOAD_NONE) (fst (run scripts b)).
Proof.
  revert b. induction scripts as [|s rest IH]; intros b Hall Hnone.
  - constructor.
  - rewrite reduce_cons. simpl.
    destruct (latched_none_turn u singlescript b s Hall Hnone) as (Hr & Ha & Hn).
    constructor; [exact Hr|now apply IH].
Qed.

(** After a value that latches [all], the later scripts. *)
Lemma after_appliedAll scripts b i j ri rj :
  nth_error (fst (run scripts b)) i = Some ri ->
  nth_error (fst (run scripts b)) j = Some rj ->
  i < j ->
  appliedAll (res_value ri) = true ->
  remembered FORCE_UPLOAD_ALL rj.
Proof.
  revert b i j. induction scripts as [|s rest IH]; intros b i j Hi Hj Hlt Ha.
  - destruct i; discriminate.
  - rewrite reduce_cons in Hi, Hj. simpl in Hi, Hj.
    destruct j as [|j]; [lia|]. simpl in Hj.
    destruct i as [|i]; simpl in Hi.
    + injection Hi as <-.
      assert (Hall : all (snd (resolveScript u singlescript b s)) = true)
        by (now rewrite resolveScript_all, Ha, orb_true_r).
      pose proof (reduce_latched_all rest _ Hall) as HF.
      rewrite Forall_forall in HF. apply HF. eapply nth_error_In; eauto.
    + apply (IH (snd (resolveScript u singlescript b s)) i j); auto. lia.
Qed.

(** After a value that latches [none], the later scripts. *)
Lemma after_appliedNone scripts b i j ri rj :
  exclusive b ->
  nth_error (fst (run scripts b)) i = Some ri ->
  nth_error (fst (run scripts b)) j = Some rj ->
  i < j ->
  appliedNone (res_value ri) = true ->
  remembered FORCE_UPLOAD_NONE rj.
Proof.
  revert b i j. induction scripts as [|s rest IH]; intros b i j Hex Hi Hj Hlt Ha.
  - destruct i; discriminate.
  - rewrite reduce_cons in Hi, Hj. simpl in Hi, Hj.
    destruct j as [|j]; [lia|]. simpl in Hj.
    destruct i as [|i]; simpl in Hi.
    + injection Hi as <-.
      destruct (appliedNone_turn u singlescript b s Hex Ha) as [Hall Hnone].
      pose proof (reduce_latched_none rest _ Hall Hnone) as HF.
      rewrite Forall_forall in HF. apply HF. eapply nth_error_In; eauto.
    + apply (IH (snd (resolveScript u singlescript b s)) i j); auto.
      * now apply exclusive_turn.
      * lia.
Qed.

End Reduce.

(** ** What a forced upload leaves in the store *)

Section Marks.

Variable u : User.
Variable singlescript : bool.

Lemma marked_turn b s r :
  marked (heap b r) -> marked (heap (snd (resolveScript u singlescript b s)) r).
Proof.
  intros Hm. rewrite resolveScript_heap.
  destruct (forcedValue _); [|exact Hm].
  unfold assign. destruct (Nat.eqb r s); [split; reflexivity|exact Hm].
Qed.

Lemma marked_reduce scripts b r :
  marked (heap b r) -> marked (heap (snd (reduce u singlescript scripts b)) r).
Proof.
  revert b. induction scripts as [|s rest IH]; intros b Hm; [exact Hm|].
  rewrite reduce_cons. simpl. apply IH. now apply marked_turn.
Qed.

(** Every script that is routed to the forced uploads ends the batch with
    [forceUpload] set and [conflict] cleared. *)
Lemma forced_marked scripts b j rj :
  nth_error (fst (reduce u singlescript scripts b)) j = Some rj ->
  forcedValue (res_value rj) = true ->
  marked (heap (snd (reduce u singlescript scripts b)) (res_script rj)).
Proof.
  revert b j. induction scripts as [|s rest IH]; intros b j Hj Hf.
  - destruct j; discriminate.
  - rewrite reduce_cons in Hj |- *. simpl in Hj |- *.
    destruct j as [|j]; simpl in Hj.
    + injection Hj as <-. rewrite resolveScript_script.
      apply marked_reduce. rewrite resolveScript_heap, Hf.
      unfold assign. rewrite Nat.eqb_refl. split; reflexivity.
    + now apply (IH _ j).
Qed.

End Marks.

(** ** Keys without repetition *)

Lemma NoDup_map_injective {A B : Type} (f : A -> B) (l : list A) (x y : A) :
  NoDup (map f l) -> In x l -> In y l -> f x = f y -> x = y.
Proof.
  induction l as [|a l IH]; simpl; intros Hnd Hx Hy Hxy; [contradiction|].
  inversion Hnd as [|? ? Hnotin Hnd']; subst.
  destruct Hx as [<-|Hx], Hy as [<-|Hy]; auto.
  - exfalso. apply Hnotin. rewrite Hxy. now apply in_map.
  - exfalso. apply Hnotin. rewrite <- Hxy. now apply in_map.
Qed.

Lemma filter_exclusive_length {A : Type} (p q : A -> bool) (l : list A) :
  (forall x, p x = true -> q x = false) ->
  length (filter p l) + length (filter q l) <= length l.
Proof.
  intros Hpq. induction l as [|a l IH]; simpl; [lia|].
  destruct (p a) eqn:Hp.
  - rewrite (Hpq a Hp). simpl. lia.
  - destruct (q a); simpl; lia.
Qed.

Lemma noConflict_not_forced (value : option string) :
  noConflictValue value = true -> forcedValue value = false.
Proof.
  unfold noConflictValue. intros H. apply equals_true in H. now subst.
Qed.

Lemma remembered_none_dropped (r : Resolution) :
  remembered FORCE_UPLOAD_NONE r -> unresolved (res_record r) = true ->
  noConflictValue (res_value r) = false /\ forcedValue (res_value r) = false.
Proof. intros [_ Hv] Hu. rewrite Hv, Hu. split; reflexivity. Qed.

(** On an array without repeated objects, a script whose own turn pushed
    it nowhere is in neither result. *)
Lemma dropped_from_both u scripts st r :
  NoDup scripts ->
  In r (fst (runBatch u scripts st)) ->
  noConflictValue (res_value r) = false ->
  forcedValue (res_value r) = false ->
  ~ In (res_script r) (fst (fst (ensureForceUpload u scripts st))) /\
  ~ In (res_script r) (snd (fst (ensureForceUpload u scripts st))).
Proof.
  intros Hnd Hin Hnc Hf. unfold ensureForceUpload, runBatch in *. simpl.
  set (single := Nat.eqb 1 (length scripts)) in *.
  rewrite reduce_noConflictArr, reduce_forceUploadArr. simpl.
  pose proof (reduce_scripts u single scripts (startBatch st)) as Hs.
  rewrite <- Hs in Hnd.
  split; intros Hc; apply in_map_iff in Hc; destruct Hc as (e & He & Hc);
    apply filter_In in Hc; destruct Hc as [Hc Hp];
    assert (e = r) by (eapply NoDup_map_injective; eauto);
    subst e; congruence.
Qed.

Section Latches.

Variable u : User.
Variable singlescript : bool.

Lemma appliedAll_latches scripts b i ri :
  nth_error (fst (reduce u singlescript scripts b)) i = Some ri ->
  appliedAll (res_value ri) = true ->
  all (snd (reduce u singlescript scripts b)) = true.
Proof.
  revert b i. induction scripts as [|s rest IH]; intros b i Hi Ha.
  - destruct i; discriminate.
  - rewrite reduce_cons in Hi |- *. simpl in Hi |- *.
    destruct i as [|i]; simpl in Hi.
    + injection Hi as <-. apply reduce_all_monotone.
      now rewrite resolveScript_all, Ha, orb_true_r.
    + now apply (IH _ i).
Qed.

Lemma appliedNone_latches scripts b i ri :
  nth_error (fst (reduce u singlescript scripts b)) i = Some ri ->
  appliedNone (res_value ri) = true ->
  none (snd (reduce u singlescript scripts b)) = true.
Proof.
  revert b i. induction scripts as [|s rest IH]; intros b i Hi Ha.
  - destruct i; discriminate.
  - rewrite reduce_cons in Hi |- *. simpl in Hi |- *.
    destruct i as [|i]; simpl in Hi.
    + injection Hi as <-. apply reduce_none_monotone.
      now rewrite resolveScript_none, Ha, orb_true_r.
    + now apply (IH _ i).
Qed.

End Latches.

Lemma exclusive_start st : exclusive (startBatch st).
Proof. reflexivity. Qed.

Lemma In_noConflict u scripts st r :
  In r (fst (runBatch u scripts st)) ->
  noConflictValue (res_value r) = true ->
  In (res_script r) (fst (fst (ensureForceUpload u scripts st))).
Proof.
  intros Hin Hv. unfold ensureForceUpload, runBatch in *. simpl.
  rewrite reduce_noConflictArr. simpl.
  apply in_map, filter_In. now split.
Qed.

Lemma In_forceUpload u scripts st r :
  In r (fst (runBatch u scripts st)) ->
  forcedValue (res_value r) = true ->
  In (res_script r) (snd (fst (ensureForceUpload u scripts st))).
Proof.
  intros Hin Hv. unfold ensureForceUpload, runBatch in *. simpl.
  rewrite reduce_forceUploadArr. simpl.
  apply in_map, filter_In. now split.
Qed.

(** ** C2: after "Yes (remember my answer for this operation)" *)

(** C2 as stated fails.  In the batch of a script that changed on the
    server followed by a script that is in sync, the answer "Yes (remember
    my answer for this operation)" to the first prompt resolves the first
    script with [FORCE_UPLOAD_ALL]; the second script, later in the order,
    then resolves with [NO_CONFLICT] and lands in the first array, not among
    the forced uploads. *)
Lemma later_script_not_forced :
  map res_value (fst (runBatch (answering pickAll) [0; 1] twoScripts)) =
    [Some FORCE_UPLOAD_ALL; Some NO_CONFLICT] /\
  fst (ensureForceUpload (answering pickAll) [0; 1] twoScripts) = ([1], [0]) /\
  ~ laterAllForced (answering pickAll) [0; 1] twoScripts.
Proof.
  split; [|split]; try (vm_compute; reflexivity).
  intros H.
  destruct (H 0 1
              (mkResolution 0 (changedOnServer "a" "x") true (Some FORCE_UPLOAD_ALL))
              (mkResolution 1 (inSync "b" "y") false (Some NO_CONFLICT))
              eq_refl eq_refl (le_n 1) eq_refl) as [_ Hf].
  discriminate Hf.
Qed.

(** C2, amended.  Once the resolution of some script of a batch is
    [FORCE_UPLOAD_ALL], the [all] flag stays set to the end of the batch and
    no later script is prompted.  A later script that is unresolved at its
    turn ([conflict] set or no [lastSyncHash]) resolves with
    [FORCE_UPLOAD_ALL]: it is among the forced uploads and ends with
    [forceUpload = true] and [conflict = false].  A later script with
    [conflict] unset and a [lastSyncHash] resolves with [NO_CONFLICT] and is
    in the first array. *)
Theorem appliedAll_governs_later_scripts u scripts st i j ri rj :
  nth_error (fst (runBatch u scripts st)) i = Some ri ->
  nth_error (fst (runBatch u scripts st)) j = Some rj ->
  i < j ->
  res_value ri = Some FORCE_UPLOAD_ALL ->
  all (snd (runBatch u scripts st)) = true /\
  res_prompted rj = false /\
  (unresolved (res_record rj) = true ->
     res_value rj = Some FORCE_UPLOAD_ALL /\
     In (res_script rj) (snd (fst (ensureForceUpload u scripts st))) /\
     marked (snd (ensureForceUpload u scripts st) (res_script rj))) /\
  (unresolved (res_record rj) = false ->
     res_value rj = Some NO_CONFLICT /\
     In (res_script rj) (fst (fst (ensureForceUpload u scripts st)))).
Proof.
  intros Hi Hj Hlt Hv.
  assert (Ha : appliedAll (res_value ri) = true) by (now rewrite Hv).
  pose proof (nth_error_In _ _ Hj) as Hin.
  unfold runBatch in Hi, Hj.
  destruct (after_appliedAll _ _ _ _ _ _ _ _ Hi Hj Hlt Ha) as [Hp Hr].
  split; [|split; [exact Hp|split]].
  - exact (appliedAll_latches _ _ _ _ _ _ Hi Ha).
  - intros Hu. rewrite Hu in Hr. split; [exact Hr|split].
    + apply In_forceUpload; [exact Hin|now rewrite Hr].
    + apply (forced_marked _ _ _ _ _ _ Hj). now rewrite Hr.
  - intros Hu. rewrite Hu in Hr. split; [exact Hr|].
    apply In_noConflict; [exact Hin|now rewrite Hr].
Qed.

(** A batch of three: the first script changed on the server, the second
    was never synchronised, the third is in sync, and the first prompt is
    answered with "Yes (remember ...)".  The second script is forced
    without a prompt. *)
Lemma appliedAll_governs_later_scripts_witness :
  map res_prompted (fst (runBatch (answering pickAll) [0; 1; 2] threeScripts))
    = [true; false; false] /\
  In 1 (snd (fst (ensureForceUpload (answering pickAll) [0; 1; 2] threeScripts))) /\
  marked (snd (ensureForceUpload (answering pickAll) [0; 1; 2] threeScripts) 1).
Proof.
  destruct (appliedAll_governs_later_scripts (answering pickAll) [0; 1; 2]
              threeScripts 0 1
              (mkResolution 0 (changedOnServer "a" "x") true (Some FORCE_UPLOAD_ALL))
              (mkResolution 1 (neverSynced "b") false (Some FORCE_UPLOAD_ALL))
              eq_refl eq_refl (le_n 1) eq_refl) as (_ & _ & Hu & _).
  destruct (Hu eq_refl) as (_ & Hin & Hm).
  split; [reflexivity|split; assumption].
Defined.

(** ** C6: after "No (remember my answer for this operation)" *)

(** C6 as stated fails.  With the same two scripts, the answer "No
    (remember my answer for this operation)" to the first prompt latches
    [none]; the second script, later in the order, is not dropped: it
    resolves with [NO_CONFLICT] and is returned in the first array. *)
Lemma later_script_not_denied :
  map res_value (fst (runBatch (answering pickNone) [0; 1] twoScripts)) =
    [Some FORCE_UPLOAD_NONE; Some NO_CONFLICT] /\
  none (snd (runBatch (answering pickNone) [0; 1] twoScripts)) = true /\
  fst (ensureForceUpload (answering pickNone) [0; 1] twoScripts) = ([1], []) /\
  ~ laterAllDenied (answering pickNone) [0; 1] twoScripts.
Proof.
  split; [|split; [|split]]; try (vm_compute; reflexivity).
  intros H.
  destruct (H 0 1
              (mkResolution 0 (changedOnServer "a" "x") true (Some FORCE_UPLOAD_NONE))
              (mkResolution 1 (inSync "b" "y") false (Some NO_CONFLICT))
              eq_refl eq_refl (le_n 1) eq_refl) as (_ & Hn & _).
  apply Hn. vm_compute. auto.
Qed.

(** C6, amended.  Once the resolution of some script of a batch latches
    [none] (the value is none of [NO_CONFLICT], [FORCE_UPLOAD_ALL],
    [FORCE_UPLOAD_YES], [FORCE_UPLOAD_NO]), no later script is prompted.  A
    later script that is unresolved at its turn resolves with
    [FORCE_UPLOAD_NONE] and, in an array without repeated objects, is in
    neither result; a later script with [conflict] unset and a
    [lastSyncHash] resolves with [NO_CONFLICT] and is in the first array.
    Within a batch, a flag that is set after a prefix of the scripts is
    still set after any longer prefix. *)
Theorem appliedNone_governs_later_scripts u scripts st :
  (forall i j ri rj,
     nth_error (fst (runBatch u scripts st)) i = Some ri ->
     nth_error (fst (runBatch u scripts st)) j = Some rj ->
     i < j ->
     appliedNone (res_value ri) = true ->
     res_prompted rj = false /\
     (unresolved (res_record rj) = true ->
        res_value rj = Some FORCE_UPLOAD_NONE /\
        (NoDup scripts ->
           ~ In (res_script rj) (fst (fst (ensureForceUpload u scripts st))) /\
           ~ In (res_script rj) (snd (fst (ensureForceUpload u scripts st))))) /\
     (unresolved (res_record rj) = false ->
        res_value rj = Some NO_CONFLICT /\
        In (res_script rj) (fst (fst (ensureForceUpload u scripts st))))) /\
  (forall done rest,
     scripts = done ++ rest ->
     let single := Nat.eqb 1 (length scripts) in
     let before := snd (reduce u single done (startBatch st)) in
     let after := snd (runBatch u scripts st) in
     (all before = true -> all after = true) /\
     (none before = true -> none after = true)).
Proof.
  split.
  - intros i j ri rj Hi Hj Hlt Ha.
    pose proof (nth_error_In _ _ Hj) as Hin.
    unfold runBatch in Hi, Hj.
    pose proof (after_appliedNone _ _ _ _ _ _ _ _ (exclusive_start st)
                  Hi Hj Hlt Ha) as Hrem.
    destruct Hrem as [Hp Hr].
    split; [exact Hp|split].
    + intros Hu. split; [now rewrite Hu in Hr|].
      intros Hnd.
      destruct (remembered_none_dropped rj (conj Hp Hr) Hu) as [Hnc Hf].
      now apply dropped_from_both.
    + intros Hu. rewrite Hu in Hr. split; [exact Hr|].
      apply In_noConflict; [exact Hin|now rewrite Hr].
  - intros done rest -> single before after. subst before after.
    unfold runBatch. fold single. rewrite reduce_app. simpl.
    split; [apply reduce_all_monotone|apply reduce_none_monotone].
Qed.

(** The same three scripts, the first prompt answered with "No (remember
    ...)": the second script is denied without a prompt. *)
Lemma appliedNone_governs_later_scripts_witness :
  res_prompted (mkResolution 1 (neverSynced "b") false (Some FORCE_UPLOAD_NONE)) = false /\
  ~ In 1 (fst (fst (ensureForceUpload (answering pickNone) [0; 1; 2] threeScripts))) /\
  ~ In 1 (snd (fst (ensureForceUpload (answering pickNone) [0; 1; 2] threeScripts))).
Proof.
  destruct (appliedNone_governs_later_scripts (answering pickNone) [0; 1; 2]
              threeScripts) as [H _].
  destruct (H 0 1
              (mkResolution 0 (changedOnServer "a" "x") true (Some FORCE_UPLOAD_NONE))
              (mkResolution 1 (neverSynced "b") false (Some FORCE_UPLOAD_NONE))
              eq_refl eq_refl (le_n 1) eq_refl) as (Hp & Hu & _).
  split; [exact Hp|].
  destruct (Hu eq_refl) as [_ Hd].
  apply Hd. repeat constructor; simpl; intuition discriminate.
Defined.

(** ** Dismissing against answering "No (remember ...)" *)

Lemma route_dismissed b script :
  route b script None = route b script (Some FORCE_UPLOAD_NONE).
Proof. reflexivity. Qed.

Lemma resolveScript_insisting u single b s :
  snd (resolveScript (insisting u) single b s) = snd (resolveScript u single b s).
Proof.
  unfold resolveScript, askForUpload.
  destruct (JS.truthyB _ || negb _); [|reflexivity].
  destruct (all b); [reflexivity|]. destruct (none b); [reflexivity|].
  cbv zeta. cbn [snd]. unfold showQuickPick, insisting.
  destruct (u (prompts b) _ _) as [i|]; [reflexivity|].
  destruct single; cbn [negb nth_error]; [reflexivity|].
  now rewrite route_dismissed.
Qed.

Lemma reduce_insisting u single scripts b :
  snd (reduce (insisting u) single scripts b) = snd (reduce u single scripts b).
Proof.
  revert b. induction scripts as [|s rest IH]; intros b; [reflexivity|].
  rewrite !reduce_cons. cbn [snd].
  now rewrite resolveScript_insisting, IH.
Qed.

(** ** C9: the two arrays *)

(** C9 as stated fails for an array that holds the same object twice.  The
    script changed on the server and the prompt is answered "Yes": its first
    turn pushes it to the forced uploads and clears [conflict], so its second
    turn finds it in sync and pushes it to the first array as well. *)
Lemma repeated_script_in_both_arrays :
  fst (ensureForceUpload (answering pickYes) [0; 0] twoScripts) = ([0], [0]) /\
  ~ disjointArrays (answering pickYes) [0; 0] twoScripts.
Proof.
  split; [vm_compute; reflexivity|].
  intros H. apply (H 0); vm_compute; auto.
Qed.

(** C9, amended.  For every array of scripts, every element of either
    result is an element of the array and the two lengths add up to at most
    the length of the array; when no object occurs twice in the array, no
    script is in both results. *)
Theorem ensureForceUpload_arrays u scripts st :
  incl (fst (fst (ensureForceUpload u scripts st))) scripts /\
  incl (snd (fst (ensureForceUpload u scripts st))) scripts /\
  length (fst (fst (ensureForceUpload u scripts st)))
    + length (snd (fst (ensureForceUpload u scripts st))) <= length scripts /\
  (NoDup scripts ->
   forall r,
     In r (fst (fst (ensureForceUpload u scripts st))) ->
     In r (snd (fst (ensureForceUpload u scripts st))) -> False).
Proof.
  unfold ensureForceUpload, runBatch.
  generalize (Nat.eqb 1 (length scripts)). intros single. simpl.
  rewrite reduce_noConflictArr, reduce_forceUploadArr. simpl.
  pose proof (reduce_scripts u single scripts (startBatch st)) as Hs.
  pose proof (reduce_length u single scripts (startBatch st)) as Hl.
  set (rs := fst (reduce u single scripts (startBatch st))) in *.
  clearbody rs.
  split; [|split; [|split]].
  - intros r Hr. rewrite <- Hs. apply in_map_iff in Hr.
    destruct Hr as (e & <- & He). apply in_map.
    apply filter_In in He. exact (proj1 He).
  - intros r Hr. rewrite <- Hs. apply in_map_iff in Hr.
    destruct Hr as (e & <- & He). apply in_map.
    apply filter_In in He. exact (proj1 He).
  - rewrite !length_map, <- Hl.
    apply filter_exclusive_length.
    intros r. apply noConflict_not_forced.
  - intros Hnd r H1 H2. rewrite <- Hs in Hnd.
    apply in_map_iff in H1. destruct H1 as (e1 & He1 & H1).
    apply in_map_iff in H2. destruct H2 as (e2 & He2 & H2).
    apply filter_In in H1. destruct H1 as [H1 Hn].
    apply filter_In in H2. destruct H2 as [H2 Hf].
    assert (e1 = e2) by (eapply NoDup_map_injective; eauto; congruence).
    subst e2. apply noConflict_not_forced in Hn. congruence.
Qed.

(** Three distinct scripts: the second is in the forced uploads only. *)
Lemma ensureForceUpload_arrays_witness :
  NoDup [0; 1; 2] /\
  In 1 (snd (fst (ensureForceUpload (answering pickAll) [0; 1; 2] threeScripts))) /\
  ~ In 1 (fst (fst (ensureForceUpload (answering pickAll) [0; 1; 2] threeScripts))).
Proof.
  assert (Hnd : NoDup [0; 1; 2])
    by (repeat constructor; simpl; intuition discriminate).
  assert (Hin : In 1 (snd (fst (ensureForceUpload (answering pickAll) [0; 1; 2]
                                  threeScripts))))
    by (vm_compute; auto).
  split; [exact Hnd|split; [exact Hin|]].
  intros H.
  destruct (ensureForceUpload_arrays (answering pickAll) [0; 1; 2] threeScripts)
    as (_ & _ & _ & Hd).
  exact (Hd Hnd 1 H Hin).
Defined.

(** ** The annotation of exempt scripts *)

Section Exempt.

Variable forceUploadList : list string.

Lemma readScript_exempt hashValues server st s r :
  exempt forceUploadList (st r) = true ->
  readScript forceUploadList hashValues server st s r =
  if Nat.eqb r s then set_conflictMode (Some false) (st r) else st r.
Proof.
  unfold readScript, exempt, assign. intros He.
  destruct (JS.includes forceUploadList (name (st s))) eqn:Hs; cbv beta;
    destruct (Nat.eqb r s) eqn:Hrs; try reflexivity;
    apply Nat.eqb_eq in Hrs; subst s; [reflexivity|congruence].
Qed.

Lemma fold_readScript_exempt hashValues server pscripts st r :
  exempt forceUploadList (st r) = true ->
  fold_left (readScript forceUploadList hashValues server) pscripts st r =
  if existsb (Nat.eqb r) pscripts
  then set_conflictMode (Some false) (st r) else st r.
Proof.
  revert st. induction pscripts as [|s rest IH]; intros st He; [reflexivity|].
  simpl. pose proof (readScript_exempt hashValues server st s r He) as H1.
  rewrite IH; rewrite H1.
  - destruct (Nat.eqb r s); simpl; destruct (existsb (Nat.eqb r) rest);
      reflexivity.
  - now destruct (Nat.eqb r s).
Qed.

Lemma markConflictMode_exempt st s r :
  exempt forceUploadList (st r) = true ->
  markConflictMode forceUploadList st s r =
  if Nat.eqb r s then set_conflictMode (Some false) (st r) else st r.
Proof.
  unfold markConflictMode, exempt, assign. intros He.
  destruct (JS.includes forceUploadList (name (st s))) eqn:Hs; cbv beta;
    destruct (Nat.eqb r s) eqn:Hrs; try reflexivity;
    apply Nat.eqb_eq in Hrs; subst s; [reflexivity|congruence].
Qed.

Lemma fold_markConflictMode_exempt pscripts st r :
  exempt forceUploadList (st r) = true ->
  fold_left (markConflictMode forceUploadList) pscripts st r =
  if existsb (Nat.eqb r) pscripts
  then set_conflictMode (Some false) (st r) else st r.
Proof.
  revert st. induction pscripts as [|s rest IH]; intros st He; [reflexivity|].
  simpl. pose proof (markConflictMode_exempt st s r He) as H1.
  rewrite IH; rewrite H1.
  - destruct (Nat.eqb r s); simpl; destruct (existsb (Nat.eqb r) rest);
      reflexivity.
  - now destruct (Nat.eqb r s).
Qed.

End Exempt.

Lemma existsb_eqb_In (r : ref) (l : list ref) :
  In r l -> existsb (Nat.eqb r) l = true.
Proof.
  intros H. apply existsb_exists. exists r. split; [exact H|apply Nat.eqb_refl].
Qed.

(** [askForUpload] does not read [conflictMode]. *)
Lemma askForUpload_conflictMode m script all none single :
  askForUpload (set_conflictMode m script) all none single =
  askForUpload script all none single.
Proof. reflexivity. Qed.

Lemma askForUpload_NO_CONFLICT script all none single :
  askForUpload script all none single = Resolved NO_CONFLICT <->
  unresolved script = false.
Proof.
  unfold askForUpload, unresolved.
  destruct (JS.truthyB _ || negb _).
  - destruct all; [|destruct none]; split; discriminate.
  - split; reflexivity.
Qed.

Lemma askForUpload_isPrompt script all none single :
  isPrompt (askForUpload script all none single) =
  unresolved script && negb all && negb none.
Proof.
  unfold askForUpload, unresolved.
  destruct (JS.truthyB _ || negb _); [|reflexivity].
  destruct all; [reflexivity|]. destruct none; reflexivity.
Qed.

Lemma unresolved_false script :
  unresolved script = false <->
  JS.truthyB (conflict script) = false /\ JS.truthyS (lastSyncHash script) = true.
Proof.
  unfold unresolved. rewrite orb_false_iff, negb_false_iff. reflexivity.
Qed.

(** ** C1: exempt scripts *)

(** C1 as stated fails.  The script "a" is on the exemption list and the
    cache even holds a hash for it.  [readHashValues] marks it with
    [conflictMode = false] and gives it no [lastSyncHash]; [askForUpload]
    then shows the prompt for it. *)
Lemma exempt_script_is_prompted :
  snd (readHashValues [0] "srv" (workspaceWith (File "a@srv:h1") ["a"])
         (storeOf [neverSynced "a"])) 0 = exempted "a" /\
  askForUpload
    (snd (readHashValues [0] "srv" (workspaceWith (File "a@srv:h1") ["a"])
            (storeOf [neverSynced "a"])) 0) false false true =
  QuickPick [FORCE_UPLOAD_YES; FORCE_UPLOAD_NO]
    "a might have been changed on server, upload anyway?" /\
  ~ exemptAlwaysPass [0] "srv" (workspaceWith (File "a@srv:h1") ["a"])
      (storeOf [neverSynced "a"]).
Proof.
  split; [|split]; try (vm_compute; reflexivity).
  intros H.
  specialize (H ["a"] 0 false false true eq_refl (or_introl eq_refl) eq_refl).
  vm_compute in H. discriminate H.
Qed.

(** C1, amended.  For every script of the annotated array whose name is on
    the exemption list, [readHashValues] and [readConflictModes] set
    [conflictMode = false] and change nothing else of its record.
    [askForUpload] does not read [conflictMode]: it answers as it would
    have before the annotation, so the script gets [NO_CONFLICT] without a
    prompt exactly when its [conflict] is not set and it carries a
    [lastSyncHash], and a prompt exactly when it is unresolved and no flag
    is latched. *)
Theorem exempt_scripts_resolution pscripts server env st r exemptions :
  In r pscripts ->
  workspace env = true ->
  JS.truthyS (rootPath env) = true ->
  cacheFile env <> Unreadable ->
  confForceUpload env = ArrayOf exemptions ->
  exempt exemptions (st r) = true ->
  snd (readHashValues pscripts server env st) r =
    set_conflictMode (Some false) (st r) /\
  snd (readConflictModes pscripts env st) r =
    set_conflictMode (Some false) (st r) /\
  forall all none single,
    askForUpload (snd (readHashValues pscripts server env st) r) all none single =
      askForUpload (st r) all none single /\
    (askForUpload (snd (readHashValues pscripts server env st) r) all none single =
       Resolved NO_CONFLICT <->
     JS.truthyB (conflict (st r)) = false /\
     JS.truthyS (lastSyncHash (st r)) = true) /\
    isPrompt
      (askForUpload (snd (readHashValues pscripts server env st) r) all none single) =
      unresolved (st r) && negb all && negb none.
Proof.
  intros Hin Hw Hroot Hfile Hconf He.
  assert (H1 : snd (readHashValues pscripts server env st) r =
               set_conflictMode (Some false) (st r)).
  { unfold readHashValues. destruct pscripts as [|s rest]; [contradiction|].
    rewrite Hw, Hroot. simpl negb. simpl orb. cbv iota.
    destruct (cacheFile env) as [| |content] eqn:Hc; [|congruence|];
      cbn [confForceUpload writeFileSync]; rewrite Hconf; cbn [snd];
      rewrite (fold_readScript_exempt exemptions _ server (s :: rest) st r He);
      now rewrite (existsb_eqb_In r (s :: rest) Hin). }
  split; [exact H1|split].
  - unfold readConflictModes. destruct pscripts as [|s rest]; [contradiction|].
    rewrite Hw, Hconf. simpl.
    rewrite (fold_markConflictMode_exempt exemptions rest _ r).
    + pose proof (markConflictMode_exempt exemptions st s r He) as H2.
      rewrite H2. simpl in Hin.
      destruct (Nat.eqb r s) eqn:Hrs.
      * now destruct (existsb (Nat.eqb r) rest).
      * destruct Hin as [->|Hin]; [now rewrite Nat.eqb_refl in Hrs|].
        now rewrite (existsb_eqb_In r rest Hin).
    + rewrite (markConflictMode_exempt exemptions st s r He).
      now destruct (Nat.eqb r s).
  - intros all none single. rewrite H1, askForUpload_conflictMode.
    split; [reflexivity|split].
    + rewrite askForUpload_NO_CONFLICT. apply unresolved_false.
    + apply askForUpload_isPrompt.
Qed.

(** The exempt script "a" with a hash and no conflict passes without a
    prompt. *)
Lemma exempt_scripts_resolution_witness :
  snd (readHashValues [0] "srv" (workspaceWith (File "a@srv:h1") ["a"])
         (storeOf [inSync "a" "h0"])) 0 =
  set_conflictMode (Some false) (inSync "a" "h0").
Proof.
  apply (exempt_scripts_resolution [0] "srv"
           (workspaceWith (File "a@srv:h1") ["a"]) (storeOf [inSync "a" "h0"])
           0 ["a"]).
  - left. reflexivity.
  - reflexivity.
  - reflexivity.
  - discriminate.
  - reflexivity.
  - reflexivity.
Defined.

(** ** C5: when askForUpload prompts *)

(** C5 as stated fails.  The script "a" is not exempt and has no
    [lastSyncHash], but with [all] latched [askForUpload] resolves
    [FORCE_UPLOAD_ALL] at once and shows no prompt. *)
Lemma no_prompt_once_latched :
  conflictMode (neverSynced "a") = None /\
  lastSyncHash (neverSynced "a") = None /\
  askForUpload (neverSynced "a") true false false = Resolved FORCE_UPLOAD_ALL /\
  askForUpload (neverSynced "a") false true false = Resolved FORCE_UPLOAD_NONE /\
  ~ alwaysPrompts (neverSynced "a").
Proof.
  repeat split. intros H.
  specialize (H ltac:(discriminate) eq_refl true false false).
  discriminate H.
Qed.

(** C5, amended.  [askForUpload] resolves [NO_CONFLICT] without a prompt
    exactly when [conflict] is not set and [lastSyncHash] is present (a
    string that is not empty).  It shows a prompt exactly when the script is
    unresolved and neither flag is latched: a script with no [lastSyncHash]
    is prompted for when both flags are false, and gets the remembered
    answer without a prompt when [all] or [none] is set. *)
Theorem askForUpload_decision script all none single :
  (askForUpload script all none single = Resolved NO_CONFLICT <->
   JS.truthyB (conflict script) = false /\
   JS.truthyS (lastSyncHash script) = true) /\
  isPrompt (askForUpload script all none single) =
    unresolved script && negb all && negb none /\
  (JS.truthyS (lastSyncHash script) = false ->
   isPrompt (askForUpload script all none single) = negb all && negb none) /\
  (JS.truthyS (lastSyncHash script) = false -> all = true ->
   askForUpload script all none single = Resolved FORCE_UPLOAD_ALL) /\
  (JS.truthyS (lastSyncHash script) = false -> all = false -> none = true ->
   askForUpload script all none single = Resolved FORCE_UPLOAD_NONE).
Proof.
  split; [|split; [|split; [|split]]].
  - rewrite askForUpload_NO_CONFLICT. apply unresolved_false.
  - apply askForUpload_isPrompt.
  - intros Hh. rewrite askForUpload_isPrompt. unfold unresolved.
    now rewrite Hh, orb_true_r.
  - intros Hh ->. unfold askForUpload. now rewrite Hh, orb_true_r.
  - intros Hh -> ->. unfold askForUpload. now rewrite Hh, orb_true_r.
Qed.

(** A script without [lastSyncHash], both flags clear: the prompt. *)
Lemma askForUpload_decision_witness :
  isPrompt (askForUpload (neverSynced "a") false false false) = true.
Proof.
  destruct (askForUpload_decision (neverSynced "a") false false false)
    as (_ & _ & H & _).
  exact (H eq_refl).
Defined.

(** ** Facts about split, join and trim *)

Module JSFacts.

Import JS.

Lemma every_app p s1 s2 :
  every p (s1 ++ s2)%string = every p s1 && every p s2.
Proof.
  induction s1 as [|c r IH]; simpl; [reflexivity|].
  now rewrite IH, andb_assoc.
Qed.

Lemma every_impl (p q : ascii -> bool) s :
  (forall c, p c = true -> q c = true) -> every p s = true -> every q s = true.
Proof.
  intros Hpq. induction s as [|c r IH]; simpl; [reflexivity|].
  intros H. apply andb_prop in H. destruct H as [Hc Hr].
  now rewrite (Hpq c Hc), IH.
Qed.

Lemma plain_dense s : plain s = true -> dense s = true.
Proof.
  apply every_impl. intros c H. apply andb_prop in H. tauto.
Qed.

Lemma plain_colon s : plain s = true -> every (isnt COLON) s = true.
Proof.
  apply every_impl. intros c H. apply andb_prop in H. tauto.
Qed.

Lemma dense_LF s : dense s = true -> every (isnt LF) s = true.
Proof.
  apply every_impl. intros c H.
  unfold isnt. destruct (Ascii.eqb c LF) eqn:E; [|reflexivity].
  apply Ascii.eqb_eq in E. subst c. discriminate.
Qed.

(** *** split *)

Lemma split_not_nil sep s : split sep s <> [].
Proof.
  destruct s as [|c r]; simpl; [discriminate|].
  destruct (Ascii.eqb c sep); [discriminate|].
  destruct (split sep r); discriminate.
Qed.

Lemma split_every sep s : every (isnt sep) s = true -> split sep s = [s].
Proof.
  induction s as [|c r IH]; simpl; [reflexivity|].
  unfold isnt at 1. intros H. apply andb_prop in H. destruct H as [Hc Hr].
  apply negb_true_iff in Hc. rewrite Hc, (IH Hr). reflexivity.
Qed.

Lemma split_app sep s1 s2 :
  every (isnt sep) s1 = true ->
  split sep (s1 ++ String sep s2)%string = s1 :: split sep s2.
Proof.
  induction s1 as [|c r IH]; simpl.
  - intros _. now rewrite Ascii.eqb_refl.
  - unfold isnt at 1. intros H. apply andb_prop in H. destruct H as [Hc Hr].
    apply negb_true_iff in Hc. rewrite Hc, (IH Hr). reflexivity.
Qed.

Lemma split_fields sep s : Forall (fun f => every (isnt sep) f = true) (split sep s).
Proof.
  induction s as [|c r IH]; simpl; [repeat constructor|].
  destruct (Ascii.eqb c sep) eqn:E; [constructor; [reflexivity|exact IH]|].
  destruct (split sep r) as [|f fs]; [repeat constructor; simpl|].
  - unfold isnt. now rewrite E.
  - inversion IH; subst. constructor; [|assumption].
    simpl. unfold isnt at 1. now rewrite E.
Qed.

Lemma join_cons sep x y rest :
  join sep (x :: y :: rest) = (x ++ sep ++ join sep (y :: rest))%string.
Proof. reflexivity. Qed.

Lemma join_split sep s : join (String sep EmptyString) (split sep s) = s.
Proof.
  induction s as [|c r IH]; simpl; [reflexivity|].
  destruct (Ascii.eqb c sep) eqn:E.
  - apply Ascii.eqb_eq in E. subst c.
    pose proof (split_not_nil sep r) as Hn.
    destruct (split sep r) as [|f fs]; [contradiction|].
    rewrite join_cons, IH. reflexivity.
  - pose proof (split_not_nil sep r) as Hn.
    destruct (split sep r) as [|f fs]; [contradiction|].
    destruct fs as [|g gs].
    + simpl in IH |- *. now rewrite IH.
    + rewrite join_cons in IH |- *. rewrite <- IH. reflexivity.
Qed.

Lemma split_join sep l :
  l <> [] ->
  Forall (fun f => every (isnt sep) f = true) l ->
  split sep (join (String sep EmptyString) l) = l.
Proof.
  induction l as [|x rest IH]; intros Hn HF; [contradiction|].
  inversion HF as [|? ? Hx Hrest]; subst.
  destruct rest as [|y rest'].
  - simpl. now apply split_every.
  - rewrite join_cons.
    change (String sep EmptyString ++ join (String sep EmptyString) (y :: rest'))%string
      with (String sep (join (String sep EmptyString) (y :: rest'))).
    rewrite split_app by assumption.
    rewrite IH; [reflexivity|discriminate|assumption].
Qed.

(** *** trim *)

Lemma trimStart_tight s : tightStart s = true -> trimStart s = s.
Proof.
  destruct s as [|c r]; simpl; [discriminate|].
  intros H. apply negb_true_iff in H. now rewrite H.
Qed.

Lemma trimStart_result s :
  trimStart s = EmptyString \/ tightStart (trimStart s) = true.
Proof.
  induction s as [|c r IH]; simpl; [now left|].
  destruct (isWhiteSpace c) eqn:E; [exact IH|].
  right. simpl. now rewrite E.
Qed.

Lemma tightEnd_cons c r :
  r <> EmptyString -> tightEnd (String c r) = tightEnd r.
Proof. destruct r; [contradiction|reflexivity]. Qed.

Lemma tightEnd_not_empty s : tightEnd s = true -> s <> EmptyString.
Proof. destruct s; [discriminate|discriminate]. Qed.

Lemma trimEnd_tight s : tightEnd s = true -> trimEnd s = s.
Proof.
  induction s as [|c r IH]; [discriminate|].
  destruct r as [|d r'].
  - simpl. intros H. apply negb_true_iff in H. now rewrite H.
  - intros H. rewrite tightEnd_cons in H by discriminate.
    change (trimEnd (String c (String d r'))) with
      (match trimEnd (String d r') with
       | EmptyString => if isWhiteSpace c then EmptyString else String c EmptyString
       | r0 => String c r0
       end).
    now rewrite (IH H).
Qed.

Lemma trimEnd_result s :
  trimEnd s = EmptyString \/ tightEnd (trimEnd s) = true.
Proof.
  induction s as [|c r IH]; [now left|].
  simpl. destruct (trimEnd r) as [|d r'] eqn:E.
  - destruct (isWhiteSpace c) eqn:Ec; [now left|right; simpl; now rewrite Ec].
  - right. destruct IH as [IH|IH]; [discriminate|].
    now rewrite tightEnd_cons by discriminate.
Qed.

Lemma trimEnd_tightStart s :
  tightStart s = true -> tightStart (trimEnd s) = true.
Proof.
  destruct s as [|c r]; [discriminate|].
  simpl. intros H. destruct (trimEnd r).
  - apply negb_true_iff in H. rewrite H. simpl. now rewrite H.
  - exact H.
Qed.

(** A trimmed text is empty, or tight at both ends. *)
Lemma trim_result s :
  trim s = EmptyString \/
  (tightStart (trim s) = true /\ tightEnd (trim s) = true).
Proof.
  unfold trim. destruct (trimStart_result s) as [H|H].
  - left. now rewrite H.
  - destruct (trimEnd_result (trimStart s)) as [H'|H']; [now left|right].
    split; [now apply trimEnd_tightStart|exact H'].
Qed.

Lemma trim_tight s : tightStart s = true -> tightEnd s = true -> trim s = s.
Proof.
  intros H1 H2. unfold trim. rewrite (trimStart_tight s H1).
  now apply trimEnd_tight.
Qed.

Lemma trim_idempotent s : trim (trim s) = trim s.
Proof.
  destruct (trim_result s) as [H|[H1 H2]].
  - rewrite H. reflexivity.
  - now apply trim_tight.
Qed.

Lemma tightStart_app s1 s2 :
  tightStart s1 = true -> tightStart (s1 ++ s2)%string = true.
Proof. destruct s1; [discriminate|exact (fun H => H)]. Qed.

Lemma tightEnd_app s1 s2 :
  tightEnd s2 = true -> tightEnd (s1 ++ s2)%string = true.
Proof.
  intros H. induction s1 as [|c r IH]; [exact H|].
  simpl append. rewrite tightEnd_cons; [exact IH|].
  destruct r; simpl; [now apply tightEnd_not_empty|discriminate].
Qed.

Lemma dense_tightStart s :
  s <> EmptyString -> dense s = true -> tightStart s = true.
Proof.
  destruct s as [|c r]; [contradiction|].
  simpl. intros _ H. apply andb_prop in H. tauto.
Qed.

Lemma dense_tightEnd s :
  s <> EmptyString -> dense s = true -> tightEnd s = true.
Proof.
  induction s as [|c r IH]; [contradiction|].
  intros _ H. simpl in H. apply andb_prop in H. destruct H as [Hc Hr].
  destruct r as [|d r']; [exact Hc|].
  rewrite tightEnd_cons by discriminate. apply IH; [discriminate|exact Hr].
Qed.

(** Trimming a text that begins with a line feed. *)
Lemma trim_LF s : trim (String LF s) = trim s.
Proof. reflexivity. Qed.

(** *** Lines *)

Lemma tightStart_hd_split s :
  tightStart s = true -> tightStart (hd EmptyString (split LF s)) = true.
Proof.
  destruct s as [|c r]; [discriminate|].
  simpl. intros H.
  destruct (Ascii.eqb c LF) eqn:E.
  - apply Ascii.eqb_eq in E. subst c. discriminate.
  - destruct (split LF r); exact H.
Qed.

Lemma tightEnd_last_split s :
  tightEnd s = true -> tightEnd (last (split LF s) EmptyString) = true.
Proof.
  induction s as [|c r IH]; [discriminate|].
  destruct r as [|d r'].
  - simpl. intros H. destruct (Ascii.eqb c LF) eqn:E.
    + apply Ascii.eqb_eq in E. subst c. discriminate.
    + exact H.
  - intros H. rewrite tightEnd_cons in H by discriminate.
    specialize (IH H).
    pose proof (split_not_nil LF (String d r')) as Hn.
    change (split LF (String c (String d r'))) with
      (if Ascii.eqb c LF then EmptyString :: split LF (String d r')
       else match split LF (String d r') with
            | f :: fs => String c f :: fs
            | [] => [String c EmptyString]
            end).
    destruct (split LF (String d r')) as [|f fs]; [contradiction|].
    destruct (Ascii.eqb c LF).
    + exact IH.
    + destruct fs as [|g gs]; [|exact IH].
      change (tightEnd f = true) in IH.
      change (tightEnd (String c f) = true).
      rewrite tightEnd_cons; [exact IH|].
      now apply tightEnd_not_empty.
Qed.

Lemma tightStart_join sep x rest :
  tightStart x = true -> tightStart (join sep (x :: rest)) = true.
Proof.
  intros H. destruct rest; [exact H|].
  rewrite join_cons. now apply tightStart_app.
Qed.

Lemma tightEnd_join sep l :
  l <> [] ->
  tightEnd (last l EmptyString) = true -> tightEnd (join sep l) = true.
Proof.
  induction l as [|x rest IH]; intros Hn H; [contradiction|].
  destruct rest as [|y rest']; [exact H|].
  rewrite join_cons. do 2 apply tightEnd_app.
  apply IH; [discriminate|exact H].
Qed.

End JSFacts.

(** ** Reading the cache *)

Section Reading.

Variable exemptions : list string.
Variable hashValues : list string.
Variable server : string.

Lemma linesOf_app key l1 l2 :
  linesOf key (l1 ++ l2) = linesOf key l1 ++ linesOf key l2.
Proof. apply filter_app. Qed.

Lemma cached_snoc key hv value :
  cached key (hv ++ [value]) =
  if String.eqb (scriptpart value) key then Some value else cached key hv.
Proof.
  unfold cached. rewrite linesOf_app. simpl.
  destruct (String.eqb (scriptpart value) key).
  - now rewrite rev_app_distr.
  - now rewrite app_nil_r.
Qed.

(** The inner [forEach] leaves the hash of the last line of the identity. *)
Lemma fold_readLine key hv script :
  fold_left (readLine key) hv script = lookup key hv script.
Proof.
  induction hv as [|value hv' IH] using rev_ind; [reflexivity|].
  rewrite fold_left_app. simpl. rewrite IH.
  unfold lookup, readLine. rewrite cached_snoc.
  destruct (String.eqb (scriptpart value) key); [|reflexivity].
  now destruct (cached key hv').
Qed.

Lemma lookup_name key hv script : name (lookup key hv script) = name script.
Proof. unfold lookup. now destruct (cached key hv). Qed.

Lemma lookup_idempotent key hv script :
  lookup key hv (lookup key hv script) = lookup key hv script.
Proof. unfold lookup. now destruct (cached key hv). Qed.

Lemma readScript_other st s r :
  exempt exemptions (st r) = false ->
  readScript exemptions hashValues server st s r =
  if Nat.eqb r s
  then lookup (scriptAtServer (st r) server) hashValues (st r)
  else st r.
Proof.
  unfold readScript, exempt, assign. intros He.
  destruct (JS.includes exemptions (name (st s))) eqn:Hs; cbv beta;
    destruct (Nat.eqb r s) eqn:Hrs; try reflexivity;
    apply Nat.eqb_eq in Hrs; subst s; [congruence|apply fold_readLine].
Qed.

Lemma fold_readScript_other pscripts st r :
  exempt exemptions (st r) = false ->
  fold_left (readScript exemptions hashValues server) pscripts st r =
  if existsb (Nat.eqb r) pscripts
  then lookup (scriptAtServer (st r) server) hashValues (st r)
  else st r.
Proof.
  revert st. induction pscripts as [|s rest IH]; intros st He; [reflexivity|].
  simpl. pose proof (readScript_other st s r He) as H1.
  rewrite IH; rewrite H1.
  - destruct (Nat.eqb r s); simpl; destruct (existsb (Nat.eqb r) rest);
      try reflexivity.
    unfold scriptAtServer. rewrite lookup_name. apply lookup_idempotent.
  - destruct (Nat.eqb r s); [|exact He].
    unfold exempt in *. now rewrite lookup_name.
Qed.

End Reading.

Lemma readHashValues_lookup pscripts server env st r exemptions content :
  cacheReady env exemptions content ->
  In r pscripts ->
  exempt exemptions (st r) = false ->
  snd (readHashValues pscripts server env st) r =
  lookup (scriptAtServer (st r) server) (lines content) (st r).
Proof.
  intros (Hw & Hroot & Hfile & Hconf) Hin He.
  unfold readHashValues. destruct pscripts as [|s rest]; [contradiction|].
  rewrite Hw, Hroot, Hfile. simpl negb. simpl orb. cbv iota.
  rewrite Hconf. cbn [snd].
  rewrite (fold_readScript_other exemptions _ server (s :: rest) st r He).
  now rewrite (existsb_eqb_In r (s :: rest) Hin).
Qed.

(** The fields of a line. *)
Lemma scriptpart_line key rest :
  JS.every (JS.isnt JS.COLON) key = true ->
  scriptpart (key ++ String JS.COLON rest)%string = key.
Proof.
  intros Hk. unfold scriptpart. now rewrite JSFacts.split_app.
Qed.

Lemma hashpart_line key hash :
  JS.every (JS.isnt JS.COLON) key = true ->
  JS.every (JS.isnt JS.COLON) hash = true ->
  hashpart (key ++ String JS.COLON hash)%string = Some hash.
Proof.
  intros Hk Hh. unfold hashpart.
  rewrite JSFacts.split_app by assumption.
  now rewrite JSFacts.split_every.
Qed.

Lemma hashpart_truncated key hash rest :
  JS.every (JS.isnt JS.COLON) key = true ->
  JS.every (JS.isnt JS.COLON) hash = true ->
  hashpart (key ++ String JS.COLON (hash ++ String JS.COLON rest))%string = Some hash.
Proof.
  intros Hk Hh. unfold hashpart.
  now rewrite !JSFacts.split_app by assumption.
Qed.

Lemma cached_last key before value after :
  String.eqb (scriptpart value) key = true ->
  linesOf key after = [] ->
  cached key (before ++ value :: after) = Some value.
Proof.
  intros Hv Ha. unfold cached.
  rewrite linesOf_app. simpl. rewrite Hv, Ha.
  now rewrite rev_app_distr.
Qed.

(** ** C10: how a cache line is parsed *)

(** C10.  For a script of the array that is not exempt, [readHashValues]
    takes the last line of the cache whose first field (the text before the
    first colon) is [name@server], and sets [lastSyncHash] to the second
    field of the split of that line on colons, whatever lines of the same
    identity come before it.  The second field is the text between the
    first and the second colon, so a stored hash that contains a colon is
    read back cut at that colon; with a single colon in the line it is
    the text after it. *)
Theorem readHashValues_parses_lines
    pscripts server env st r exemptions content before value after :
  cacheReady env exemptions content ->
  In r pscripts ->
  exempt exemptions (st r) = false ->
  lines content = before ++ value :: after ->
  scriptpart value = scriptAtServer (st r) server ->
  linesOf (scriptAtServer (st r) server) after = [] ->
  lastSyncHash (snd (readHashValues pscripts server env st) r) =
    nth_error (JS.split JS.COLON value) 1 /\
  (forall key hash rest,
     value = (key ++ ":" ++ hash ++ ":" ++ rest)%string ->
     JS.every (JS.isnt JS.COLON) key = true ->
     JS.every (JS.isnt JS.COLON) hash = true ->
     lastSyncHash (snd (readHashValues pscripts server env st) r) = Some hash) /\
  (forall key hash,
     value = (key ++ ":" ++ hash)%string ->
     JS.every (JS.isnt JS.COLON) key = true ->
     JS.every (JS.isnt JS.COLON) hash = true ->
     lastSyncHash (snd (readHashValues pscripts server env st) r) = Some hash).
Proof.
  intros Hready Hin He Hlines Hkey Hafter.
  assert (H : lastSyncHash (snd (readHashValues pscripts server env st) r) =
              hashpart value).
  { rewrite (readHashValues_lookup _ _ _ _ _ _ _ Hready Hin He).
    unfold lookup. rewrite Hlines, (cached_last _ before value after); auto.
    now apply String.eqb_eq. }
  split; [exact H|split].
  - intros key hash rest -> Hk Hh. rewrite H.
    now apply hashpart_truncated.
  - intros key hash -> Hk Hh. rewrite H.
    now apply hashpart_line.
Qed.

(** Two lines of the identity "a@srv", both with a colon in the stored
    hash: the script gets "12", the second field of the last line. *)
Lemma readHashValues_parses_lines_witness :
  lastSyncHash
    (snd (readHashValues [0] "srv"
            (workspaceWith (File ("a@srv:ab:cd" ++ newline ++ "a@srv:12:34")) [])
            (storeOf [neverSynced "a"])) 0) = Some "12".
Proof.
  destruct (readHashValues_parses_lines [0] "srv"
              (workspaceWith (File ("a@srv:ab:cd" ++ newline ++ "a@srv:12:34")) [])
              (storeOf [neverSynced "a"]) 0 [] 
              ("a@srv:ab:cd" ++ newline ++ "a@srv:12:34")
              ["a@srv:ab:cd"] "a@srv:12:34" [])
    as (_ & H & _).
  - repeat split.
  - left. reflexivity.
  - reflexivity.
  - reflexivity.
  - reflexivity.
  - reflexivity.
  - apply (H "a@srv" "12" "34"); reflexivity.
Defined.

(** ** Writing the cache *)

Section Writing.

Variable exemptions : list string.
Variable server : string.
Variable st : Store.

Lemma searchEntry_map key entry hv :
  searchEntry key entry hv =
  (map (overwrite key entry) hv,
   existsb (fun value => String.eqb (scriptpart value) key) hv).
Proof.
  induction hv as [|value rest IH]; [reflexivity|].
  simpl. rewrite IH. unfold overwrite.
  now destruct (String.eqb (scriptpart value) key).
Qed.

Lemma map_untouched key entry hv :
  existsb (fun value => String.eqb (scriptpart value) key) hv = false ->
  map (overwrite key entry) hv = hv.
Proof.
  induction hv as [|value rest IH]; [reflexivity|].
  simpl. intros H. apply orb_false_iff in H. destruct H as [Hv Hr].
  unfold overwrite at 1. now rewrite Hv, (IH Hr).
Qed.

(** For a script that is recorded, the callback is the merge of its
    entry. *)
Lemma writeScript_merge hv r :
  recorded exemptions (st r) = true ->
  writeScript exemptions server st hv r =
  merge (scriptAtServer (st r) server) (entryOf (st r) server) hv.
Proof.
  unfold writeScript, recorded, exempt, merge, entryOf. intros ->.
  rewrite searchEntry_map.
  destruct (existsb _ hv) eqn:E; simpl; [reflexivity|].
  now rewrite map_untouched.
Qed.

(** For any other script it does nothing. *)
Lemma writeScript_skip hv r :
  recorded exemptions (st r) = false ->
  writeScript exemptions server st hv r = hv.
Proof. unfold writeScript, recorded, exempt. now intros ->. Qed.

Lemma fold_writeScript_filter pscripts hv :
  fold_left (writeScript exemptions server st) pscripts hv =
  fold_left (writeScript exemptions server st)
    (filter (fun r => recorded exemptions (st r)) pscripts) hv.
Proof.
  revert hv. induction pscripts as [|r rest IH]; intros hv; [reflexivity|].
  simpl. destruct (recorded exemptions (st r)) eqn:E.
  - simpl. apply IH.
  - rewrite (writeScript_skip hv r E). apply IH.
Qed.

Lemma In_merge key entry hv value :
  In value (merge key entry hv) -> In value hv \/ value = entry.
Proof.
  unfold merge. destruct (existsb _ hv).
  - intros H. apply in_map_iff in H. destruct H as (v & Hv & Hin).
    unfold overwrite in Hv.
    destruct (String.eqb (scriptpart v) key); subst; auto.
  - intros H. apply in_app_or in H. destruct H as [H|[H|[]]]; auto.
Qed.

Lemma In_fold_writeScript pscripts hv value :
  In value (fold_left (writeScript exemptions server st) pscripts hv) ->
  In value hv \/
  exists r, In r pscripts /\ recorded exemptions (st r) = true /\
            value = entryOf (st r) server.
Proof.
  revert hv. induction pscripts as [|r rest IH]; intros hv H; [now left|].
  simpl in H. apply IH in H. destruct H as [H|(r' & Hr' & Hrec & Hv)].
  - destruct (recorded exemptions (st r)) eqn:E.
    + rewrite (writeScript_merge hv r E) in H. apply In_merge in H.
      destruct H as [H|H]; [now left|].
      right. exists r. repeat split; auto. now left.
    + rewrite (writeScript_skip hv r E) in H. now left.
  - right. exists r'. repeat split; auto. now right.
Qed.

End Writing.

Lemma updateHashValues_written pscripts server env st exemptions content :
  cacheReady env exemptions content ->
  pscripts <> [] ->
  updateHashValues pscripts server env st =
  writeFile
    (JS.trim (JS.join newline
       (fold_left (writeScript exemptions server st) pscripts (lines content))))
    env.
Proof.
  intros (Hw & Hroot & Hfile & Hconf) Hne.
  unfold updateHashValues. destruct pscripts as [|s rest]; [contradiction|].
  now rewrite Hw, Hroot, Hfile, Hconf.
Qed.

Lemma trim_join_lines content :
  JS.trim (JS.join newline (lines content)) = JS.trim content.
Proof.
  unfold lines, newline. rewrite JSFacts.join_split.
  apply JSFacts.trim_idempotent.
Qed.

Lemma recorded_false exemptions script :
  JS.includes exemptions (name script) = true \/ conflict script = Some true ->
  recorded exemptions script = false.
Proof.
  unfold recorded, exempt. intros [->| ->]; [reflexivity|].
  simpl. apply andb_false_r.
Qed.

Lemma recorded_true exemptions script :
  recorded exemptions script = true ->
  JS.includes exemptions (name script) = false /\ conflict script <> Some true.
Proof.
  unfold recorded, exempt. intros H. apply andb_prop in H. destruct H as [H1 H2].
  apply negb_true_iff in H1, H2. split; [exact H1|].
  intros Hc. rewrite Hc in H2. discriminate.
Qed.

(** ** C8: which scripts get an entry *)

(** C8.  When [updateHashValues] gets as far as the cache, the lines it
    writes are the lines it read with the entries of the scripts of the
    array merged in, one script after the other, and only the scripts whose
    name is not on the exemption list and whose [conflict] is not [true]
    take part: leaving all others out of the array changes nothing, every
    line written is a line that was read or the entry of such a script, and
    when every script of the array is exempt or still in conflict (with or
    without a [lastSyncHash]) the lines are written back as they were
    read. *)
Theorem updateHashValues_records_only pscripts server env st exemptions content :
  cacheReady env exemptions content ->
  pscripts <> [] ->
  cacheFile (updateHashValues pscripts server env st) =
    File (JS.trim (JS.join newline
            (fold_left (writeScript exemptions server st) pscripts (lines content)))) /\
  fold_left (writeScript exemptions server st) pscripts (lines content) =
    fold_left (writeScript exemptions server st)
      (filter (fun r => negb (JS.includes exemptions (name (st r)))
                        && negb (JS.truthyB (conflict (st r)))) pscripts)
      (lines content) /\
  (forall value,
     In value (fold_left (writeScript exemptions server st) pscripts (lines content)) ->
     In value (lines content) \/
     exists r, In r pscripts /\
               JS.includes exemptions (name (st r)) = false /\
               conflict (st r) <> Some true /\
               value = (name (st r) ++ "@" ++ server ++ ":"
                          ++ JS.toString (lastSyncHash (st r)))%string) /\
  ((forall r, In r pscripts ->
      JS.includes exemptions (name (st r)) = true \/ conflict (st r) = Some true) ->
   fold_left (writeScript exemptions server st) pscripts (lines content) =
     lines content /\
   cacheFile (updateHashValues pscripts server env st) = File (JS.trim content)).
Proof.
  intros Hready Hne.
  rewrite (updateHashValues_written _ _ _ _ _ _ Hready Hne).
  split; [reflexivity|split; [|split]].
  - apply fold_writeScript_filter.
  - intros value H. apply In_fold_writeScript in H.
    destruct H as [H|(r & Hr & Hrec & Hv)]; [now left|right].
    exists r. destruct (recorded_true _ _ Hrec) as [H1 H2].
    repeat split; auto. subst value. unfold entryOf, scriptAtServer.
    clear. induction (name (st r)) as [|c n IH]; [reflexivity|].
    simpl. f_equal. exact IH.
  - intros Hall.
    assert (H : fold_left (writeScript exemptions server st) pscripts (lines content)
                = lines content).
    { rewrite fold_writeScript_filter.
      replace (filter (fun r => recorded exemptions (st r)) pscripts) with (@nil ref);
        [reflexivity|].
      symmetry. clear Hne. induction pscripts as [|r rest IH]; [reflexivity|].
      simpl. rewrite (recorded_false _ _ (Hall r (or_introl eq_refl))).
      apply IH. intros r' Hr'. apply Hall. now right. }
    split; [exact H|]. simpl. rewrite H. f_equal. apply trim_join_lines.
Qed.

(** Three scripts against a cache that holds "a@srv:h0": "a" is still in
    conflict and carries a hash, "b" is exempt, and the cache is written
    back as it was. *)
Lemma updateHashValues_records_only_witness :
  cacheFile
    (updateHashValues [0; 1] "srv" (workspaceWith (File "a@srv:h0") ["b"])
       (storeOf [changedOnServer "a" "h1"; inSync "b" "h2"])) =
  File "a@srv:h0".
Proof.
  destruct (updateHashValues_records_only [0; 1] "srv"
              (workspaceWith (File "a@srv:h0") ["b"])
              (storeOf [changedOnServer "a" "h1"; inSync "b" "h2"])
              ["b"] "a@srv:h0") as (_ & _ & _ & H).
  - repeat split.
  - discriminate.
  - apply H. intros r [<-|[<-|[]]]; [right|left]; reflexivity.
Defined.

(** ** Entries that fit the line format *)

Section Entry.

Variable script : scriptT.
Variable server : string.
Hypothesis Hfit : fitsFormat script server.

Lemma key_not_empty : scriptAtServer script server <> EmptyString.
Proof. unfold scriptAtServer. destruct (name script); discriminate. Qed.

Lemma key_plain : JS.plain (scriptAtServer script server) = true.
Proof.
  destruct Hfit as (Hn & Hs & _). unfold scriptAtServer, JS.plain in *.
  rewrite !JSFacts.every_app, Hn, Hs. reflexivity.
Qed.

Lemma entry_unfold :
  entryOf script server =
  (scriptAtServer script server
     ++ String JS.COLON (JS.toString (lastSyncHash script)))%string.
Proof. reflexivity. Qed.

Lemma entry_scriptpart :
  scriptpart (entryOf script server) = scriptAtServer script server.
Proof.
  rewrite entry_unfold. apply scriptpart_line.
  apply JSFacts.plain_colon, key_plain.
Qed.

Lemma entry_hashpart :
  hashpart (entryOf script server) = Some (JS.toString (lastSyncHash script)).
Proof.
  rewrite entry_unfold. apply hashpart_line.
  - apply JSFacts.plain_colon, key_plain.
  - apply JSFacts.plain_colon. apply Hfit.
Qed.

Lemma entry_dense : JS.dense (entryOf script server) = true.
Proof.
  rewrite entry_unfold. unfold JS.dense.
  rewrite JSFacts.every_app. simpl.
  fold (JS.dense (scriptAtServer script server)).
  fold (JS.dense (JS.toString (lastSyncHash script))).
  rewrite (JSFacts.plain_dense _ key_plain).
  rewrite (JSFacts.plain_dense _ (proj2 (proj2 Hfit))). reflexivity.
Qed.

Lemma entry_not_empty : entryOf script server <> EmptyString.
Proof.
  rewrite entry_unfold. pose proof key_not_empty as H.
  destruct (scriptAtServer script server); [contradiction|discriminate].
Qed.

Lemma entry_tightStart : JS.tightStart (entryOf script server) = true.
Proof. apply JSFacts.dense_tightStart; [apply entry_not_empty|apply entry_dense]. Qed.

Lemma entry_tightEnd : JS.tightEnd (entryOf script server) = true.
Proof. apply JSFacts.dense_tightEnd; [apply entry_not_empty|apply entry_dense]. Qed.

Lemma entry_one_line : JS.every (JS.isnt JS.LF) (entryOf script server) = true.
Proof. apply JSFacts.dense_LF, entry_dense. Qed.

End Entry.

(** ** The merge of an entry *)

Section Merge.

Variable key entry : string.
Hypothesis Hpart : scriptpart entry = key.
Hypothesis Hkey : key <> EmptyString.

Local Abbreviation replace := (overwrite key entry).

Lemma merge_not_nil hv : merge key entry hv <> [].
Proof.
  unfold merge. destruct hv as [|v rest]; [discriminate|].
  destruct (existsb _ (v :: rest)); [discriminate|].
  simpl. discriminate.
Qed.

(** The empty line of an empty cache is no line of any identity. *)
Lemma merge_blank hv :
  merge key entry (EmptyString :: hv) = EmptyString :: merge key entry hv.
Proof.
  assert (E : String.eqb (scriptpart EmptyString) key = false).
  { apply String.eqb_neq. intros H. apply Hkey. now rewrite <- H. }
  unfold merge. cbn [existsb map]. unfold overwrite at 1. rewrite E.
  cbn [orb]. now destruct (existsb _ hv).
Qed.

Lemma linesOf_replace k hv :
  linesOf k (map replace hv) =
  if String.eqb key k
  then map (fun _ => entry) (linesOf key hv)
  else linesOf k hv.
Proof.
  unfold linesOf.
  induction hv as [|v rest IH]; [now destruct (String.eqb key k)|].
  cbn [map filter]. rewrite IH. clear IH. unfold overwrite.
  destruct (String.eqb (scriptpart v) key) eqn:Ev.
  - rewrite Hpart. destruct (String.eqb key k) eqn:Ek; [reflexivity|].
    apply String.eqb_eq in Ev. now rewrite Ev, Ek.
  - destruct (String.eqb key k) eqn:Ek; [|reflexivity].
    apply String.eqb_eq in Ek. subst k. now rewrite Ev.
Qed.

Lemma existsb_linesOf hv :
  existsb (fun value => String.eqb (scriptpart value) key) hv = false <->
  linesOf key hv = [].
Proof.
  induction hv as [|v rest IH]; simpl; [tauto|].
  destruct (String.eqb (scriptpart v) key); simpl; [split; discriminate|exact IH].
Qed.

(** The lines of the other identities are the ones that were there. *)
Lemma linesOf_merge_other k hv :
  k <> key -> linesOf k (merge key entry hv) = linesOf k hv.
Proof.
  intros Hk. assert (E : String.eqb key k = false)
    by (apply String.eqb_neq; congruence).
  unfold merge. destruct (existsb _ hv).
  - now rewrite linesOf_replace, E.
  - rewrite linesOf_app. simpl. rewrite Hpart, E. apply app_nil_r.
Qed.

(** The lines of the identity all hold the entry, and there is one if
    there was none. *)
Lemma linesOf_merge_same hv :
  linesOf key (merge key entry hv) =
  repeat entry (Nat.max 1 (length (linesOf key hv))).
Proof.
  unfold merge. destruct (existsb _ hv) eqn:E.
  - rewrite linesOf_replace, String.eqb_refl.
    assert (Hn : linesOf key hv <> []).
    { intros H. apply existsb_linesOf in H. congruence. }
    induction (linesOf key hv) as [|v l IH]; [contradiction|].
    destruct l as [|w l']; [reflexivity|].
    simpl in IH |- *. f_equal. apply IH. discriminate.
  - rewrite linesOf_app. apply existsb_linesOf in E. rewrite E. simpl.
    now rewrite Hpart, String.eqb_refl.
Qed.

Lemma cached_merge_same hv : cached key (merge key entry hv) = Some entry.
Proof.
  unfold cached. rewrite linesOf_merge_same.
  destruct (Nat.max 1 (length (linesOf key hv))) as [|n] eqn:E; [lia|].
  clear E. rewrite rev_repeat. reflexivity.
Qed.

Lemma cached_merge_other k hv :
  k <> key -> cached k (merge key entry hv) = cached k hv.
Proof. intros Hk. unfold cached. now rewrite linesOf_merge_other. Qed.

Lemma count_merge k hv :
  length (linesOf k (merge key entry hv)) <= Nat.max 1 (length (linesOf k hv)).
Proof.
  destruct (String.eqb k key) eqn:E.
  - apply String.eqb_eq in E. subst k.
    rewrite linesOf_merge_same, repeat_length. lia.
  - apply String.eqb_neq in E. rewrite linesOf_merge_other by assumption. lia.
Qed.

(** *** Tidy lines stay tidy *)

Hypothesis Hstart : JS.tightStart entry = true.
Hypothesis Hend : JS.tightEnd entry = true.
Hypothesis Hline : JS.every (JS.isnt JS.LF) entry = true.

Lemma hd_map_replace hv :
  hv <> [] ->
  JS.tightStart (hd EmptyString hv) = true ->
  JS.tightStart (hd EmptyString (map replace hv)) = true.
Proof.
  destruct hv as [|v rest]; [contradiction|].
  simpl. intros _ H. unfold overwrite. now destruct (String.eqb _ _).
Qed.

Lemma last_map_replace hv :
  hv <> [] ->
  JS.tightEnd (last hv EmptyString) = true ->
  JS.tightEnd (last (map replace hv) EmptyString) = true.
Proof.
  induction hv as [|v rest IH]; [contradiction|].
  intros _ H. destruct rest as [|w rest'].
  - simpl in *. unfold overwrite. now destruct (String.eqb _ _).
  - change (last (map replace (v :: w :: rest')) EmptyString)
      with (last (map replace (w :: rest')) EmptyString).
    apply IH; [discriminate|exact H].
Qed.

Lemma tidy_merge hv : tidy hv -> tidy (merge key entry hv).
Proof.
  intros [HF Hends]. unfold merge.
  destruct (existsb _ hv) eqn:E.
  - split.
    + apply Forall_map. eapply Forall_impl; [|exact HF].
      intros v Hv. unfold overwrite. now destruct (String.eqb _ _).
    + destruct Hends as [->|[H1 H2]]; [discriminate|]. right.
      assert (Hn : hv <> []) by (intros ->; discriminate).
      split; [now apply hd_map_replace|now apply last_map_replace].
  - split.
    + apply Forall_app. split; [exact HF|]. now repeat constructor.
    + right. rewrite last_last. split; [|exact Hend].
      destruct Hends as [->|[H1 _]]; [exact Hstart|].
      destruct hv; [discriminate|exact H1].
Qed.

End Merge.

(** ** From the lines to the file and back *)

Lemma lines_cases content :
  lines content = [EmptyString] \/ (tidy (lines content) /\ lines content <> []).
Proof.
  unfold lines. destruct (JSFacts.trim_result content) as [H|[H1 H2]].
  - left. now rewrite H.
  - right. split; [split|apply JSFacts.split_not_nil].
    + apply JSFacts.split_fields.
    + right. split.
      * now apply JSFacts.tightStart_hd_split.
      * now apply JSFacts.tightEnd_last_split.
Qed.

Lemma lines_join_tidy hv :
  tidy hv -> hv <> [] -> lines (JS.trim (JS.join newline hv)) = hv.
Proof.
  intros [HF [->|[H1 H2]]] Hn; [contradiction|].
  assert (Ht : JS.trim (JS.join newline hv) = JS.join newline hv).
  { apply JSFacts.trim_tight.
    - destruct hv as [|x rest]; [contradiction|].
      now apply JSFacts.tightStart_join.
    - now apply JSFacts.tightEnd_join. }
  unfold lines. rewrite !Ht. now apply JSFacts.split_join.
Qed.

Lemma lines_join_blank hv :
  tidy hv ->
  lines (JS.trim (JS.join newline (EmptyString :: hv))) =
  dropBlank (EmptyString :: hv).
Proof.
  intros Ht. destruct hv as [|x rest]; [reflexivity|].
  rewrite JSFacts.join_cons.
  change (EmptyString ++ newline ++ JS.join newline (x :: rest))%string
    with (String JS.LF (JS.join newline (x :: rest))).
  rewrite JSFacts.trim_LF. apply lines_join_tidy; [exact Ht|discriminate].
Qed.

Lemma dropBlank_tidy hv : tidy hv -> dropBlank hv = hv.
Proof.
  intros [_ [->|[H1 _]]]; [reflexivity|].
  destruct hv as [|x rest]; [reflexivity|].
  destruct x; [discriminate|reflexivity].
Qed.

Lemma linesOf_dropBlank key hv :
  key <> EmptyString -> linesOf key (dropBlank hv) = linesOf key hv.
Proof.
  intros Hk. destruct hv as [|x rest]; [reflexivity|].
  destruct x; [|reflexivity]. destruct rest as [|y rest']; [reflexivity|].
  cbn [dropBlank]. unfold linesOf at 2. cbn [filter].
  change (scriptpart EmptyString) with EmptyString.
  destruct (String.eqb EmptyString key) eqn:E; [|reflexivity].
  apply String.eqb_eq in E. congruence.
Qed.

Lemma count_dropBlank key hv :
  length (linesOf key (dropBlank hv)) <= length (linesOf key hv).
Proof.
  destruct hv as [|x rest]; [reflexivity|].
  destruct x; [|reflexivity]. destruct rest as [|y rest']; [reflexivity|].
  cbn [dropBlank]. unfold linesOf at 2. cbn [filter].
  destruct (String.eqb (scriptpart EmptyString) key); simpl; unfold linesOf; lia.
Qed.

Lemma cacheReady_writeFile env exemptions content text :
  cacheReady env exemptions content ->
  cacheReady (writeFile text env) exemptions text.
Proof. intros (Hw & Hroot & _ & Hconf). repeat split; assumption. Qed.

Section WritingLines.

Variable exemptions : list string.
Variable server : string.
Variable st : Store.

Local Abbreviation allFit := (allFit exemptions server st).

Lemma allFit_cons r rest :
  allFit (r :: rest) ->
  (recorded exemptions (st r) = true -> fitsFormat (st r) server) /\ allFit rest.
Proof.
  intros H. split; [apply H; now left|].
  intros r' Hr'. apply H. now right.
Qed.

Lemma writeScript_tidy hv r :
  (recorded exemptions (st r) = true -> fitsFormat (st r) server) ->
  tidy hv -> tidy (writeScript exemptions server st hv r).
Proof.
  intros Hfit Ht. destruct (recorded exemptions (st r)) eqn:E.
  - rewrite writeScript_merge by assumption. specialize (Hfit eq_refl).
    apply tidy_merge;
      auto using entry_scriptpart, entry_tightStart, entry_tightEnd, entry_one_line.
  - now rewrite writeScript_skip.
Qed.

Lemma writeScript_blank hv r :
  (recorded exemptions (st r) = true -> fitsFormat (st r) server) ->
  writeScript exemptions server st (EmptyString :: hv) r =
  EmptyString :: writeScript exemptions server st hv r.
Proof.
  intros Hfit. destruct (recorded exemptions (st r)) eqn:E.
  - rewrite !writeScript_merge by assumption.
    apply merge_blank, key_not_empty.
  - now rewrite !writeScript_skip.
Qed.

Lemma writeScript_not_nil hv r :
  hv <> [] -> writeScript exemptions server st hv r <> [].
Proof.
  intros Hn. destruct (recorded exemptions (st r)) eqn:E.
  - rewrite writeScript_merge by assumption. apply merge_not_nil.
  - now rewrite writeScript_skip.
Qed.

Lemma fold_writeScript_tidy pscripts hv :
  allFit pscripts -> tidy hv ->
  tidy (fold_left (writeScript exemptions server st) pscripts hv).
Proof.
  revert hv. induction pscripts as [|r rest IH]; intros hv Hfit Ht; [exact Ht|].
  apply allFit_cons in Hfit. destruct Hfit as [Hr Hrest].
  simpl. apply IH; [exact Hrest|]. now apply writeScript_tidy.
Qed.

Lemma fold_writeScript_blank pscripts hv :
  allFit pscripts ->
  fold_left (writeScript exemptions server st) pscripts (EmptyString :: hv) =
  EmptyString :: fold_left (writeScript exemptions server st) pscripts hv.
Proof.
  revert hv. induction pscripts as [|r rest IH]; intros hv Hfit; [reflexivity|].
  apply allFit_cons in Hfit. destruct Hfit as [Hr Hrest].
  simpl. rewrite writeScript_blank by assumption. now apply IH.
Qed.

Lemma fold_writeScript_not_nil pscripts hv :
  hv <> [] -> fold_left (writeScript exemptions server st) pscripts hv <> [].
Proof.
  revert hv. induction pscripts as [|r rest IH]; intros hv Hn; [exact Hn|].
  simpl. apply IH. now apply writeScript_not_nil.
Qed.

(** What the next reader finds in the file that [updateHashValues]
    wrote: the lines it computed, less the empty line of an empty cache. *)
Lemma written_lines pscripts content :
  allFit pscripts ->
  lines (JS.trim (JS.join newline
           (fold_left (writeScript exemptions server st) pscripts (lines content))))
  = dropBlank (fold_left (writeScript exemptions server st) pscripts (lines content)).
Proof.
  intros Hfit.
  destruct (lines_cases content) as [H|[Ht Hn]].
  - rewrite H, fold_writeScript_blank by assumption.
    apply lines_join_blank. apply fold_writeScript_tidy; [exact Hfit|].
    split; [constructor|now left].
  - pose proof (fold_writeScript_tidy pscripts _ Hfit Ht) as Ht'.
    rewrite (dropBlank_tidy _ Ht').
    apply lines_join_tidy; [exact Ht'|]. now apply fold_writeScript_not_nil.
Qed.

End WritingLines.

Lemma cached_dropBlank key hv :
  key <> EmptyString -> cached key (dropBlank hv) = cached key hv.
Proof. intros Hk. unfold cached. now rewrite linesOf_dropBlank. Qed.

(** What a script that is not exempt reads when the last line of its
    identity is known. *)
Lemma readHashValues_cached pscripts server env st r exemptions content value :
  cacheReady env exemptions content ->
  In r pscripts ->
  exempt exemptions (st r) = false ->
  cached (scriptAtServer (st r) server) (lines content) = Some value ->
  lastSyncHash (snd (readHashValues pscripts server env st) r) = hashpart value.
Proof.
  intros Hready Hin He Hc.
  rewrite (readHashValues_lookup _ _ _ _ _ _ _ Hready Hin He).
  unfold lookup. now rewrite Hc.
Qed.

Lemma fitsFormat_intro script server n h :
  name script = n -> lastSyncHash script = Some h ->
  JS.plain n = true -> JS.plain server = true -> JS.plain h = true ->
  fitsFormat script server.
Proof. intros Hn Hh Pn Ps Ph. unfold fitsFormat. now rewrite Hn, Hh. Qed.

(** One call of [updateHashValues] that gets as far as the cache. *)
Lemma update_step pscripts server env st exemptions content :
  cacheReady env exemptions content ->
  pscripts <> [] ->
  allFit exemptions server st pscripts ->
  exists text,
    updateHashValues pscripts server env st = writeFile text env /\
    text = JS.trim (JS.join newline
             (fold_left (writeScript exemptions server st) pscripts (lines content))) /\
    cacheReady (writeFile text env) exemptions text /\
    lines text =
    dropBlank (fold_left (writeScript exemptions server st) pscripts (lines content)).
Proof.
  intros Hready Hne Hfit. eexists. split; [|split; [reflexivity|split]].
  - now apply updateHashValues_written.
  - now apply cacheReady_writeFile with (content := content).
  - now apply written_lines.
Qed.

(** ** C3: the round trip through the cache *)

(** C3 as stated fails for a server whose text holds a colon, such as the
    address "::1".  The entry of "a" is written as "a@::1:h1"; on reading,
    the first field of that line is "a@", which is not the identity
    "a@::1", so [readHashValues] gives "a" no hash.  The next
    [updateHashValues] finds no line of the identity either and appends the
    entry once more. *)
Lemma colon_in_server_breaks_round_trip :
  cacheFile (updateHashValues [0] "::1" emptyCache firstUpload)
    = File "a@::1:h1" /\
  lastSyncHash
    (snd (readHashValues [0] "::1"
            (updateHashValues [0] "::1" emptyCache firstUpload) notYetRead) 0)
    = None /\
  cacheFile
    (updateHashValues [0] "::1"
       (updateHashValues [0] "::1" emptyCache firstUpload) firstUpload)
    = File ("a@::1:h1" ++ newline ++ "a@::1:h1") /\
  ~ roundTripAsStated.
Proof.
  split; [vm_compute; reflexivity|].
  split; [vm_compute; reflexivity|].
  split; [vm_compute; reflexivity|].
  intros H.
  assert (Hready : cacheReady emptyCache [] EmptyString) by (repeat split).
  specialize (H "::1" "h1" emptyCache [] EmptyString firstUpload 0 Hready
                eq_refl eq_refl eq_refl [0] notYetRead 0
                (or_introl eq_refl) eq_refl).
  vm_compute in H. discriminate H.
Qed.

(** C3, amended.  Let the cache file exist, let the server and the hashes
    consist of characters other than white space and the colon, and let the
    scripts named "a" and "b" be recorded (not exempt, [conflict] not
    [true]).
    After [updateHashValues] for the server with "a" carrying [h1],
    [readHashValues] gives every script named "a" the hash [h1]; after a
    second [updateHashValues] with "a" carrying [h2] and "b" carrying [h3] it
    gives [h2] to "a" and [h3] to "b".  The lines of each file are the lines
    of the file before with the entries merged in (the lines of the identity
    overwritten where they stand, the entry appended when there is none, all
    other lines kept), no identity has more lines than it had before, or than
    one, and a cache that was empty holds first the line of "a" and then the
    line of "a" followed by the line of "b". *)
Theorem cache_round_trip srv h1 h2 h3 exemptions content env st1 st2 ra rb :
  cacheReady env exemptions content ->
  JS.plain srv = true ->
  JS.plain h1 = true -> JS.plain h2 = true -> JS.plain h3 = true ->
  name (st1 ra) = "a" -> lastSyncHash (st1 ra) = Some h1 ->
  recorded exemptions (st1 ra) = true ->
  name (st2 ra) = "a" -> lastSyncHash (st2 ra) = Some h2 ->
  recorded exemptions (st2 ra) = true ->
  name (st2 rb) = "b" -> lastSyncHash (st2 rb) = Some h3 ->
  recorded exemptions (st2 rb) = true ->
  let env1 := updateHashValues [ra] srv env st1 in
  let env2 := updateHashValues [ra; rb] srv env1 st2 in
  (forall pscripts st r, In r pscripts -> name (st r) = "a" ->
     lastSyncHash (snd (readHashValues pscripts srv env1 st) r) = Some h1) /\
  (forall pscripts st r, In r pscripts -> name (st r) = "a" ->
     lastSyncHash (snd (readHashValues pscripts srv env2 st) r) = Some h2) /\
  (forall pscripts st r, In r pscripts -> name (st r) = "b" ->
     lastSyncHash (snd (readHashValues pscripts srv env2 st) r) = Some h3) /\
  exists text1 text2,
    cacheFile env1 = File text1 /\ cacheFile env2 = File text2 /\
    lines text1 =
      dropBlank (merge ("a@" ++ srv) ("a@" ++ srv ++ ":" ++ h1) (lines content)) /\
    lines text2 =
      dropBlank (merge ("b@" ++ srv) ("b@" ++ srv ++ ":" ++ h3)
                   (merge ("a@" ++ srv) ("a@" ++ srv ++ ":" ++ h2) (lines text1))) /\
    (forall key,
       length (linesOf key (lines text1))
       <= Nat.max 1 (length (linesOf key (lines content))) /\
       length (linesOf key (lines text2))
       <= Nat.max 1 (length (linesOf key (lines content)))) /\
    (JS.trim content = "" ->
     text1 = ("a@" ++ srv ++ ":" ++ h1)%string /\
     text2 = (("a@" ++ srv ++ ":" ++ h2) ++ newline
                ++ ("b@" ++ srv ++ ":" ++ h3))%string).
Proof.
  intros Hready Ps P1 P2 P3 Na1 Ha1 Ra1 Na2 Ha2 Ra2 Nb2 Hb2 Rb2 env1 env2.
  (* the three entries *)
  assert (F1 : fitsFormat (st1 ra) srv)
    by (now apply (fitsFormat_intro _ _ "a" h1)).
  assert (F2 : fitsFormat (st2 ra) srv)
    by (now apply (fitsFormat_intro _ _ "a" h2)).
  assert (F3 : fitsFormat (st2 rb) srv)
    by (now apply (fitsFormat_intro _ _ "b" h3)).
  set (ka := ("a@" ++ srv)%string).
  set (kb := ("b@" ++ srv)%string).
  set (e1 := ("a@" ++ srv ++ ":" ++ h1)%string).
  set (e2 := ("a@" ++ srv ++ ":" ++ h2)%string).
  set (e3 := ("b@" ++ srv ++ ":" ++ h3)%string).
  assert (K1 : scriptAtServer (st1 ra) srv = ka)
    by (unfold scriptAtServer; now rewrite Na1).
  assert (K2 : scriptAtServer (st2 ra) srv = ka)
    by (unfold scriptAtServer; now rewrite Na2).
  assert (K3 : scriptAtServer (st2 rb) srv = kb)
    by (unfold scriptAtServer; now rewrite Nb2).
  assert (E1 : entryOf (st1 ra) srv = e1)
    by (unfold entryOf, scriptAtServer; now rewrite Na1, Ha1).
  assert (E2 : entryOf (st2 ra) srv = e2)
    by (unfold entryOf, scriptAtServer; now rewrite Na2, Ha2).
  assert (E3 : entryOf (st2 rb) srv = e3)
    by (unfold entryOf, scriptAtServer; now rewrite Nb2, Hb2).
  pose proof (entry_scriptpart _ _ F1) as S1. rewrite E1, K1 in S1.
  pose proof (entry_scriptpart _ _ F2) as S2. rewrite E2, K2 in S2.
  pose proof (entry_scriptpart _ _ F3) as S3. rewrite E3, K3 in S3.
  pose proof (entry_hashpart _ _ F1) as V1. rewrite E1, Ha1 in V1.
  pose proof (entry_hashpart _ _ F2) as V2. rewrite E2, Ha2 in V2.
  pose proof (entry_hashpart _ _ F3) as V3. rewrite E3, Hb2 in V3.
  cbn [JS.toString] in V1, V2, V3.
  assert (Hka : ka <> EmptyString) by discriminate.
  assert (Hkb : kb <> EmptyString) by discriminate.
  assert (Hab : ka <> kb) by discriminate.
  assert (Xa : JS.includes exemptions "a" = false).
  { apply recorded_true in Ra1. now rewrite Na1 in Ra1. }
  assert (Xb : JS.includes exemptions "b" = false).
  { apply recorded_true in Rb2. now rewrite Nb2 in Rb2. }
  (* the first call *)
  destruct (update_step [ra] srv env st1 exemptions content Hready)
    as (text1 & U1 & T1 & Hready1 & L1).
  { discriminate. }
  { intros r [<-|[]] _. exact F1. }
  cbn [fold_left] in L1, T1.
  rewrite (writeScript_merge _ _ _ _ _ Ra1), K1, E1 in L1, T1.
  (* the second call *)
  fold env1 in U1. rewrite <- U1 in Hready1.
  destruct (update_step [ra; rb] srv env1 st2 exemptions text1 Hready1)
    as (text2 & U2 & T2 & Hready2 & L2).
  { discriminate. }
  { intros r [<-|[<-|[]]] _; assumption. }
  cbn [fold_left] in L2, T2.
  rewrite (writeScript_merge _ _ _ _ _ Ra2), K2, E2 in L2, T2.
  rewrite (writeScript_merge _ _ _ _ _ Rb2), K3, E3 in L2, T2.
  fold env2 in U2. rewrite <- U2 in Hready2.
  (* what is read *)
  assert (C1 : cached ka (lines text1) = Some e1).
  { rewrite L1, cached_dropBlank by assumption.
    now apply cached_merge_same. }
  assert (C2 : cached ka (lines text2) = Some e2).
  { rewrite L2, cached_dropBlank by assumption.
    rewrite cached_merge_other by (auto; congruence).
    now apply cached_merge_same. }
  assert (C3 : cached kb (lines text2) = Some e3).
  { rewrite L2, cached_dropBlank by assumption.
    now apply cached_merge_same. }
  split; [|split; [|split]].
  - intros pscripts st r Hin Hn. rewrite <- V1.
    apply (readHashValues_cached _ _ _ _ _ _ _ _ Hready1 Hin).
    + unfold exempt. now rewrite Hn.
    + unfold scriptAtServer. rewrite Hn. exact C1.
  - intros pscripts st r Hin Hn. rewrite <- V2.
    apply (readHashValues_cached _ _ _ _ _ _ _ _ Hready2 Hin).
    + unfold exempt. now rewrite Hn.
    + unfold scriptAtServer. rewrite Hn. exact C2.
  - intros pscripts st r Hin Hn. rewrite <- V3.
    apply (readHashValues_cached _ _ _ _ _ _ _ _ Hready2 Hin).
    + unfold exempt. now rewrite Hn.
    + unfold scriptAtServer. rewrite Hn. exact C3.
  - exists text1, text2.
    split; [apply Hready1|split; [apply Hready2|]].
    split; [exact L1|split; [exact L2|split]].
    + intros key.
      assert (H1 : length (linesOf key (lines text1))
                   <= Nat.max 1 (length (linesOf key (lines content)))).
      { rewrite L1. eapply Nat.le_trans; [apply count_dropBlank|].
        apply (count_merge ka e1 S1). }
      split; [exact H1|]. rewrite L2.
      eapply Nat.le_trans; [apply count_dropBlank|].
      eapply Nat.le_trans; [apply (count_merge kb e3 S3)|].
      assert (H2 : length (linesOf key (merge ka e2 (lines text1)))
                   <= Nat.max 1 (length (linesOf key (lines text1))))
        by (apply (count_merge ka e2 S2)).
      lia.
    + intros Hblank.
      assert (L0 : lines content = [EmptyString])
        by (unfold lines; now rewrite Hblank).
      assert (X1 : text1 = e1).
      { rewrite T1, L0, (merge_blank ka e1 Hka).
        change (merge ka e1 []) with [e1].
        change (JS.join newline [EmptyString; e1]) with (String JS.LF e1).
        rewrite JSFacts.trim_LF. rewrite <- E1.
        apply JSFacts.trim_tight;
          [now apply entry_tightStart|now apply entry_tightEnd]. }
      split; [exact X1|].
      assert (L1' : lines text1 = [e1]).
      { rewrite L1, L0, (merge_blank ka e1 Hka). reflexivity. }
      rewrite T2, L1'.
      assert (M1 : merge ka e2 [e1] = [e2]).
      { unfold merge, overwrite. cbn [existsb map].
        now rewrite S1, String.eqb_refl. }
      assert (M2 : merge kb e3 [e2] = [e2; e3]).
      { unfold merge, overwrite. cbn [existsb map]. rewrite S2.
        replace (String.eqb ka kb) with false; [reflexivity|].
        symmetry. now apply String.eqb_neq. }
      rewrite M1, M2.
      change (JS.join newline [e2; e3]) with (e2 ++ newline ++ e3)%string.
      apply JSFacts.trim_tight.
      * apply JSFacts.tightStart_app. rewrite <- E2. now apply entry_tightStart.
      * do 2 apply JSFacts.tightEnd_app. rewrite <- E3. now apply entry_tightEnd.
Qed.

(** The scenario of the spec, from an empty cache file: "a" with "h1",
    then "a" with "h2" and "b" with "h3". *)
Lemma cache_round_trip_witness :
  lastSyncHash
    (snd (readHashValues [0] "srv"
            (updateHashValues [0] "srv" emptyCache firstUpload) notYetRead) 0)
    = Some "h1" /\
  lastSyncHash
    (snd (readHashValues [0; 1] "srv"
            (updateHashValues [0; 1] "srv"
               (updateHashValues [0] "srv" emptyCache firstUpload) secondUpload)
            notYetRead) 0)
    = Some "h2" /\
  lastSyncHash
    (snd (readHashValues [0; 1] "srv"
            (updateHashValues [0; 1] "srv"
               (updateHashValues [0] "srv" emptyCache firstUpload) secondUpload)
            notYetRead) 1)
    = Some "h3".
Proof.
  destruct (cache_round_trip "srv" "h1" "h2" "h3" [] EmptyString emptyCache
              firstUpload secondUpload 0 1) as (R1 & R2 & R3 & _);
    try reflexivity.
  - repeat split.
  - split; [|split].
    + apply R1; [now left|reflexivity].
    + apply R2; [now left|reflexivity].
    + apply R3; [right; now left|reflexivity].
Defined.

(** ** C4: a cache file that is missing *)

(** C4 does not hold on the update path.  With no cache file in the
    workspace, [updateHashValues] returns at once, whatever the scripts: the
    file is not created and nothing is written.  So the entry of the script
    "a", which is in sync and carries the hash "h1", is lost, and the next
    [readHashValues] (which does create the file, empty) finds no hash for
    it.  With an empty file in place of the missing one the same call
    writes the entry. *)
Theorem updateHashValues_missing_cache :
  (forall w root conf shown pscripts server st,
     updateHashValues pscripts server (mkEnv w root ENOENT conf shown) st =
     mkEnv w root ENOENT conf shown) /\
  updateHashValues [0] "srv" missingCache firstUpload = missingCache /\
  fst (readHashValues [0] "srv" missingCache notYetRead) = emptyCache /\
  lastSyncHash
    (snd (readHashValues [0] "srv"
            (updateHashValues [0] "srv" missingCache firstUpload) notYetRead) 0)
    = None /\
  cacheFile (updateHashValues [0] "srv" emptyCache firstUpload) = File "a@srv:h1".
Proof.
  split; [|repeat split].
  intros w root conf shown pscripts server st. unfold updateHashValues.
  destruct pscripts as [|s rest]; [reflexivity|].
  simpl. now destruct (negb w || negb (JS.truthyS root)).
Qed.

(** * Further properties of the helpers *)

(** ** The batch: what it touches and what it returns *)

Lemma route_prompts_kept b script value :
  prompts (route b script value) = prompts b.
Proof. by_value value. Qed.

Section BatchFacts.

Variable u : User.
Variable singlescript : bool.

Local Abbreviation turn := (resolveScript u singlescript).
Local Abbreviation run := (reduce u singlescript).

Lemma resolveScript_prompts b s :
  prompts (snd (turn b s)) =
  prompts b + (if res_prompted (fst (turn b s)) then 1 else 0).
Proof.
  unfold resolveScript. destruct (askForUpload _ _ _ _); cbn [fst snd res_prompted].
  - rewrite route_prompts_kept. lia.
  - rewrite route_prompts_kept. simpl. lia.
Qed.


(** The store after a batch, read off the turns that forced an upload. *)
Lemma reduce_heap scripts b r :
  heap (snd (run scripts b)) r =
  if existsb (Nat.eqb r)
       (map res_script
          (filter (fun e => forcedValue (res_value e)) (fst (run scripts b))))
  then markForced (heap b r)
  else heap b r.
Proof.
  revert b. induction scripts as [|s rest IH]; intros b; [reflexivity|].
  rewrite reduce_cons. cbn [fst snd filter]. rewrite IH, resolveScript_heap.
  destruct (forcedValue (res_value (fst (turn b s)))) eqn:Hf.
  - cbn [map existsb]. rewrite resolveScript_script. unfold assign.
    destruct (Nat.eqb r s) eqn:Hrs.
    + apply Nat.eqb_eq in Hrs. subst s. cbn [orb].
      now destruct (existsb _ _).
    + reflexivity.
  - reflexivity.
Qed.

(** A batch of scripts that are all in sync. *)
Lemma reduce_in_sync scripts b :
  (forall r, In r scripts -> unresolved (heap b r) = false) ->
  Forall (fun e => res_prompted e = false /\ res_value e = Some NO_CONFLICT)
    (fst (run scripts b)) /\
  heap (snd (run scripts b)) = heap b /\
  noConflictArr (snd (run scripts b)) = noConflictArr b ++ scripts /\
  forceUploadArr (snd (run scripts b)) = forceUploadArr b /\
  prompts (snd (run scripts b)) = prompts b.
Proof.
  revert b. induction scripts as [|s rest IH]; intros b Hall.
  - cbn. rewrite app_nil_r. repeat split. constructor.
  - rewrite reduce_cons. cbn [fst snd].
    assert (Hs : unresolved (heap b s) = false) by (apply Hall; now left).
    assert (Hp : res_prompted (fst (turn b s)) = false)
      by (now rewrite resolveScript_prompted, Hs).
    assert (Hv : res_value (fst (turn b s)) = Some NO_CONFLICT)
      by (now rewrite (resolveScript_unprompted _ _ _ _ Hp), Hs).
    assert (Hh : heap (snd (turn b s)) = heap b)
      by (now rewrite resolveScript_heap, Hv).
    destruct (IH (snd (turn b s))) as (HF & H1 & H2 & H3 & H4).
    { intros r Hr. rewrite Hh. apply Hall. now right. }
    split; [constructor; [now split|exact HF]|].
    split; [now rewrite H1|].
    split; [rewrite H2, resolveScript_noConflictArr, Hv; cbn;
            now rewrite <- app_assoc|].
    split; [now rewrite H3, resolveScript_forceUploadArr, Hv, app_nil_r|].
    rewrite H4, resolveScript_prompts, Hp. lia.
Qed.






End BatchFacts.



Lemma inOrder_filter_map {A B : Type} (f : A -> B) (p : A -> bool) (l : list A) :
  inOrder (map f (filter p l)) (map f l).
Proof.
  induction l as [|x l IH]; cbn; [constructor|].
  destruct (p x); cbn; now constructor.
Qed.

Lemma existsb_eqb_iff (r : ref) (l : list ref) :
  existsb (Nat.eqb r) l = true <-> In r l.
Proof.
  rewrite existsb_exists. split.
  - intros (x & Hx & E). apply Nat.eqb_eq in E. now subst.
  - intros H. exists r. split; [exact H|apply Nat.eqb_refl].
Qed.

(** The store that [ensureForceUpload] leaves. *)
Lemma ensureForceUpload_store u scripts st r :
  snd (ensureForceUpload u scripts st) r =
  if existsb (Nat.eqb r) (snd (fst (ensureForceUpload u scripts st)))
  then markForced (st r) else st r.
Proof.
  unfold ensureForceUpload, runBatch. cbn [fst snd].
  rewrite reduce_heap, reduce_forceUploadArr. reflexivity.
Qed.

(** ** C7: a dismissed prompt *)

(** C7 as stated fails for an array that holds the same object twice.  The
    script "b" was never synchronised; the first prompt for it is answered
    "Yes", which pushes it to the forced uploads and leaves it without a
    [lastSyncHash], so its second turn prompts again.  That prompt is
    dismissed: the turn pushes nothing, yet the script is returned among
    the forced uploads. *)
Lemma dismissed_script_still_returned :
  map (fun e => (res_prompted e, res_value e))
      (fst (runBatch yesThenDismiss [1; 1] threeScripts))
    = [(true, Some FORCE_UPLOAD_YES); (true, None)] /\
  fst (ensureForceUpload yesThenDismiss [1; 1] threeScripts) = ([], [1]) /\
  ~ dismissedIsDropped yesThenDismiss [1; 1] threeScripts.
Proof.
  split; [vm_compute; reflexivity|].
  split; [vm_compute; reflexivity|].
  intros H.
  destruct (H 1 (mkResolution 1 (markForced (neverSynced "b")) true None)
              eq_refl eq_refl eq_refl) as [_ Hf].
  apply Hf. vm_compute. auto.
Qed.

(** C7, amended.  When the prompt for a script is dismissed (the quick pick
    yields [undefined]), the callback does with it exactly what it does with
    the value "No (remember my answer for this operation)": nothing is
    pushed, no record is touched and [none] is set; a batch in which every
    dismissal is replaced by that answer ends in the same state and returns
    the same arrays.  The batch goes on: every script of the array still
    gets its resolution, [none] is still set at the end, and no later script
    is prompted (the unresolved ones resolve with [FORCE_UPLOAD_NONE], the
    others with [NO_CONFLICT] and are returned in the first array).  What
    [ensureForceUpload] returns are the scripts resolved with [NO_CONFLICT]
    and the scripts whose upload was granted, in the order of their turns,
    and the store with exactly the granted ones marked.  The dismissed
    script is in a result only when another turn of the same object put it
    there, hence in neither for an array without repeated objects; in a
    batch of one script both arrays are empty and the store is the one the
    batch started with. *)
Theorem dismissed_prompt_is_none u scripts st i ri :
  nth_error (fst (runBatch u scripts st)) i = Some ri ->
  res_prompted ri = true ->
  res_value ri = None ->
  snd (runBatch (insisting u) scripts st) = snd (runBatch u scripts st) /\
  ensureForceUpload (insisting u) scripts st = ensureForceUpload u scripts st /\
  (forall b script,
     route b script None = route b script (Some FORCE_UPLOAD_NONE) /\
     heap (route b script None) = heap b /\
     noConflictArr (route b script None) = noConflictArr b /\
     forceUploadArr (route b script None) = forceUploadArr b /\
     all (route b script None) = all b /\
     none (route b script None) = true) /\
  length (fst (runBatch u scripts st)) = length scripts /\
  numScripts (snd (runBatch u scripts st)) = length scripts /\
  none (snd (runBatch u scripts st)) = true /\
  (forall j rj,
     nth_error (fst (runBatch u scripts st)) j = Some rj ->
     i < j ->
     remembered FORCE_UPLOAD_NONE rj) /\
  (NoDup scripts ->
     ~ In (res_script ri) (fst (fst (ensureForceUpload u scripts st))) /\
     ~ In (res_script ri) (snd (fst (ensureForceUpload u scripts st)))) /\
  (length scripts = 1 ->
     fst (ensureForceUpload u scripts st) = ([], []) /\
     snd (ensureForceUpload u scripts st) = st) /\
  fst (fst (ensureForceUpload u scripts st)) =
    map res_script
      (filter (fun e => noConflictValue (res_value e))
              (fst (runBatch u scripts st))) /\
  snd (fst (ensureForceUpload u scripts st)) =
    map res_script
      (filter (fun e => forcedValue (res_value e))
              (fst (runBatch u scripts st))) /\
  (forall r,
     snd (ensureForceUpload u scripts st) r =
     if existsb (Nat.eqb r)
          (map res_script
             (filter (fun e => forcedValue (res_value e))
                     (fst (runBatch u scripts st))))
     then markForced (st r) else st r) /\
  (forall j rj,
     nth_error (fst (runBatch u scripts st)) j = Some rj ->
     i < j ->
     unresolved (res_record rj) = false ->
     res_value rj = Some NO_CONFLICT /\
     In (res_script rj) (fst (fst (ensureForceUpload u scripts st)))) /\
  (In (res_script ri) (fst (fst (ensureForceUpload u scripts st))) ->
   exists j rj,
     j <> i /\ nth_error (fst (runBatch u scripts st)) j = Some rj /\
     res_script rj = res_script ri /\ noConflictValue (res_value rj) = true) /\
  (In (res_script ri) (snd (fst (ensureForceUpload u scripts st))) ->
   exists j rj,
     j <> i /\ nth_error (fst (runBatch u scripts st)) j = Some rj /\
     res_script rj = res_script ri /\ forcedValue (res_value rj) = true).
Proof.
  intros Hi Hp Hv.
  assert (Ha : appliedNone (res_value ri) = true) by (now rewrite Hv).
  pose proof (nth_error_In _ _ Hi) as Hin.
  assert (Hsame : snd (runBatch (insisting u) scripts st)
                  = snd (runBatch u scripts st))
    by apply reduce_insisting.
  assert (Hnc : fst (fst (ensureForceUpload u scripts st)) =
                map res_script
                  (filter (fun e => noConflictValue (res_value e))
                          (fst (runBatch u scripts st)))).
  { unfold ensureForceUpload, runBatch. cbn [fst snd].
    now rewrite reduce_noConflictArr. }
  assert (Hfu : snd (fst (ensureForceUpload u scripts st)) =
                map res_script
                  (filter (fun e => forcedValue (res_value e))
                          (fst (runBatch u scripts st)))).
  { unfold ensureForceUpload, runBatch. cbn [fst snd].
    now rewrite reduce_forceUploadArr. }
  assert (Hother : forall (p : option string -> bool),
            p None = false ->
            In (res_script ri)
               (map res_script
                  (filter (fun e => p (res_value e)) (fst (runBatch u scripts st)))) ->
            exists j rj,
              j <> i /\ nth_error (fst (runBatch u scripts st)) j = Some rj /\
              res_script rj = res_script ri /\ p (res_value rj) = true).
  { intros p Hnone H. apply in_map_iff in H. destruct H as (e & He & H).
    apply filter_In in H. destruct H as [H Hpe].
    destruct (In_nth_error _ _ H) as (j & Hj).
    exists j, e. repeat split; try assumption.
    intros ->. rewrite Hi in Hj. injection Hj as <-.
    rewrite Hv, Hnone in Hpe. discriminate. }
  split; [exact Hsame|].
  split; [unfold ensureForceUpload; now rewrite Hsame|].
  split; [|split; [|split; [|split; [|split; [|split; [|split]]]]]].
  - intros b script. repeat split.
  - apply reduce_length.
  - unfold runBatch. now rewrite reduce_numScripts.
  - exact (appliedNone_latches _ _ _ _ _ _ Hi Ha).
  - intros j rj Hj Hlt.
    exact (after_appliedNone _ _ _ _ _ _ _ _ (exclusive_start st) Hi Hj Hlt Ha).
  - intros Hnd. apply dropped_from_both; auto; now rewrite Hv.
  - intros Hlen.
    destruct scripts as [|s [|s' rest]]; try discriminate.
    clear Hin Hnc Hfu Hother. unfold ensureForceUpload, runBatch in *.
    rewrite reduce_cons in Hi |- *. simpl in Hi |- *.
    destruct i as [|i]; simpl in Hi; [|destruct i; discriminate].
    injection Hi as Hi.
    rewrite resolveScript_noConflictArr, resolveScript_forceUploadArr,
      resolveScript_heap, Hi, Hv.
    split; reflexivity.
  - split; [exact Hnc|]. split; [exact Hfu|].
    split; [|split; [|split]].
    + intros r. unfold ensureForceUpload, runBatch. cbn [snd].
      now rewrite reduce_heap.
    + intros j rj Hj Hlt Hu.
      destruct (after_appliedNone _ _ _ _ _ _ _ _ (exclusive_start st)
                  Hi Hj Hlt Ha) as [_ Hr].
      rewrite Hu in Hr. split; [exact Hr|].
      apply In_noConflict; [exact (nth_error_In _ _ Hj)|now rewrite Hr].
    + rewrite Hnc. now apply Hother.
    + rewrite Hfu. now apply Hother.
Qed.

(** One script that changed on the server, the prompt dismissed. *)
Lemma dismissed_prompt_is_none_witness :
  fst (ensureForceUpload (answering dismiss) [0] twoScripts) = ([], []) /\
  snd (ensureForceUpload (answering dismiss) [0] twoScripts) = twoScripts.
Proof.
  destruct (dismissed_prompt_is_none (answering dismiss) [0] twoScripts 0
              (mkResolution 0 (changedOnServer "a" "x") true None)
              eq_refl eq_refl eq_refl)
    as (_ & _ & _ & _ & _ & _ & _ & _ & H & _).
  apply H. reflexivity.
Defined.

(** ** X1: a batch without conflicts *)

(** X1.  When every script of the array is in sync (its [conflict] is not
    set and it carries a [lastSyncHash]), [ensureForceUpload] shows no
    prompt, returns the whole array, in its order, as the first result and
    nothing as the second, and leaves the store as it was.  The empty array
    is such a batch. *)
Theorem in_sync_batch_passes u scripts st :
  (forall r, In r scripts -> unresolved (st r) = false) ->
  ensureForceUpload u scripts st = ((scripts, []), st) /\
  prompts (snd (runBatch u scripts st)) = 0 /\
  Forall (fun e => res_prompted e = false) (fst (runBatch u scripts st)).
Proof.
  intros Hall. unfold ensureForceUpload, runBatch.
  destruct (reduce_in_sync u (Nat.eqb 1 (length scripts)) scripts (startBatch st) Hall)
    as (HF & H1 & H2 & H3 & H4).
  rewrite H1, H2, H3. cbn. split; [reflexivity|split; [exact H4|]].
  eapply Forall_impl; [|exact HF]. now intros e [He _].
Qed.

(** Two turns of the script "c", which is in sync, with someone who would
    dismiss any prompt. *)
Lemma in_sync_batch_passes_witness :
  ensureForceUpload (answering dismiss) [2; 2] threeScripts
  = (([2; 2], []), threeScripts).
Proof.
  apply (in_sync_batch_passes (answering dismiss) [2; 2] threeScripts).
  intros r [<-|[<-|[]]]; reflexivity.
Defined.

(** ** X2: what the batch writes to the scripts *)

(** X2.  [ensureForceUpload] changes the record of a script only if it
    returns the script among the forced uploads, and then it sets
    [forceUpload] to [true] and [conflict] to [false] and nothing else:
    every other script of the store, denied or without conflict, in the
    array or not, keeps its record, and no script ever gets another [name],
    [lastSyncHash] or [conflictMode]. *)
Theorem ensureForceUpload_touches_only_forced u scripts st r :
  (In r (snd (fst (ensureForceUpload u scripts st))) ->
   snd (ensureForceUpload u scripts st) r = markForced (st r)) /\
  (~ In r (snd (fst (ensureForceUpload u scripts st))) ->
   snd (ensureForceUpload u scripts st) r = st r) /\
  name (snd (ensureForceUpload u scripts st) r) = name (st r) /\
  lastSyncHash (snd (ensureForceUpload u scripts st) r) = lastSyncHash (st r) /\
  conflictMode (snd (ensureForceUpload u scripts st) r) = conflictMode (st r).
Proof.
  rewrite ensureForceUpload_store.
  destruct (existsb _ _) eqn:E.
  - apply existsb_eqb_iff in E. repeat split; try reflexivity. contradiction.
  - repeat split; try reflexivity. intros Hin.
    apply existsb_eqb_iff in Hin. congruence.
Qed.

(** ** X3: the order of the results *)

(** X3.  Both arrays that [ensureForceUpload] returns list their scripts in
    the order of the input array. *)
Theorem ensureForceUpload_keeps_order u scripts st :
  inOrder (fst (fst (ensureForceUpload u scripts st))) scripts /\
  inOrder (snd (fst (ensureForceUpload u scripts st))) scripts.
Proof.
  unfold ensureForceUpload, runBatch. cbn [fst snd].
  rewrite reduce_noConflictArr, reduce_forceUploadArr. cbn [startBatch
    noConflictArr forceUploadArr app].
  pose proof (reduce_scripts u (Nat.eqb 1 (length scripts)) scripts (startBatch st))
    as Hs.
  revert Hs. generalize (fst (reduce u (Nat.eqb 1 (length scripts)) scripts
                                  (startBatch st))).
  intros events <-. split; apply inOrder_filter_map.
Qed.

(** ** X4: where the remembered answers come from *)


(** ** X5: what the batch hands to the cache *)


(** ** The cache after an update *)

Lemma append_length (a b : string) :
  String.length (a ++ b) = String.length a + String.length b.
Proof. induction a as [|c a IH]; simpl; [reflexivity|now rewrite IH]. Qed.

Lemma append_cancel_r (a b c : string) : (a ++ c)%string = (b ++ c)%string -> a = b.
Proof.
  revert b. induction a as [|x a IH]; intros [|y b] H.
  - reflexivity.
  - apply (f_equal String.length) in H. simpl in H.
    rewrite append_length in H. lia.
  - apply (f_equal String.length) in H. simpl in H.
    rewrite append_length in H. lia.
  - simpl in H. injection H as -> H. f_equal. now apply IH.
Qed.

Lemma scriptAtServer_name s1 s2 server :
  scriptAtServer s1 server = scriptAtServer s2 server -> name s1 = name s2.
Proof. unfold scriptAtServer. apply append_cancel_r. Qed.

Lemma map_overwrite_fixed key entry hv :
  Forall (fun value => value = entry) (linesOf key hv) ->
  map (overwrite key entry) hv = hv.
Proof.
  unfold linesOf. induction hv as [|v rest IH]; [reflexivity|].
  cbn [filter map]. unfold overwrite at 1.
  destruct (String.eqb (scriptpart v) key); intros H.
  - inversion H as [|? ? Hv Hrest]; subst. f_equal. now apply IH.
  - f_equal. now apply IH.
Qed.

Lemma Forall_repeat {A : Type} (P : A -> Prop) (x : A) (n : nat) :
  P x -> Forall P (repeat x n).
Proof. intros H. induction n; simpl; now constructor. Qed.

Section AfterUpdate.

Variable exemptions : list string.
Variable server : string.
Variable st : Store.

Local Abbreviation write := (writeScript exemptions server st).
Local Abbreviation key := (fun r => scriptAtServer (st r) server).
Local Abbreviation entry := (fun r => entryOf (st r) server).

Lemma agree_entry pscripts r1 r2 :
  agree exemptions st pscripts ->
  In r1 pscripts -> In r2 pscripts ->
  recorded exemptions (st r1) = true -> recorded exemptions (st r2) = true ->
  key r1 = key r2 -> entry r1 = entry r2.
Proof.
  intros Ha H1 H2 R1 R2 Hk. unfold entryOf. rewrite Hk.
  apply scriptAtServer_name in Hk.
  now rewrite (Ha r1 r2 H1 H2 R1 R2 Hk).
Qed.

Lemma agree_app l1 l2 :
  agree exemptions st (l1 ++ l2) -> agree exemptions st l1.
Proof.
  intros H r1 r2 H1 H2. apply H; apply in_or_app; now left.
Qed.

Lemma allFit_app l1 l2 :
  allFit exemptions server st (l1 ++ l2) ->
  allFit exemptions server st l1 /\ allFit exemptions server st l2.
Proof.
  intros H. split; intros r Hr; apply H; apply in_or_app; [now left|now right].
Qed.

(** The lines of a recorded script's identity all hold its entry after the
    outer [forEach], and there is at least one. *)
Lemma fold_writeScript_linesOf pscripts hv r0 :
  allFit exemptions server st pscripts ->
  agree exemptions st pscripts ->
  In r0 pscripts -> recorded exemptions (st r0) = true ->
  exists n, linesOf (key r0) (fold_left write pscripts hv) = repeat (entry r0) (S n).
Proof.
  induction pscripts as [|r ps IH] using rev_ind; [contradiction|].
  intros Hfit Hag Hin Hrec.
  rewrite fold_left_app. cbn [fold_left].
  pose proof (allFit_app _ _ Hfit) as [Hfit1 Hfit2].
  pose proof (agree_app _ _ Hag) as Hag1.
  destruct (recorded exemptions (st r)) eqn:Er.
  - rewrite writeScript_merge by assumption.
    assert (Fr : fitsFormat (st r) server) by (apply Hfit2; [now left|exact Er]).
    pose proof (entry_scriptpart _ _ Fr) as Sr.
    destruct (String.eqb (key r) (key r0)) eqn:Ek.
    + apply String.eqb_eq in Ek.
      assert (Ee : entry r = entry r0).
      { apply (agree_entry (ps ++ [r])); auto.
        apply in_or_app. right. now left. }
      rewrite <- Ek, <- Ee. rewrite (linesOf_merge_same _ _ Sr).
      destruct (Nat.max 1 _) as [|n] eqn:En; [lia|]. now exists n.
    + apply String.eqb_neq in Ek.
      rewrite (linesOf_merge_other _ _ Sr) by congruence.
      apply in_app_or in Hin. destruct Hin as [Hin|[->|[]]]; [|congruence].
      now apply IH.
  - rewrite writeScript_skip by assumption.
    apply in_app_or in Hin. destruct Hin as [Hin|[->|[]]]; [|congruence].
    now apply IH.
Qed.

Lemma fold_writeScript_cached pscripts hv r0 :
  allFit exemptions server st pscripts ->
  agree exemptions st pscripts ->
  In r0 pscripts -> recorded exemptions (st r0) = true ->
  cached (key r0) (fold_left write pscripts hv) = Some (entry r0).
Proof.
  intros Hfit Hag Hin Hrec.
  destruct (fold_writeScript_linesOf pscripts hv r0 Hfit Hag Hin Hrec) as (n & Hn).
  unfold cached. rewrite Hn, rev_repeat. reflexivity.
Qed.

(** The lines of every other identity are the ones that were there. *)
Lemma fold_writeScript_other pscripts hv k :
  allFit exemptions server st pscripts ->
  (forall r, In r pscripts -> recorded exemptions (st r) = true -> key r <> k) ->
  linesOf k (fold_left write pscripts hv) = linesOf k hv.
Proof.
  revert hv. induction pscripts as [|r ps IH]; intros hv Hfit Hk; [reflexivity|].
  apply allFit_cons in Hfit. destruct Hfit as [Hr Hrest].
  cbn [fold_left]. rewrite IH; [|exact Hrest|intros r' Hr'; apply Hk; now right].
  destruct (recorded exemptions (st r)) eqn:Er.
  - rewrite writeScript_merge by assumption.
    apply linesOf_merge_other.
    + now apply entry_scriptpart, Hr.
    + intros E. apply (Hk r (or_introl eq_refl) Er). now symmetry.
  - now rewrite writeScript_skip.
Qed.

(** Lines that already hold the entries are left as they are. *)
Lemma fold_writeScript_fixed pscripts hv :
  (forall r, In r pscripts -> recorded exemptions (st r) = true ->
     exists n, linesOf (key r) hv = repeat (entry r) (S n)) ->
  fold_left write pscripts hv = hv.
Proof.
  induction pscripts as [|r ps IH]; intros H; [reflexivity|].
  cbn [fold_left].
  assert (E : write hv r = hv).
  { destruct (recorded exemptions (st r)) eqn:Er.
    - rewrite writeScript_merge by assumption.
      destruct (H r (or_introl eq_refl) Er) as (n & Hn).
      unfold merge.
      destruct (existsb _ hv) eqn:Ex.
      + apply map_overwrite_fixed. rewrite Hn. now apply Forall_repeat.
      + apply existsb_linesOf in Ex. rewrite Ex in Hn. discriminate.
    - now rewrite writeScript_skip. }
  rewrite E. apply IH. intros r' Hr'. apply H. now right.
Qed.

End AfterUpdate.

(** What [readHashValues] gives a script whose name is that of a script
    recorded by the [updateHashValues] before it. *)
Lemma read_after_update pscripts server env st exemptions content r0 pscripts' st' r :
  cacheReady env exemptions content ->
  allFit exemptions server st pscripts ->
  agree exemptions st pscripts ->
  In r0 pscripts -> recorded exemptions (st r0) = true ->
  In r pscripts' -> name (st' r) = name (st r0) ->
  lastSyncHash
    (snd (readHashValues pscripts' server
            (updateHashValues pscripts server env st) st') r)
  = Some (JS.toString (lastSyncHash (st r0))).
Proof.
  intros Hready Hfit Hag Hin0 Hrec Hin Hname.
  assert (Hne : pscripts <> []) by (intros ->; contradiction).
  destruct (update_step pscripts server env st exemptions content Hready Hne Hfit)
    as (text & U & _ & Hready' & L).
  rewrite U.
  assert (F0 : fitsFormat (st r0) server) by now apply Hfit.
  rewrite <- (entry_hashpart _ _ F0).
  apply (readHashValues_cached _ _ _ _ _ _ _ _ Hready' Hin).
  - apply recorded_true in Hrec. unfold exempt. rewrite Hname. apply Hrec.
  - unfold scriptAtServer at 1. rewrite Hname.
    fold (scriptAtServer (st r0) server).
    rewrite L, cached_dropBlank by apply key_not_empty.
    now apply fold_writeScript_cached.
Qed.

(** ** What an annotation pass touches *)

Lemma lookup_fields key hv script :
  name (lookup key hv script) = name script /\
  conflict (lookup key hv script) = conflict script /\
  conflictMode (lookup key hv script) = conflictMode script /\
  forceUpload (lookup key hv script) = forceUpload script.
Proof. unfold lookup. now destruct (cached key hv). Qed.

Lemma lookup_blank key script :
  key <> EmptyString -> lookup key [EmptyString] script = script.
Proof.
  intros Hk. unfold lookup, cached, linesOf. cbn [filter].
  change (scriptpart EmptyString) with EmptyString.
  destruct (String.eqb EmptyString key) eqn:E; [|reflexivity].
  apply String.eqb_eq in E. congruence.
Qed.

(** The outer [forEach] of [readHashValues], script by script. *)
Lemma fold_readScript_at exemptions hashValues server pscripts st r :
  fold_left (readScript exemptions hashValues server) pscripts st r =
  if existsb (Nat.eqb r) pscripts
  then if exempt exemptions (st r)
       then set_conflictMode (Some false) (st r)
       else lookup (scriptAtServer (st r) server) hashValues (st r)
  else st r.
Proof.
  destruct (exempt exemptions (st r)) eqn:E.
  - now rewrite fold_readScript_exempt.
  - now rewrite fold_readScript_other.
Qed.

Lemma markConflictMode_other exemptions st s r :
  exempt exemptions (st r) = false ->
  markConflictMode exemptions st s r = st r.
Proof.
  unfold markConflictMode, exempt, assign. intros He.
  destruct (JS.includes exemptions (name (st s))) eqn:Hs; [|reflexivity].
  destruct (Nat.eqb r s) eqn:Hrs; [|reflexivity].
  apply Nat.eqb_eq in Hrs. subst s. congruence.
Qed.

Lemma fold_markConflictMode_other exemptions pscripts st r :
  exempt exemptions (st r) = false ->
  fold_left (markConflictMode exemptions) pscripts st r = st r.
Proof.
  revert st. induction pscripts as [|s rest IH]; intros st He; [reflexivity|].
  cbn [fold_left]. rewrite IH; rewrite markConflictMode_other; auto.
Qed.

(** The [forEach] of [readConflictModes], script by script. *)
Lemma fold_markConflictMode_at exemptions pscripts st r :
  fold_left (markConflictMode exemptions) pscripts st r =
  if existsb (Nat.eqb r) pscripts && exempt exemptions (st r)
  then set_conflictMode (Some false) (st r)
  else st r.
Proof.
  destruct (exempt exemptions (st r)) eqn:E.
  - rewrite fold_markConflictMode_exempt by assumption.
    now rewrite andb_true_r.
  - rewrite fold_markConflictMode_other by assumption.
    now rewrite andb_false_r.
Qed.

(** [readHashValues] when it gets as far as the cache. *)
Lemma readHashValues_ready pscripts server env st exemptions content r :
  cacheReady env exemptions content ->
  snd (readHashValues pscripts server env st) r =
  if existsb (Nat.eqb r) pscripts
  then if exempt exemptions (st r)
       then set_conflictMode (Some false) (st r)
       else lookup (scriptAtServer (st r) server) (lines content) (st r)
  else st r.
Proof.
  intros (Hw & Hroot & Hfile & Hconf).
  unfold readHashValues. destruct pscripts as [|s rest]; [reflexivity|].
  rewrite Hw, Hroot, Hfile. cbn [negb orb]. cbv iota. rewrite Hconf. cbn [snd].
  apply fold_readScript_at.
Qed.

(** The store that [readHashValues] leaves is the one it got, or the one
    of the outer [forEach] over some lines. *)
Lemma readHashValues_cases pscripts server env st :
  snd (readHashValues pscripts server env st) = st \/
  exists exemptions hashValues,
    confForceUpload env = ArrayOf exemptions /\
    (hashValues = [] \/ exists content, cacheFile env = File content /\
                                        hashValues = lines content) /\
    snd (readHashValues pscripts server env st) =
    fold_left (readScript exemptions hashValues server) pscripts st.
Proof.
  unfold readHashValues. destruct pscripts as [|s rest]; [now left|].
  destruct (negb (workspace env) || negb (JS.truthyS (rootPath env)));
    [now left|].
  destruct (cacheFile env) as [| |content] eqn:Hf; [|now left|].
  - cbn [confForceUpload writeFileSync].
    destruct (confForceUpload env) as [ex|] eqn:Hc; [|now left].
    right. exists ex, []. repeat split. now left.
  - destruct (confForceUpload env) as [ex|] eqn:Hc; [|now left].
    right. exists ex, (lines content). repeat split. right. now exists content.
Qed.

Lemma readHashValues_fields pscripts server env st r :
  name (snd (readHashValues pscripts server env st) r) = name (st r) /\
  conflict (snd (readHashValues pscripts server env st) r) = conflict (st r) /\
  forceUpload (snd (readHashValues pscripts server env st) r) = forceUpload (st r) /\
  (~ In r pscripts -> snd (readHashValues pscripts server env st) r = st r).
Proof.
  destruct (readHashValues_cases pscripts server env st)
    as [->|(ex & hv & _ & _ & ->)]; [now repeat split|].
  rewrite fold_readScript_at.
  destruct (existsb (Nat.eqb r) pscripts) eqn:E.
  - apply existsb_eqb_iff in E.
    destruct (exempt ex (st r)).
    + repeat split; try reflexivity. contradiction.
    + destruct (lookup_fields (scriptAtServer (st r) server) hv (st r))
        as (H1 & H2 & _ & H4).
      repeat split; try assumption. contradiction.
  - now repeat split.
Qed.

(** ** X6: from the update to the next read *)

Lemma fold_writeScript_count exemptions server st pscripts hv k :
  allFit exemptions server st pscripts ->
  length (linesOf k (fold_left (writeScript exemptions server st) pscripts hv))
  <= Nat.max 1 (length (linesOf k hv)).
Proof.
  revert hv. induction pscripts as [|r rest IH]; intros hv Hfit;
    [cbn [fold_left]; lia|].
  apply allFit_cons in Hfit. destruct Hfit as [Hr Hrest].
  cbn [fold_left]. eapply Nat.le_trans; [apply IH; exact Hrest|].
  destruct (recorded exemptions (st r)) eqn:E.
  - rewrite writeScript_merge by assumption.
    pose proof (count_merge _ _ (entry_scriptpart _ _ (Hr eq_refl)) k hv). lia.
  - rewrite writeScript_skip by assumption. lia.
Qed.

(** X6.  Let [updateHashValues] get as far as the cache with an array in
    which every recorded script fits the line format and the recorded
    scripts of one name carry one hash.  Then the next [readHashValues] for
    the same server gives every script of its array that bears the name of a
    recorded script the hash that script carried, as a text: what was in
    the cache before, and in which order the scripts came, makes no
    difference.  And no identity has more lines in the file written than it
    had in the file read, or than one. *)
Theorem update_then_read
    pscripts server env st exemptions content r0 pscripts' st' r :
  cacheReady env exemptions content ->
  allFit exemptions server st pscripts ->
  agree exemptions st pscripts ->
  In r0 pscripts -> recorded exemptions (st r0) = true ->
  In r pscripts' -> name (st' r) = name (st r0) ->
  lastSyncHash
    (snd (readHashValues pscripts' server
            (updateHashValues pscripts server env st) st') r)
  = Some (JS.toString (lastSyncHash (st r0))) /\
  exists text,
    cacheFile (updateHashValues pscripts server env st) = File text /\
    forall key,
      length (linesOf key (lines text))
      <= Nat.max 1 (length (linesOf key (lines content))).
Proof.
  intros Hready Hfit Hag Hin0 Hrec Hin Hname.
  split; [now apply (read_after_update _ _ _ _ exemptions content r0)|].
  assert (Hne : pscripts <> []) by (intros ->; contradiction).
  destruct (update_step pscripts server env st exemptions content Hready Hne Hfit)
    as (text & U & _ & _ & L).
  exists text. rewrite U. split; [reflexivity|].
  intros key. rewrite L.
  eapply Nat.le_trans; [apply count_dropBlank|].
  now apply fold_writeScript_count.
Qed.

(** The scripts "a" and "b" are recorded twice over a cache that holds an
    old line of "b" and a line of "c"; "b" is read back with its new hash. *)
Lemma update_then_read_witness :
  lastSyncHash
    (snd (readHashValues [1; 0] "srv"
            (updateHashValues [0; 1; 0] "srv"
               (workspaceWith (File ("b@srv:old" ++ newline ++ "c@srv:h9")) [])
               secondUpload)
            notYetRead) 1)
  = Some "h3".
Proof.
  apply (update_then_read [0; 1; 0] "srv"
           (workspaceWith (File ("b@srv:old" ++ newline ++ "c@srv:h9")) [])
           secondUpload [] ("b@srv:old" ++ newline ++ "c@srv:h9") 1
           [1; 0] notYetRead 1).
  - repeat split.
  - intros r [<-|[<-|[<-|[]]]] _; repeat split.
  - intros r1 r2 [<-|[<-|[<-|[]]]] [<-|[<-|[<-|[]]]] _ _ H;
      try reflexivity; discriminate H.
  - right. now left.
  - reflexivity.
  - now left.
  - reflexivity.
Defined.

(** ** X7: a script that never had a hash *)

(** X7.  Let [updateHashValues] get as far as the cache (a workspace with
    a root, a cache file that can be read, the setting an array) with an
    array in which every recorded script fits the line format (its name, the
    server and the text of its hash hold neither white space nor a colon)
    and the recorded scripts of one name carry one hash.  A recorded script
    of the array that carries no [lastSyncHash] is then written with the
    text "undefined" for its hash: the next [readHashValues] for the same
    server gives a script of that name in its array the hash "undefined",
    and, unless its [conflict] is set, [askForUpload] lets it pass without a
    prompt. *)
Theorem missing_hash_reads_undefined
    pscripts server env st exemptions content r0 pscripts' st' r :
  cacheReady env exemptions content ->
  allFit exemptions server st pscripts ->
  agree exemptions st pscripts ->
  In r0 pscripts -> recorded exemptions (st r0) = true ->
  lastSyncHash (st r0) = None ->
  In r pscripts' -> name (st' r) = name (st r0) ->
  lastSyncHash
    (snd (readHashValues pscripts' server
            (updateHashValues pscripts server env st) st') r)
  = Some "undefined" /\
  (JS.truthyB (conflict (st' r)) = false ->
   forall all none single,
     askForUpload
       (snd (readHashValues pscripts' server
               (updateHashValues pscripts server env st) st') r)
       all none single
     = Resolved NO_CONFLICT).
Proof.
  intros Hready Hfit Hag Hin0 Hrec Hnone Hin Hname.
  pose proof (read_after_update _ _ _ _ _ _ _ _ _ _
                Hready Hfit Hag Hin0 Hrec Hin Hname) as H.
  rewrite Hnone in H. split; [exact H|].
  intros Hc all none single. apply askForUpload_NO_CONFLICT, unresolved_false.
  rewrite H. split; [|reflexivity].
  destruct (readHashValues_fields pscripts' server
              (updateHashValues pscripts server env st) st' r) as (_ & -> & _).
  exact Hc.
Qed.

(** The script "a" was never synchronised; after one pass through the
    cache it is no longer asked about. *)
Lemma missing_hash_reads_undefined_witness :
  askForUpload
    (snd (readHashValues [0] "srv"
            (updateHashValues [0] "srv" emptyCache notYetRead) notYetRead) 0)
    false false true
  = Resolved NO_CONFLICT.
Proof.
  destruct (missing_hash_reads_undefined [0] "srv" emptyCache notYetRead []
              EmptyString 0 [0] notYetRead 0) as [_ H].
  - repeat split.
  - intros r [<-|[]] _; repeat split.
  - intros r1 r2 [<-|[]] [<-|[]] _ _ _; reflexivity.
  - now left.
  - reflexivity.
  - reflexivity.
  - now left.
  - reflexivity.
  - apply H. reflexivity.
Defined.

(** ** X8: the entries of the other scripts *)

(** X8.  Let [updateHashValues] get as far as the cache (a workspace with
    a root, a cache file that can be read, the setting an array) with a
    non-empty array in which every recorded script fits the line format (its
    name, the server and the text of its hash hold neither white space nor a
    colon).  It then leaves the lines of every identity that none of its
    recorded scripts bears as they are: a script with such an identity, for
    whatever server it is read, reads the same from the cache after the
    update as before it. *)
Theorem update_keeps_other_identities
    pscripts server env st exemptions content pscripts' server' st' r :
  cacheReady env exemptions content ->
  pscripts <> [] ->
  allFit exemptions server st pscripts ->
  (forall r0, In r0 pscripts -> recorded exemptions (st r0) = true ->
     scriptAtServer (st r0) server <> scriptAtServer (st' r) server') ->
  snd (readHashValues pscripts' server'
         (updateHashValues pscripts server env st) st') r
  = snd (readHashValues pscripts' server' env st') r.
Proof.
  intros Hready Hne Hfit Hother.
  destruct (update_step pscripts server env st exemptions content Hready Hne Hfit)
    as (text & U & _ & Hready' & L).
  rewrite U.
  rewrite (readHashValues_ready _ _ _ _ _ _ _ Hready').
  rewrite (readHashValues_ready _ _ _ _ _ _ _ Hready).
  destruct (existsb (Nat.eqb r) pscripts'); [|reflexivity].
  destruct (exempt exemptions (st' r)); [reflexivity|].
  unfold lookup, cached.
  rewrite L, linesOf_dropBlank by apply key_not_empty.
  now rewrite (fold_writeScript_other exemptions server st pscripts _ _ Hfit Hother).
Qed.

(** The cache holds a line of "c"; recording "a" and "b" leaves what "c"
    reads. *)
Lemma update_keeps_other_identities_witness :
  snd (readHashValues [0] "srv"
         (updateHashValues [0; 1] "srv" (workspaceWith (File "c@srv:h9") [])
            secondUpload)
         (storeOf [neverSynced "c"])) 0
  = inSync "c" "h9".
Proof.
  rewrite (update_keeps_other_identities [0; 1] "srv"
             (workspaceWith (File "c@srv:h9") []) secondUpload [] "c@srv:h9"
             [0] "srv" (storeOf [neverSynced "c"]) 0).
  - reflexivity.
  - repeat split.
  - discriminate.
  - intros r [<-|[<-|[]]] _; repeat split.
  - intros r [<-|[<-|[]]] _; discriminate.
Defined.

(** ** X9: updating twice *)

(** X9.  Let [updateHashValues] get as far as the cache (a workspace with
    a root, a cache file that can be read, the setting an array) with an
    array in which every recorded script fits the line format (its name, the
    server and the text of its hash hold neither white space nor a colon)
    and the recorded scripts of one name carry one hash.  A second
    [updateHashValues] with the same scripts then writes the file that the
    first one wrote: the cache does not grow. *)
Theorem updateHashValues_idempotent pscripts server env st exemptions content :
  cacheReady env exemptions content ->
  allFit exemptions server st pscripts ->
  agree exemptions st pscripts ->
  updateHashValues pscripts server (updateHashValues pscripts server env st) st
  = updateHashValues pscripts server env st.
Proof.
  intros Hready Hfit Hag.
  destruct pscripts as [|s rest] eqn:Eps; [reflexivity|]. rewrite <- Eps in *.
  assert (Hne : pscripts <> []) by (rewrite Eps; discriminate).
  clear Eps s rest.
  destruct (update_step pscripts server env st exemptions content Hready Hne Hfit)
    as (text & U & T & Hready' & L).
  rewrite U.
  rewrite (updateHashValues_written _ _ _ _ _ _ Hready' Hne).
  assert (Hfix : fold_left (writeScript exemptions server st) pscripts (lines text)
                 = lines text).
  { apply fold_writeScript_fixed. intros r Hr Hrec.
    rewrite L, linesOf_dropBlank by apply key_not_empty.
    now apply fold_writeScript_linesOf. }
  rewrite Hfix, trim_join_lines.
  assert (Ht : JS.trim text = text)
    by (rewrite T; apply JSFacts.trim_idempotent).
  rewrite Ht. reflexivity.
Qed.

Lemma updateHashValues_idempotent_witness :
  updateHashValues [0; 1] "srv"
    (updateHashValues [0; 1] "srv" (workspaceWith (File "b@srv:old") [])
       secondUpload) secondUpload
  = updateHashValues [0; 1] "srv" (workspaceWith (File "b@srv:old") [])
      secondUpload.
Proof.
  apply (updateHashValues_idempotent [0; 1] "srv"
           (workspaceWith (File "b@srv:old") []) secondUpload [] "b@srv:old").
  - repeat split.
  - intros r [<-|[<-|[]]] _; repeat split.
  - intros r1 r2 [<-|[<-|[]]] [<-|[<-|[]]] _ _ H;
      try reflexivity; discriminate H.
Defined.

(** ** X10: what readHashValues leaves alone *)

(** X10.  [readHashValues] never changes the [name], the [conflict] or the
    [forceUpload] of a script, and no script outside its array at all.  Of
    the workspace it keeps the settings, and the cache file unless that is
    missing. *)
Theorem readHashValues_frame pscripts server env st r :
  name (snd (readHashValues pscripts server env st) r) = name (st r) /\
  conflict (snd (readHashValues pscripts server env st) r) = conflict (st r) /\
  forceUpload (snd (readHashValues pscripts server env st) r) = forceUpload (st r) /\
  (~ In r pscripts -> snd (readHashValues pscripts server env st) r = st r) /\
  workspace (fst (readHashValues pscripts server env st)) = workspace env /\
  rootPath (fst (readHashValues pscripts server env st)) = rootPath env /\
  confForceUpload (fst (readHashValues pscripts server env st)) = confForceUpload env /\
  (cacheFile env <> ENOENT ->
   cacheFile (fst (readHashValues pscripts server env st)) = cacheFile env).
Proof.
  destruct (readHashValues_fields pscripts server env st r) as (H1 & H2 & H3 & H4).
  do 4 (split; [assumption|]).
  unfold readHashValues. destruct pscripts as [|s rest]; [now repeat split|].
  destruct (negb (workspace env) || negb (JS.truthyS (rootPath env)));
    [now repeat split|].
  destruct (cacheFile env) as [| |content] eqn:Hf; [|now repeat split|].
  - cbn [confForceUpload writeFileSync].
    destruct (confForceUpload env) eqn:Hc; cbn; rewrite ?Hc;
      repeat split; congruence.
  - destruct (confForceUpload env) eqn:Hc; cbn; rewrite ?Hc, ?Hf;
      repeat split; congruence.
Qed.

(** ** X11: annotating twice *)

Lemma fold_readScript_idempotent exemptions hashValues server pscripts st r :
  fold_left (readScript exemptions hashValues server) pscripts
    (fold_left (readScript exemptions hashValues server) pscripts st) r
  = fold_left (readScript exemptions hashValues server) pscripts st r.
Proof.
  rewrite fold_readScript_at. rewrite !fold_readScript_at.
  destruct (existsb (Nat.eqb r) pscripts); [|reflexivity].
  destruct (exempt exemptions (st r)) eqn:E.
  - unfold exempt in *. cbn [name set_conflictMode]. now rewrite E.
  - unfold exempt in *. rewrite lookup_name, E.
    unfold scriptAtServer. rewrite lookup_name. apply lookup_idempotent.
Qed.

Lemma fold_readScript_blank exemptions server pscripts st r :
  fold_left (readScript exemptions [EmptyString] server) pscripts st r
  = fold_left (readScript exemptions [] server) pscripts st r.
Proof.
  rewrite !fold_readScript_at.
  destruct (existsb (Nat.eqb r) pscripts); [|reflexivity].
  destruct (exempt exemptions (st r)); [reflexivity|].
  rewrite lookup_blank by apply key_not_empty. reflexivity.
Qed.

(** X11.  A second [readHashValues] with the same array and server, in the
    workspace that the first one left, leaves every script as the first one
    did, also when the first one had to create the cache file. *)
Theorem readHashValues_idempotent pscripts server env st r :
  snd (readHashValues pscripts server
         (fst (readHashValues pscripts server env st))
         (snd (readHashValues pscripts server env st))) r
  = snd (readHashValues pscripts server env st) r.
Proof.
  unfold readHashValues. destruct pscripts as [|s rest] eqn:Eps; [reflexivity|].
  rewrite <- Eps.
  destruct (negb (workspace env) || negb (JS.truthyS (rootPath env))) eqn:Hw.
  - cbn [fst snd]. now rewrite Hw.
  - destruct (cacheFile env) as [| |content] eqn:Hf.
    + cbn [confForceUpload writeFileSync].
      destruct (confForceUpload env) as [ex|] eqn:Hc; cbn [fst snd].
      * cbn [workspace rootPath cacheFile confForceUpload writeFileSync].
        rewrite Hw, Hc. cbn [snd]. change (lines EmptyString) with [EmptyString].
        rewrite fold_readScript_blank. apply fold_readScript_idempotent.
      * cbn [workspace rootPath cacheFile confForceUpload showWarningMessage
               writeFileSync].
        rewrite Hw, Hc. reflexivity.
    + cbn [fst snd]. now rewrite Hw, Hf.
    + destruct (confForceUpload env) as [ex|] eqn:Hc; cbn [fst snd].
      * rewrite Hw, Hf, Hc. cbn [snd]. apply fold_readScript_idempotent.
      * cbn [workspace rootPath cacheFile confForceUpload showWarningMessage].
        rewrite Hw, Hf. cbn [confForceUpload showWarningMessage].
        rewrite Hc. reflexivity.
Qed.

(** ** X12: readConflictModes against readHashValues *)

(** X12.  [readConflictModes] changes nothing but the [conflictMode] of
    the scripts of its array, and in a workspace with a root whose cache
    file can be read or is missing it gives every script the [conflictMode]
    that [readHashValues] gives it. *)
Theorem readConflictModes_agrees pscripts server env st r :
  JS.truthyS (rootPath env) = true ->
  cacheFile env <> Unreadable ->
  conflictMode (snd (readConflictModes pscripts env st) r)
  = conflictMode (snd (readHashValues pscripts server env st) r) /\
  name (snd (readConflictModes pscripts env st) r) = name (st r) /\
  lastSyncHash (snd (readConflictModes pscripts env st) r) = lastSyncHash (st r) /\
  conflict (snd (readConflictModes pscripts env st) r) = conflict (st r) /\
  forceUpload (snd (readConflictModes pscripts env st) r) = forceUpload (st r) /\
  (~ In r pscripts -> snd (readConflictModes pscripts env st) r = st r).
Proof.
  intros Hroot Hfile.
  unfold readConflictModes, readHashValues.
  destruct pscripts as [|s rest] eqn:Eps; [now repeat split|]. rewrite <- Eps.
  rewrite Hroot. cbn [negb]. rewrite orb_false_r.
  destruct (negb (workspace env)); [now repeat split|].
  assert (Hmark : forall ex,
            conflictMode (fold_left (markConflictMode ex) pscripts st r) =
            (if existsb (Nat.eqb r) pscripts && exempt ex (st r)
             then Some false else conflictMode (st r)) /\
            name (fold_left (markConflictMode ex) pscripts st r) = name (st r) /\
            lastSyncHash (fold_left (markConflictMode ex) pscripts st r)
              = lastSyncHash (st r) /\
            conflict (fold_left (markConflictMode ex) pscripts st r)
              = conflict (st r) /\
            forceUpload (fold_left (markConflictMode ex) pscripts st r)
              = forceUpload (st r) /\
            (~ In r pscripts -> fold_left (markConflictMode ex) pscripts st r = st r)).
  { intros ex. rewrite fold_markConflictMode_at.
    destruct (existsb (Nat.eqb r) pscripts) eqn:E; cbn [andb].
    - apply existsb_eqb_iff in E.
      destruct (exempt ex (st r)); repeat split; try reflexivity; contradiction.
    - now repeat split. }
  assert (Hread : forall ex hv,
            conflictMode (fold_left (readScript ex hv server) pscripts st r) =
            (if existsb (Nat.eqb r) pscripts && exempt ex (st r)
             then Some false else conflictMode (st r))).
  { intros ex hv. rewrite fold_readScript_at.
    destruct (existsb (Nat.eqb r) pscripts); [|reflexivity]. cbn [andb].
    destruct (exempt ex (st r)); [reflexivity|].
    apply lookup_fields. }
  destruct (cacheFile env) as [| |content]; [|contradiction|].
  - cbn [confForceUpload writeFileSync].
    destruct (confForceUpload env) as [ex|]; cbn [snd]; [|now repeat split].
    destruct (Hmark ex) as (H1 & H2). rewrite Hread. now split.
  - destruct (confForceUpload env) as [ex|]; cbn [snd]; [|now repeat split].
    destruct (Hmark ex) as (H1 & H2). rewrite Hread. now split.
Qed.

(** The exempt script "a" in a workspace whose cache file is missing. *)
Lemma readConflictModes_agrees_witness :
  conflictMode
    (snd (readConflictModes [0] (workspaceWith ENOENT ["a"])
            (storeOf [neverSynced "a"])) 0)
  = conflictMode
      (snd (readHashValues [0] "srv" (workspaceWith ENOENT ["a"])
              (storeOf [neverSynced "a"])) 0).
Proof.
  apply (readConflictModes_agrees [0] "srv" (workspaceWith ENOENT ["a"])
           (storeOf [neverSynced "a"]) 0).
  - reflexivity.
  - discriminate.
Defined.

(** ** X13: a cache file that is missing, repaired *)

(** X13.  In a workspace with a root and an array for the setting, a cache
    file that is missing is created empty by the activation of the
    extension, and likewise by any [readHashValues] of a non-empty array.
    Let an [updateHashValues] follow either of them, with an array in which
    every recorded script fits the line format (its name, the server and the
    text of its hash hold neither white space nor a colon) and the recorded
    scripts of one name carry one hash.  It writes its entries, and the next
    [readHashValues] for the same server gives every script of its array
    that bears the name of a recorded script the hash that script carried,
    as a text. *)
Theorem missing_cache_is_repaired
    pscripts0 server0 st0 env env' exemptions pscripts server st r0 pscripts' st' r :
  workspace env = true ->
  JS.truthyS (rootPath env) = true ->
  cacheFile env = ENOENT ->
  confForceUpload env = ArrayOf exemptions ->
  env' = createActivationFile env \/
  (pscripts0 <> [] /\ env' = fst (readHashValues pscripts0 server0 env st0)) ->
  allFit exemptions server st pscripts ->
  agree exemptions st pscripts ->
  In r0 pscripts -> recorded exemptions (st r0) = true ->
  In r pscripts' -> name (st' r) = name (st r0) ->
  cacheFile env' = File EmptyString /\
  lastSyncHash
    (snd (readHashValues pscripts' server
            (updateHashValues pscripts server env' st) st') r)
  = Some (JS.toString (lastSyncHash (st r0))).
Proof.
  intros Hw Hroot Hfile Hconf Henv Hfit Hag Hin0 Hrec Hin Hname.
  assert (E : env' = writeFileSync EmptyString env).
  { destruct Henv as [->|[Hne ->]].
    - unfold createActivationFile. now rewrite Hw, Hroot, Hfile.
    - unfold readHashValues. destruct pscripts0 as [|s rest]; [contradiction|].
      rewrite Hw, Hroot, Hfile. cbn [negb orb]. cbv iota.
      cbn [confForceUpload writeFileSync]. now rewrite Hconf. }
  assert (Hready : cacheReady env' exemptions EmptyString).
  { rewrite E. repeat split; assumption. }
  split; [apply Hready|].
  now apply (read_after_update _ _ _ _ _ _ _ _ _ _ Hready Hfit Hag Hin0 Hrec Hin).
Qed.

(** The first upload of "a" in a workspace without a cache file, after the
    activation. *)
Lemma missing_cache_is_repaired_witness :
  lastSyncHash
    (snd (readHashValues [0] "srv"
            (updateHashValues [0] "srv" (createActivationFile missingCache)
               firstUpload)
            notYetRead) 0)
  = Some "h1".
Proof.
  destruct (missing_cache_is_repaired [] "srv" notYetRead missingCache
              (createActivationFile missingCache) [] [0] "srv" firstUpload 0
              [0] notYetRead 0) as [_ H].
  - reflexivity.
  - reflexivity.
  - reflexivity.
  - reflexivity.
  - now left.
  - intros r [<-|[]] _; repeat split.
  - intros r1 r2 [<-|[]] [<-|[]] _ _ _; reflexivity.
  - now left.
  - reflexivity.
  - now left.
  - reflexivity.
  - exact H.
Defined.

(** * Upload on save *)

Lemma includes_In (l : list string) (x : string) :
  JS.includes l x = true <-> In x l.
Proof.
  unfold JS.includes. rewrite existsb_exists. split.
  - intros (y & Hy & E). apply String.eqb_eq in E. now subst.
  - intros H. exists x. split; [exact H|apply String.eqb_refl].
Qed.

Lemma includes_app (l1 l2 : list string) (x : string) :
  JS.includes (l1 ++ l2) x = JS.includes l1 x || JS.includes l2 x.
Proof. unfold JS.includes. apply existsb_app. Qed.

(** The item "Never upload automatically" is not the item "Never upload
    ... automatically" of any script name. *)
Lemma neverask_is_no_never scriptname :
  String.eqb (UPLOAD_NEVER scriptname) UPLOAD_NEVERASK = false.
Proof.
  apply String.eqb_neq. intros H.
  apply (f_equal String.length) in H. unfold UPLOAD_NEVERASK, UPLOAD_NEVER in H.
  rewrite !append_length in H. simpl in H. lia.
Qed.

Section UploadOnSave.

Variable basename : string -> string -> string.

Local Abbreviation ensure := (ensureUploadOnSave basename).
Local Abbreviation scriptname := (fun param => basename param ".js").
Local Abbreviation question :=
  (fun param => ("Upload script " ++ basename param ".js" ++ "?")%string).

(** The answer of the quick pick decides. *)
Lemma ensureUploadOnSave_prompt u param conf always never :
  folderOpen conf = true -> param <> EmptyString ->
  uploadOnSave conf = ArrayOf always -> uploadManually conf = ArrayOf never ->
  JS.includes always (scriptname param) = false ->
  JS.includes never (scriptname param) = false ->
  ensure u param conf =
  match u 0 (uploadItems (scriptname param)) (question param) with
  | Some 0 => (Fulfilled autoUploadAnswer.yes, conf)
  | Some 1 => (Fulfilled autoUploadAnswer.no, conf)
  | Some 2 => (Fulfilled autoUploadAnswer.yes,
               update_uploadOnSave (always ++ [scriptname param]) conf)
  | Some 3 => (Fulfilled autoUploadAnswer.no,
               update_uploadManually (never ++ [scriptname param]) conf)
  | Some 4 => (Fulfilled autoUploadAnswer.never,
               update_uploadOnSaveGlobal false conf)
  | _ => (Pending, conf)
  end.
Proof.
  intros Hw Hp Ha Hn Ia In'. unfold ensureUploadOnSave.
  rewrite Hw, Ha, Hn, Ia, In'. cbn [negb].
  apply String.eqb_neq in Hp. rewrite Hp.
  unfold showQuickPick.
  destruct (u 0 (uploadItems (basename param ".js")) _) as [i|]; [|reflexivity].
  destruct i as [|[|[|[|[|i]]]]]; cbn [nth_error uploadItems equals].
  - reflexivity.
  - reflexivity.
  - cbn. now rewrite String.eqb_refl.
  - cbn. now rewrite String.eqb_refl.
  - cbn [String.eqb UPLOAD_YES UPLOAD_NO UPLOAD_ALWAYS UPLOAD_NEVERASK
         Ascii.eqb Bool.eqb append].
    rewrite neverask_is_no_never. reflexivity.
  - destruct i; reflexivity.
Qed.

(** A script that is on one of the lists. *)
Lemma ensureUploadOnSave_decided u param conf always never :
  folderOpen conf = true -> param <> EmptyString ->
  uploadOnSave conf = ArrayOf always -> uploadManually conf = ArrayOf never ->
  JS.includes always (scriptname param) || JS.includes never (scriptname param)
    = true ->
  ensure u param conf =
  (Fulfilled (if JS.includes never (scriptname param)
              then autoUploadAnswer.no else autoUploadAnswer.yes), conf).
Proof.
  intros Hw Hp Ha Hn Hin. unfold ensureUploadOnSave.
  rewrite Hw, Ha, Hn. cbn [negb].
  apply String.eqb_neq in Hp. rewrite Hp.
  destruct (JS.includes never _); [reflexivity|].
  rewrite orb_false_r in Hin. now rewrite Hin.
Qed.

End UploadOnSave.

(** ** X14: a script that was decided about *)



(** ** X15: the answers that are remembered *)

(** X15.  When the prompt of [ensureUploadOnSave] is answered "Always
    upload ... automatically", the script is uploaded and its name is put
    at the end of [uploadOnSave]; when it is answered "Never upload ...
    automatically", the script is not uploaded and its name is put at the
    end of [uploadManually].  Every later call for the script gives the
    same answer without a prompt, and changes nothing. *)
Theorem always_and_never_are_remembered basename u param conf always never i :
  folderOpen conf = true -> param <> EmptyString ->
  uploadOnSave conf = ArrayOf always -> uploadManually conf = ArrayOf never ->
  JS.includes always (basename param ".js") = false ->
  JS.includes never (basename param ".js") = false ->
  u 0 (uploadItems (basename param ".js"))
      ("Upload script " ++ basename param ".js" ++ "?")%string = Some i ->
  i = 2 \/ i = 3 ->
  let answer := if Nat.eqb i 2 then autoUploadAnswer.yes else autoUploadAnswer.no in
  let conf' := snd (ensureUploadOnSave basename u param conf) in
  fst (ensureUploadOnSave basename u param conf) = Fulfilled answer /\
  uploadOnSave conf' =
    ArrayOf (if Nat.eqb i 2 then always ++ [basename param ".js"] else always) /\
  uploadManually conf' =
    ArrayOf (if Nat.eqb i 2 then never else never ++ [basename param ".js"]) /\
  forall u', ensureUploadOnSave basename u' param conf' = (Fulfilled answer, conf').
Proof.
  intros Hw Hp Ha Hn Ia In' Hu Hi answer conf'. subst answer conf'.
  rewrite (ensureUploadOnSave_prompt basename u param conf always never)
    by assumption.
  rewrite Hu.
  destruct Hi as [-> | ->]; cbn [Nat.eqb fst snd].
  - repeat split; try assumption.
    intros u'.
    rewrite (ensureUploadOnSave_decided basename u' param _
               (always ++ [basename param ".js"]) never); try assumption;
      try reflexivity.
    + cbn [uploadManually update_uploadOnSave]. now rewrite In'.
    + rewrite includes_app. cbn [JS.includes existsb].
      now rewrite String.eqb_refl, !orb_true_r.
  - repeat split; try assumption.
    intros u'.
    rewrite (ensureUploadOnSave_decided basename u' param _
               always (never ++ [basename param ".js"])); try assumption;
      try reflexivity.
    + rewrite includes_app. cbn [JS.includes existsb].
      now rewrite String.eqb_refl, !orb_true_r.
    + rewrite includes_app. cbn [JS.includes existsb].
      now rewrite String.eqb_refl, !orb_true_r.
Qed.

(** "Never upload tools automatically", and the next save is not asked
    about. *)
Lemma always_and_never_are_remembered_witness :
  ensureUploadOnSave sampleBasename (answering pickYes) "/ws/tools.js"
    (snd (ensureUploadOnSave sampleBasename (answering (Some 3)) "/ws/tools.js"
            undecided))
  = (Fulfilled autoUploadAnswer.no,
     mkUploadSettings true (ArrayOf []) (ArrayOf ["tools"]) None []).
Proof.
  destruct (always_and_never_are_remembered sampleBasename (answering (Some 3))
              "/ws/tools.js" undecided [] [] 3) as (_ & _ & _ & H).
  - reflexivity.
  - discriminate.
  - reflexivity.
  - reflexivity.
  - reflexivity.
  - reflexivity.
  - reflexivity.
  - now right.
  - apply H.
Defined.

(** ** X16: the promise that is never settled *)

Lemma pending_asked basename u param conf :
  fst (ensureUploadOnSave basename u param conf) = Pending ->
  asksAboutUpload basename param conf.
Proof.
  unfold ensureUploadOnSave, asksAboutUpload.
  destruct (folderOpen conf); cbn [negb]; [|discriminate].
  destruct (String.eqb param EmptyString) eqn:Hp; [discriminate|].
  apply String.eqb_neq in Hp.
  destruct (uploadOnSave conf) as [always|]; [|discriminate].
  destruct (uploadManually conf) as [never|]; [|discriminate].
  destruct (JS.includes never _) eqn:In'; [discriminate|].
  destruct (JS.includes always _) eqn:Ia; [discriminate|].
  intros _. split; [reflexivity|split; [exact Hp|]]. now exists always, never.
Qed.

Lemma asked_pending basename u param conf :
  asksAboutUpload basename param conf ->
  (fst (ensureUploadOnSave basename u param conf) = Pending <->
   showQuickPick u 0 (uploadItems (basename param ".js"))
     ("Upload script " ++ basename param ".js" ++ "?")%string = None) /\
  (fst (ensureUploadOnSave basename u param conf) = Pending ->
   snd (ensureUploadOnSave basename u param conf) = conf).
Proof.
  intros (Hw & Hp & always & never & Ha & Hn & Ia & In').
  rewrite (ensureUploadOnSave_prompt basename u param conf always never)
    by assumption.
  unfold showQuickPick.
  destruct (u 0 _ _) as [i|]; [|now repeat split].
  destruct i as [|[|[|[|[|i]]]]]; cbn [fst snd nth_error uploadItems];
    try (split; [split; discriminate|discriminate]).
  destruct i; now repeat split.
Qed.

(** X16.  The promise of [ensureUploadOnSave] stays unsettled exactly when
    the prompt is shown and dismissed; the settings are then left as they
    are. *)
Theorem pending_when_dismissed basename u param conf :
  (fst (ensureUploadOnSave basename u param conf) = Pending <->
   asksAboutUpload basename param conf /\
   showQuickPick u 0 (uploadItems (basename param ".js"))
     ("Upload script " ++ basename param ".js" ++ "?")%string = None) /\
  (fst (ensureUploadOnSave basename u param conf) = Pending ->
   snd (ensureUploadOnSave basename u param conf) = conf).
Proof.
  split; [split|].
  - intros H. pose proof (pending_asked _ _ _ _ H) as Ha.
    split; [exact Ha|]. now apply (asked_pending basename u param conf Ha).
  - intros [Ha Hq]. now apply (asked_pending basename u param conf Ha).
  - intros H. pose proof (pending_asked _ _ _ _ H) as Ha.
    now apply (asked_pending basename u param conf Ha).
Qed.

(** ** X17: the two lists *)

Lemma NoDup_snoc {A : Type} (l : list A) (x : A) :
  NoDup l -> ~ In x l -> NoDup (l ++ [x]).
Proof.
  induction l as [|y l IH]; intros Hnd Hx; simpl.
  - constructor; [intros []|constructor].
  - inversion Hnd as [|? ? Hy Hl]; subst. constructor.
    + intros Hin. apply in_app_or in Hin. destruct Hin as [Hin|[->|[]]].
      * contradiction.
      * apply Hx. now left.
    + apply IH; [exact Hl|]. intros Hin. apply Hx. now right.
Qed.

Lemma includes_false (l : list string) (x : string) :
  JS.includes l x = false -> ~ In x l.
Proof. intros H Hin. apply includes_In in Hin. congruence. Qed.

(** X17.  When the lists [uploadOnSave] and [uploadManually] share no
    script name and repeat none, they still do so after
    [ensureUploadOnSave], whatever was answered: a script is never put on
    both lists, nor twice on one. *)
Theorem lists_stay_apart basename u param conf :
  listsApart conf ->
  listsApart (snd (ensureUploadOnSave basename u param conf)).
Proof.
  intros (always & never & Ha & Hn & ND1 & ND2 & Hdis).
  assert (Hsame : listsApart conf) by (exists always, never; auto).
  unfold ensureUploadOnSave. rewrite Ha, Hn.
  destruct (negb (folderOpen conf)); [exact Hsame|].
  destruct (String.eqb param EmptyString); [exact Hsame|].
  destruct (JS.includes never _) eqn:In'; [exact Hsame|].
  destruct (JS.includes always _) eqn:Ia; [exact Hsame|].
  apply includes_false in In', Ia.
  destruct (equals _ UPLOAD_YES); [exact Hsame|].
  destruct (equals _ UPLOAD_NO); [exact Hsame|].
  destruct (equals _ (UPLOAD_ALWAYS _)).
  { exists (always ++ [basename param ".js"]), never. cbn [snd].
    repeat split; auto.
    - now apply NoDup_snoc.
    - intros x Hx Hx'. apply in_app_or in Hx. destruct Hx as [Hx|[<-|[]]].
      + exact (Hdis x Hx Hx').
      + contradiction. }
  destruct (equals _ (UPLOAD_NEVER _)).
  { exists always, (never ++ [basename param ".js"]). cbn [snd].
    repeat split; auto.
    - now apply NoDup_snoc.
    - intros x Hx Hx'. apply in_app_or in Hx'. destruct Hx' as [Hx'|[<-|[]]].
      + exact (Hdis x Hx Hx').
      + contradiction. }
  destruct (equals _ UPLOAD_NEVERASK); [|exact Hsame].
  exists always, never. cbn [snd]. repeat split; auto.
Qed.

Lemma lists_stay_apart_witness :
  listsApart
    (snd (ensureUploadOnSave sampleBasename (answering pickAll) "/ws/tools.js"
            (mkUploadSettings true (ArrayOf ["a"]) (ArrayOf ["b"]) None []))).
Proof.
  apply (lists_stay_apart sampleBasename (answering pickAll) "/ws/tools.js"
           (mkUploadSettings true (ArrayOf ["a"]) (ArrayOf ["b"]) None [])).
  exists ["a"], ["b"]. repeat split.
  - constructor; [intros []|constructor].
  - constructor; [intros []|constructor].
  - intros x [<-|[]] [H|[]]. discriminate H.
Defined.

(** * The file of script names *)

Module JSStringFacts.
Import JS JSString.

Lemma startsWith_app sep rest : startsWith (sep ++ rest) sep = true.
Proof.
  induction sep as [|c sep IH]; [reflexivity|].
  simpl. now rewrite Ascii.eqb_refl, IH.
Qed.

Lemma splitFrom_skip sep p rest :
  splitFrom sep (String.length p) (p ++ rest) = splitFrom sep 0 rest.
Proof. induction p as [|c p IH]; [reflexivity|exact IH]. Qed.

Lemma splitFrom_not_nil sep skip s : splitFrom sep skip s <> [].
Proof.
  revert skip. induction s as [|c r IH]; intros skip; simpl; [discriminate|].
  destruct skip; [|apply IH].
  destruct (startsWith (String c r) sep); [discriminate|].
  destruct (splitFrom sep 0 r); discriminate.
Qed.

(** A separator at the start gives an empty field. *)
Lemma splitFrom_sep c0 sep' rest :
  splitFrom (String c0 sep') 0 (String c0 sep' ++ rest) =
  EmptyString :: splitFrom (String c0 sep') 0 rest.
Proof.
  change (String c0 sep' ++ rest)%string with (String c0 (sep' ++ rest)).
  cbn [splitFrom].
  change (String c0 (sep' ++ rest)) with (String c0 sep' ++ rest)%string.
  rewrite startsWith_app. cbn [String.length Nat.sub].
  rewrite Nat.sub_0_r. now rewrite splitFrom_skip.
Qed.

Section Dense.

Variable c0 : ascii.
Variable sep' : string.
Hypothesis Hc0 : isWhiteSpace c0 = true.

Local Abbreviation sep := (String c0 sep').

Lemma startsWith_dense c r :
  isWhiteSpace c = false -> startsWith (String c r) sep = false.
Proof.
  intros Hc. cbn [startsWith].
  destruct (Ascii.eqb c c0) eqn:E; [|reflexivity].
  apply Ascii.eqb_eq in E. subst c. congruence.
Qed.

(** A field without white space ends at the separator. *)
Lemma splitFrom_field f rest :
  dense f = true ->
  splitFrom sep 0 (f ++ sep ++ rest) = f :: splitFrom sep 0 rest.
Proof.
  induction f as [|c f IH]; intros Hf.
  - apply splitFrom_sep.
  - simpl in Hf. apply andb_prop in Hf. destruct Hf as [Hc Hf].
    apply negb_true_iff in Hc.
    change (String c f ++ sep ++ rest)%string with (String c (f ++ sep ++ rest)).
    cbn [splitFrom].
    rewrite (startsWith_dense c _ Hc), (IH Hf). reflexivity.
Qed.

Lemma splitFrom_dense f : dense f = true -> splitFrom sep 0 f = [f].
Proof.
  induction f as [|c f IH]; intros Hf; [reflexivity|].
  simpl in Hf. apply andb_prop in Hf. destruct Hf as [Hc Hf].
  apply negb_true_iff in Hc. cbn [splitFrom].
  rewrite (startsWith_dense c _ Hc), (IH Hf). reflexivity.
Qed.

Lemma splitString_join l :
  l <> [] -> Forall (fun f => dense f = true) l ->
  split sep (join sep l) = l.
Proof.
  unfold split.
  induction l as [|x rest IH]; intros Hn HF; [contradiction|].
  inversion HF as [|? ? Hx Hrest]; subst.
  destruct rest as [|y rest'].
  - now apply splitFrom_dense.
  - rewrite JSFacts.join_cons, (splitFrom_field x _ Hx).
    f_equal. apply IH; [discriminate|exact Hrest].
Qed.

End Dense.

Lemma trimEnd_blank w : every isWhiteSpace w = true -> trimEnd w = EmptyString.
Proof.
  induction w as [|c w IH]; [reflexivity|].
  simpl. intros H. apply andb_prop in H. destruct H as [Hc Hw].
  now rewrite (IH Hw), Hc.
Qed.

Lemma trimEnd_app_blank x w :
  every isWhiteSpace w = true -> trimEnd (x ++ w) = trimEnd x.
Proof.
  intros Hw. induction x as [|c x IH]; [now apply trimEnd_blank|].
  simpl. now rewrite IH.
Qed.

Lemma trim_app_blank x w :
  tightStart x = true -> tightEnd x = true -> every isWhiteSpace w = true ->
  trim (x ++ w) = x.
Proof.
  intros H1 H2 Hw. unfold trim.
  rewrite JSFacts.trimStart_tight by now apply JSFacts.tightStart_app.
  rewrite trimEnd_app_blank by assumption.
  now apply JSFacts.trimEnd_tight.
Qed.

Lemma trim_dense x : x <> EmptyString -> dense x = true -> trim x = x.
Proof.
  intros Hn Hd. apply JSFacts.trim_tight.
  - now apply JSFacts.dense_tightStart.
  - now apply JSFacts.dense_tightEnd.
Qed.

End JSStringFacts.

(** ** X18: the names that were written are the names that are read *)

Lemma last_In {A : Type} (l : list A) (d : A) : l <> [] -> In (last l d) l.
Proof.
  intros Hn. apply exists_last in Hn. destruct Hn as (l' & a & ->).
  rewrite last_last. apply in_or_app. right. now left.
Qed.

Lemma names_read_back (newScript : string -> scriptT) (scripts : list scriptT) :
  (forall n, name (newScript n) = n) ->
  Forall listable scripts ->
  map name (map (fun scriptname => newScript (JS.trim scriptname))
              (map name scripts))
  = map name scripts.
Proof.
  intros Hnew HF. induction HF as [|x l [Hx1 Hx2] _ IH]; [reflexivity|].
  cbn [map]. rewrite Hnew, (JSStringFacts.trim_dense _ Hx1 Hx2).
  f_equal. exact IH.
Qed.

Lemma names_text_trim c0 sep' (names : list string) :
  JS.isWhiteSpace c0 = true -> JS.every JS.isWhiteSpace sep' = true ->
  names <> [] ->
  Forall (fun f => f <> EmptyString /\ JS.dense f = true) names ->
  JS.trim (JS.join (String c0 sep') names ++ String c0 sep')
  = JS.join (String c0 sep') names.
Proof.
  intros Hc0 Hsep' Hn HF. apply JSStringFacts.trim_app_blank.
  - destruct names as [|x l]; [contradiction|].
    apply JSFacts.tightStart_join.
    apply Forall_inv in HF. destruct HF as [H1 H2].
    now apply JSFacts.dense_tightStart.
  - apply JSFacts.tightEnd_join; [exact Hn|].
    rewrite Forall_forall in HF.
    destruct (HF _ (last_In names EmptyString Hn)) as [H1 H2].
    now apply JSFacts.dense_tightEnd.
  - simpl. now rewrite Hc0, Hsep'.
Qed.

(** X18.  After [writeScriptNamesToFile] for a non-empty array of scripts
    whose names are not empty and hold no white space,
    [getDownloadScriptNamesFromList] gives one script per script written,
    with the same names in the same order, whatever the file held before;
    this holds for every line break that [os.EOL] may be. *)
Theorem script_names_round_trip EOL newScript env scripts namesFile :
  workspace env = true -> JS.truthyS (rootPath env) = true ->
  lineBreak EOL ->
  (forall n, name (newScript n) = n) ->
  scripts <> [] -> Forall listable scripts ->
  map name
    (getDownloadScriptNamesFromList EOL newScript env
       (writeScriptNamesToFile EOL env scripts namesFile))
  = map name scripts.
Proof.
  intros Hw Hroot [Hne Hws] Hnew Hs HF.
  unfold getDownloadScriptNamesFromList, writeScriptNamesToFile.
  rewrite Hw, Hroot. cbn [negb orb].
  assert (Hnames : map name scripts <> []).
  { destruct scripts; [contradiction|discriminate]. }
  assert (Hboth : Forall (fun f => f <> EmptyString /\ JS.dense f = true)
                    (map name scripts)).
  { apply Forall_map. exact HF. }
  assert (Hdense : Forall (fun f => JS.dense f = true) (map name scripts)).
  { eapply Forall_impl; [|exact Hboth]. now intros a [_ H]. }
  destruct EOL as [|c0 sep']; [contradiction|].
  simpl in Hws. apply andb_prop in Hws. destruct Hws as [Hc0 Hsep'].
  destruct scripts as [|s rest]; [contradiction|].
  rewrite (names_text_trim c0 sep' _ Hc0 Hsep' Hnames Hboth).
  rewrite (JSStringFacts.splitString_join c0 sep' Hc0 _ Hnames Hdense).
  now apply names_read_back.
Qed.

(** Two scripts, on a system whose line break is CR LF. *)
Lemma script_names_round_trip_witness :
  map name
    (getDownloadScriptNamesFromList CRLF neverSynced emptyCache
       (writeScriptNamesToFile CRLF emptyCache
          [inSync "crmNote" "h1"; inSync "Gadget_Tools" "h2"] ENOENT))
  = ["crmNote"; "Gadget_Tools"].
Proof.
  apply (script_names_round_trip CRLF neverSynced emptyCache
           [inSync "crmNote" "h1"; inSync "Gadget_Tools" "h2"] ENOENT).
  - reflexivity.
  - reflexivity.
  - split; [discriminate|reflexivity].
  - reflexivity.
  - discriminate.
  - repeat constructor; discriminate.
Defined.

(** ** X19: a names file without names *)

(** X19.  When the names file can be read, the list of
    [getDownloadScriptNamesFromList] is never empty: a file that is empty
    or holds white space only gives one script, with the empty name.  And
    [writeScriptNamesToFile] leaves the file as it is when the array is
    empty, so it cannot empty the list. *)
Theorem names_file_without_names EOL newScript env content :
  workspace env = true -> JS.truthyS (rootPath env) = true ->
  EOL <> EmptyString ->
  getDownloadScriptNamesFromList EOL newScript env (File content) <> [] /\
  (JS.trim content = EmptyString ->
   getDownloadScriptNamesFromList EOL newScript env (File content)
   = [newScript EmptyString]) /\
  writeScriptNamesToFile EOL env [] (File content) = File content.
Proof.
  intros Hw Hroot Hne.
  unfold getDownloadScriptNamesFromList, writeScriptNamesToFile.
  rewrite Hw, Hroot. cbn [negb orb].
  destruct EOL as [|c0 sep']; [contradiction|]. cbn [JSString.split].
  split; [|split; [|reflexivity]].
  - pose proof (JSStringFacts.splitFrom_not_nil (String c0 sep') 0 (JS.trim content)).
    destruct (JSString.splitFrom _ 0 _); [contradiction|discriminate].
  - intros ->. reflexivity.
Qed.

Lemma names_file_without_names_witness :
  getDownloadScriptNamesFromList CRLF neverSynced emptyCache (File CRLF)
  = [neverSynced EmptyString].
Proof.
  destruct (names_file_without_names CRLF neverSynced emptyCache CRLF)
    as (_ & H & _).
  - reflexivity.
  - reflexivity.
  - discriminate.
  - apply H. reflexivity.
Defined.

(** * The launch.json: login data and server console *)

(** ** Own properties *)

Lemma ownProperty_app key m1 m2 :
  ownProperty key (m1 ++ m2) =
  match ownProperty key m2 with
  | Some w => Some w
  | None => ownProperty key m1
  end.
Proof.
  induction m1 as [|[k v] m1 IH]; simpl.
  - now destruct (ownProperty key m2).
  - rewrite IH. destruct (ownProperty key m2); [reflexivity|].
    now destruct (ownProperty key m1).
Qed.

Lemma ownProperty_snoc key m k v :
  ownProperty key (m ++ [(k, v)]) =
  if String.eqb k key then Some v else ownProperty key m.
Proof.
  rewrite ownProperty_app. simpl. now destruct (String.eqb k key).
Qed.

Lemma hasOwn_ownProperty key m :
  hasOwn key m = match ownProperty key m with Some _ => true | None => false end.
Proof.
  unfold hasOwn. induction m as [|[k v] m IH]; [reflexivity|].
  simpl. rewrite IH. destruct (ownProperty key m).
  - apply orb_true_r.
  - rewrite orb_false_r. now destruct (String.eqb k key).
Qed.

Lemma ownProperty_replace key k v m :
  ownProperty key
    (map (fun kv => if String.eqb (fst kv) k then (fst kv, v) else kv) m) =
  if String.eqb k key
  then (if hasOwn k m then Some v else None)
  else ownProperty key m.
Proof.
  induction m as [|[k0 v0] m IH]; simpl.
  - now destruct (String.eqb k key).
  - rewrite IH. clear IH. unfold hasOwn. simpl.
    destruct (String.eqb k key) eqn:Ek.
    + apply String.eqb_eq in Ek. subst key.
      destruct (String.eqb k0 k) eqn:E0; cbn [orb];
        destruct (existsb _ m); try reflexivity; now rewrite E0.
    + destruct (String.eqb k0 k) eqn:E0; [|reflexivity].
      destruct (ownProperty key m); [reflexivity|].
      apply String.eqb_eq in E0. subst k0. now rewrite Ek.
Qed.

Lemma ownProperty_setOwn key k v m :
  ownProperty key (setOwn k v m) =
  if String.eqb k key then Some v else ownProperty key m.
Proof.
  unfold setOwn. destruct (hasOwn k m) eqn:E.
  - now rewrite ownProperty_replace, E.
  - apply ownProperty_snoc.
Qed.

Lemma ownProperty_assign key t k v :
  key <> "__proto__" ->
  ownProperty key (own (assignProperty t k v)) =
  if String.eqb k key then Some v else ownProperty key (own t).
Proof.
  intros Hkey. unfold assignProperty.
  destruct (String.eqb k "__proto__" && reachesSetter t) eqn:E.
  - apply andb_prop in E. destruct E as [E _]. apply String.eqb_eq in E. subst k.
    assert (En : String.eqb "__proto__" key = false)
      by (apply String.eqb_neq; congruence).
    rewrite En. now destruct v.
  - cbn [own]. apply ownProperty_setOwn.
Qed.

Lemma prototype_assign t k v :
  k <> "__proto__" -> prototype (assignProperty t k v) = prototype t.
Proof.
  intros Hk. unfold assignProperty.
  apply String.eqb_neq in Hk. now rewrite Hk.
Qed.

Section Extend.

Local Abbreviation assignAll :=
  (fold_left (fun t kv => assignProperty t (fst kv) (snd kv))).

Lemma assignAll_ownProperty key members t :
  key <> "__proto__" ->
  ownProperty key (own (assignAll members t)) =
  match ownProperty key members with
  | Some v => Some v
  | None => ownProperty key (own t)
  end.
Proof.
  intros Hkey. induction members as [|[k v] ms IH] using rev_ind; [reflexivity|].
  rewrite fold_left_app. cbn [fold_left fst snd].
  rewrite ownProperty_assign by assumption.
  rewrite ownProperty_snoc, IH. now destruct (String.eqb k key).
Qed.

Lemma assignAll_prototype members t :
  hasOwn "__proto__" members = false ->
  prototype (assignAll members t) = prototype t.
Proof.
  revert t. induction members as [|[k v] ms IH]; intros t H; [reflexivity|].
  unfold hasOwn in H. simpl in H. apply orb_false_iff in H. destruct H as [Hk Hms].
  cbn [fold_left fst snd]. rewrite IH by exact Hms.
  apply prototype_assign. now apply String.eqb_neq.
Qed.

Lemma assignAll_hasOwn key members t :
  key <> "__proto__" ->
  hasOwn key (own (assignAll members t)) = hasOwn key members || hasOwn key (own t).
Proof.
  intros Hkey. rewrite !hasOwn_ownProperty, assignAll_ownProperty by assumption.
  now destruct (ownProperty key members).
Qed.

End Extend.

(** ** X20: the object that extend returns *)

(** X20.  [extend(target, source)] with an object for the source gives the
    target every property of the source: a name other than [__proto__]
    that the source has bears the value of the source afterwards, every
    other such name what the target had.  Without a member [__proto__] in
    the source the prototype of the target stays.  Booleans and numbers
    give the target nothing, and [null] makes [extend] throw. *)
Theorem extend_merges target members key :
  key <> "__proto__" ->
  exists t,
    extend target (JObject members) = Some t /\
    ownProperty key (own t) =
      match ownProperty key members with
      | Some v => Some v
      | None => ownProperty key (own target)
      end /\
    (hasOwn "__proto__" members = false -> prototype t = prototype target) /\
    (forall b, extend target (JBool b) = Some target) /\
    (forall n, extend target (JNumber n) = Some target) /\
    extend target JNull = None.
Proof.
  intros Hkey. eexists. split; [reflexivity|]. split; [|split].
  - now apply assignAll_ownProperty.
  - apply assignAll_prototype.
  - now repeat split.
Qed.

Lemma extend_merges_witness :
  exists t,
    extend (mkObject ClassPrototype [("a", JNumber 1); ("b", JNumber 2)])
           (JObject [("b", JNumber 3); ("c", JNumber 4)]) = Some t /\
    ownProperty "b" (own t) = Some (JNumber 3).
Proof.
  destruct (extend_merges (mkObject ClassPrototype [("a", JNumber 1); ("b", JNumber 2)])
              [("b", JNumber 3); ("c", JNumber 4)] "b") as (t & H1 & H2 & _).
  - discriminate.
  - exists t. split; [exact H1|exact H2].
Defined.

(** ** The loop of loadConfigFile *)

Module LoginFacts.
Import Login.

Lemma loadConfig_value login config :
  config <> JNull ->
  loadConfig login config =
  Some (if isLaunch config then takeConfig login config else login).
Proof.
  intros Hn. unfold loadConfig.
  destruct config; try contradiction; now destruct (isLaunch _).
Qed.

Lemma forEachConfig_app login l1 l2 :
  forEachConfig login (l1 ++ l2) =
  if snd (forEachConfig login l1)
  then forEachConfig (fst (forEachConfig login l1)) l2
  else forEachConfig login l1.
Proof.
  revert login. induction l1 as [|c l1 IH]; intros login; [reflexivity|].
  simpl. destruct (loadConfig login c) as [login'|]; [apply IH|reflexivity].
Qed.

(** What the loop keeps, whatever the configurations. *)
Lemma forEachConfig_keeps login configs :
  askForPasswordStr (fst (forEachConfig login configs)) = askForPasswordStr login /\
  configFile (fst (forEachConfig login configs)) = configFile login /\
  lastWarning (fst (forEachConfig login configs)) = lastWarning login /\
  (askForPassword login = true ->
   askForPassword (fst (forEachConfig login configs)) = true).
Proof.
  revert login. induction configs as [|c rest IH]; intros login; [now repeat split|].
  simpl. unfold loadConfig.
  assert (Hstep : forall l', l' = login \/ l' = takeConfig login c ->
            askForPasswordStr (fst (forEachConfig l' rest)) = askForPasswordStr login /\
            configFile (fst (forEachConfig l' rest)) = configFile login /\
            lastWarning (fst (forEachConfig l' rest)) = lastWarning login /\
            (askForPassword login = true ->
             askForPassword (fst (forEachConfig l' rest)) = true)).
  { intros l' [-> | ->]; [apply IH|].
    destruct (IH (takeConfig login c)) as (H1 & H2 & H3 & H4).
    repeat split; try assumption.
    intros Ha. apply H4. cbn [takeConfig askForPassword]. rewrite Ha.
    now destruct (asksForPassword login c). }
  destruct c; [now repeat split| | | | |];
    (destruct (isLaunch _); apply Hstep; [now right|now left]).
Qed.

(** The loop over configurations none of which is [null]: it ends without
    an exception, with the last launch configuration taken. *)
Lemma forEachConfig_launches login configs :
  Forall (fun c => c <> JNull) configs ->
  snd (forEachConfig login configs) = true /\
  askForPassword (fst (forEachConfig login configs)) =
    askForPassword login || existsb (asksForPassword login) (filter isLaunch configs) /\
  (filter isLaunch configs = [] -> fst (forEachConfig login configs) = login) /\
  (filter isLaunch configs <> [] ->
   let c := last (filter isLaunch configs) JNull in
   server (fst (forEachConfig login configs)) = member c "host" /\
   port (fst (forEachConfig login configs)) = member c "applicationPort" /\
   principal (fst (forEachConfig login configs)) = member c "principal" /\
   username (fst (forEachConfig login configs)) = member c "username" /\
   password (fst (forEachConfig login configs)) = member c "password" /\
   sdsTimeout (fst (forEachConfig login configs)) = member c "sdsTimeout").
Proof.
  induction configs as [|c cs IH] using rev_ind; intros HF.
  - cbn. rewrite orb_false_r. repeat split; intros; contradiction.
  - apply Forall_app in HF. destruct HF as [Hcs Hc].
    apply Forall_inv in Hc.
    destruct (IH Hcs) as (I1 & I2 & I3 & I4). clear IH.
    rewrite forEachConfig_app, I1. cbn [forEachConfig].
    rewrite (loadConfig_value _ _ Hc). cbn [fst snd].
    rewrite filter_app. cbn [filter].
    destruct (forEachConfig_keeps login cs) as (K1 & _).
    destruct (isLaunch c) eqn:El.
    + rewrite existsb_app. cbn [existsb]. rewrite orb_false_r.
      split; [reflexivity|]. split; [|split].
      * cbn [takeConfig askForPassword]. rewrite I2.
        unfold asksForPassword at 1. rewrite K1.
        fold (asksForPassword login c).
        destruct (asksForPassword login c);
          [now rewrite !orb_true_r|now rewrite orb_false_r].
      * intros H. destruct (filter isLaunch cs); discriminate.
      * intros _. rewrite last_last. now repeat split.
    + rewrite app_nil_r. split; [reflexivity|].
      split; [exact I2|]. split; [exact I3|exact I4].
Qed.

End LoginFacts.

(** ** X21: which configuration the login data come from *)

(** X21.  For a launch.json whose [configurations] is an array without
    [null], [loadConfigFile] returns [true] and takes server, port,
    principal, user name, password and timeout from the last configuration
    of type 'janus' with request 'launch', whatever the earlier ones say;
    without such a configuration the login data keep their values.
    [askForPassword] is set when any such configuration, not only the last,
    has the placeholder for its password, and is never cleared. *)
Theorem loadConfigFile_takes_last_launch login file jsonObject configs :
  member jsonObject "configurations" = Some (JArray configs) ->
  Forall (fun c => c <> JNull) configs ->
  let launches := filter Login.isLaunch configs in
  let result := snd (Login.loadConfigFile login file (Parsed jsonObject)) in
  fst (Login.loadConfigFile login file (Parsed jsonObject)) = true /\
  Login.askForPassword result =
    Login.askForPassword login || existsb (Login.asksForPassword login) launches /\
  (launches = [] -> result = Login.set_configFile file login) /\
  (launches <> [] ->
   Login.server result = member (last launches JNull) "host" /\
   Login.port result = member (last launches JNull) "applicationPort" /\
   Login.principal result = member (last launches JNull) "principal" /\
   Login.username result = member (last launches JNull) "username" /\
   Login.password result = member (last launches JNull) "password" /\
   Login.sdsTimeout result = member (last launches JNull) "sdsTimeout").
Proof.
  intros Hm HF launches result. subst launches result.
  unfold Login.loadConfigFile.
  destruct jsonObject; try discriminate Hm.
  rewrite Hm. cbn [truthyJ].
  destruct (LoginFacts.forEachConfig_launches (Login.set_configFile file login)
              configs HF) as (H1 & H2 & H3 & H4).
  destruct (Login.forEachConfig (Login.set_configFile file login) configs)
    as [login' finished]. cbn [fst snd] in *.
  repeat split; try assumption; now apply H4.
Qed.

(** Two launch configurations: the login data come from the second. *)
Lemma loadConfigFile_takes_last_launch_witness :
  Login.server
    (snd (Login.loadConfigFile noLogin "launch.json"
            (Parsed (launchJsonOf [janusConfig "launch" "first" 1100;
                                   janusConfig "launch" "second" 1101]))))
  = Some (JString "second").
Proof.
  destruct (loadConfigFile_takes_last_launch noLogin "launch.json"
              (launchJsonOf [janusConfig "launch" "first" 1100;
                             janusConfig "launch" "second" 1101])
              [janusConfig "launch" "first" 1100;
               janusConfig "launch" "second" 1101])
    as (_ & _ & _ & H).
  - reflexivity.
  - repeat constructor; discriminate.
  - destruct H as [H _]; [discriminate|exact H].
Defined.

(** ** X22: what loadConfigFile keeps *)

(** X22.  Whatever is found at the path, [loadConfigFile] records the path
    in [configFile], leaves [askForPasswordStr] and [lastWarning] as they
    are, and does not clear [askForPassword]; when the file cannot be read
    or parsed it returns [false] and changes nothing else. *)
Theorem loadConfigFile_keeps login file found :
  Login.configFile (snd (Login.loadConfigFile login file found)) = file /\
  Login.askForPasswordStr (snd (Login.loadConfigFile login file found))
    = Login.askForPasswordStr login /\
  Login.lastWarning (snd (Login.loadConfigFile login file found))
    = Login.lastWarning login /\
  (Login.askForPassword login = true ->
   Login.askForPassword (snd (Login.loadConfigFile login file found)) = true) /\
  (found = Missing \/ found = Malformed ->
   Login.loadConfigFile login file found = (false, Login.set_configFile file login)).
Proof.
  assert (Hsame : forall b : bool,
            Login.configFile (snd (b, Login.set_configFile file login)) = file /\
            Login.askForPasswordStr (snd (b, Login.set_configFile file login))
              = Login.askForPasswordStr login /\
            Login.lastWarning (snd (b, Login.set_configFile file login))
              = Login.lastWarning login /\
            (Login.askForPassword login = true ->
             Login.askForPassword (snd (b, Login.set_configFile file login)) = true))
    by (intros b; now repeat split).
  assert (Hend : (Login.configFile (snd (Login.loadConfigFile login file found)) = file /\
            Login.askForPasswordStr (snd (Login.loadConfigFile login file found))
              = Login.askForPasswordStr login /\
            Login.lastWarning (snd (Login.loadConfigFile login file found))
              = Login.lastWarning login /\
            (Login.askForPassword login = true ->
             Login.askForPassword (snd (Login.loadConfigFile login file found)) = true))).
  { unfold Login.loadConfigFile.
    destruct found as [| |obj]; try apply Hsame.
    destruct obj; try apply Hsame.
    cbn [member]. destruct (truthyJ _); [|apply Hsame].
    destruct (ownProperty "configurations" members) as [v|]; [|apply Hsame].
    destruct v; try apply Hsame.
    destruct (LoginFacts.forEachConfig_keeps (Login.set_configFile file login) items)
      as (K1 & K2 & K3 & K4).
    destruct (Login.forEachConfig _ items) as [login' finished].
    cbn [fst snd] in *. repeat split; assumption. }
  destruct Hend as (H1 & H2 & H3 & H4).
  repeat split; try assumption.
  intros [-> | ->]; reflexivity.
Qed.

(** ** X23: a configuration that is null *)

(** X23.  When a [null] stands among the configurations, [loadConfigFile]
    returns [false], yet the login data are those that the configurations
    before the [null] give: the ones after it are not looked at. *)
Theorem loadConfigFile_stops_at_null login file obj obj' before after :
  member obj "configurations" = Some (JArray (before ++ JNull :: after)) ->
  member obj' "configurations" = Some (JArray before) ->
  Forall (fun c => c <> JNull) before ->
  Login.loadConfigFile login file (Parsed obj) =
  (false, snd (Login.loadConfigFile login file (Parsed obj'))).
Proof.
  intros Hm Hm' HF. unfold Login.loadConfigFile.
  destruct obj; try discriminate Hm. destruct obj'; try discriminate Hm'.
  rewrite Hm, Hm'. cbn [truthyJ].
  rewrite LoginFacts.forEachConfig_app.
  destruct (LoginFacts.forEachConfig_launches (Login.set_configFile file login)
              before HF) as (H1 & _).
  rewrite H1. cbn [Login.forEachConfig Login.loadConfig].
  now destruct (Login.forEachConfig (Login.set_configFile file login) before).
Qed.

Lemma loadConfigFile_stops_at_null_witness :
  Login.loadConfigFile noLogin "launch.json"
    (Parsed (launchJsonOf [janusConfig "launch" "first" 1100; JNull;
                           janusConfig "launch" "second" 1101]))
  = (false,
     snd (Login.loadConfigFile noLogin "launch.json"
            (Parsed (launchJsonOf [janusConfig "launch" "first" 1100])))).
Proof.
  apply (loadConfigFile_stops_at_null noLogin "launch.json"
           (launchJsonOf [janusConfig "launch" "first" 1100; JNull;
                          janusConfig "launch" "second" 1101])
           (launchJsonOf [janusConfig "launch" "first" 1100])
           [janusConfig "launch" "first" 1100]
           [janusConfig "launch" "second" 1101]).
  - reflexivity.
  - reflexivity.
  - repeat constructor; discriminate.
Defined.

(** ** The configuration of the server console *)

Lemma isJanus_owns members :
  hasOwn "type" members && strictEq (ownProperty "type" members) "janus"
  = strictEq (ownProperty "type" members) "janus".
Proof.
  rewrite hasOwn_ownProperty. now destruct (ownProperty "type" members).
Qed.

Lemma firstJanus_find configs :
  Forall ordinaryConfig configs ->
  firstJanus configs = Some (find isJanus configs).
Proof.
  induction 1 as [|c cs (members & -> & Hm) _ IH]; [reflexivity|].
  cbn [firstJanus find ownsType]. rewrite Hm.
  unfold isJanus. cbn [member]. rewrite isJanus_owns.
  now destruct (strictEq (ownProperty "type" members) "janus").
Qed.

Lemma find_first {A : Type} (p : A -> bool) before c after :
  Forall (fun x => p x = false) before -> p c = true ->
  find p (before ++ c :: after) = Some c.
Proof.
  induction 1 as [|x l Hx _ IH]; intros Hc; simpl.
  - now rewrite Hc.
  - rewrite Hx. now apply IH.
Qed.

Lemma find_filter {A : Type} (p : A -> bool) l :
  find p l = hd_error (filter p l).
Proof.
  induction l as [|x l IH]; [reflexivity|].
  simpl. now destruct (p x).
Qed.

Lemma filter_narrow {A : Type} (p q : A -> bool) l :
  (forall x, p x = true -> q x = true) ->
  filter p l = filter p (filter q l).
Proof.
  intros Hpq. induction l as [|x l IH]; [reflexivity|].
  cbn [filter]. destruct (q x) eqn:Eq; cbn [filter].
  - now rewrite IH.
  - destruct (p x) eqn:Ep; [|exact IH].
    rewrite (Hpq x Ep) in Eq. discriminate.
Qed.

(** The configurations that the console finds in an ordinary
    launch.json. *)
Lemma console_configurations root members :
  JS.truthyS root = true -> ordinaryMembers members ->
  exists launchJson,
    getLaunchConfigFromDisk root (Parsed (JObject members)) = Fulfilled launchJson /\
    Config_get launchJson "configurations" (JArray []) =
    Some (match ownProperty "configurations" members with
          | Some v => v
          | None => JArray []
          end).
Proof.
  intros Hroot (Hget & Hhas & Hown & Hproto).
  unfold getLaunchConfigFromDisk, extend. rewrite Hroot. cbn [negb entries].
  eexists. split; [reflexivity|].
  unfold Config_get.
  rewrite assignAll_prototype by exact Hproto. cbn [prototype emptyConfig].
  rewrite !assignAll_hasOwn by discriminate.
  rewrite Hget, Hhas, Hown. cbn [own emptyConfig hasOwn existsb orb].
  rewrite assignAll_ownProperty by discriminate.
  cbn [own emptyConfig ownProperty].
  now destruct (ownProperty "configurations" members).
Qed.

Lemma reconnect_ordinary root members configs :
  JS.truthyS root = true -> ordinaryMembers members ->
  ownProperty "configurations" members = Some (JArray configs) ->
  Forall ordinaryConfig configs ->
  reconnectServerConsole true root (Parsed (JObject members)) =
  match find isJanus configs with
  | Some config =>
      match member config "host", member config "applicationPort" with
      | Some hostname, Some port =>
          if truthyJ (Some hostname) && truthyJ (Some port)
          then Connect hostname port (member config "timeout")
          else NoConnect
      | _, _ => NoConnect
      end
  | None => NoConnect
  end.
Proof.
  intros Hroot Hord Hconf HF.
  destruct (console_configurations root members Hroot Hord) as (lj & H1 & H2).
  unfold reconnectServerConsole. cbn [negb]. rewrite H1, H2, Hconf.
  cbn [iterate]. rewrite (firstJanus_find configs HF).
  now destruct (find isJanus configs).
Qed.

(** ** X24: which configuration the console connects to *)

(** X24.  For an ordinary launch.json, [reconnectServerConsole] looks at
    the first configuration of type 'janus' only, whatever its request: it
    connects to the host and port of that configuration when both are
    there and truthy, and does not connect otherwise, whatever the
    configurations after it hold. *)
Theorem console_takes_first_janus root members before config after :
  JS.truthyS root = true -> ordinaryMembers members ->
  ownProperty "configurations" members = Some (JArray (before ++ config :: after)) ->
  Forall ordinaryConfig (before ++ config :: after) ->
  Forall (fun c => isJanus c = false) before -> isJanus config = true ->
  reconnectServerConsole true root (Parsed (JObject members)) =
  match member config "host", member config "applicationPort" with
  | Some hostname, Some port =>
      if truthyJ (Some hostname) && truthyJ (Some port)
      then Connect hostname port (member config "timeout")
      else NoConnect
  | _, _ => NoConnect
  end.
Proof.
  intros Hroot Hord Hconf HF Hbefore Hc.
  rewrite (reconnect_ordinary root members _ Hroot Hord Hconf HF).
  now rewrite (find_first isJanus before config after Hbefore Hc).
Qed.

(** An attach configuration for the host "first" stands before a launch
    configuration for the host "second": the console connects to
    "first". *)
Lemma console_takes_first_janus_witness :
  reconnectServerConsole true (Some "/workspace")
    (Parsed (launchJsonOf [janusConfig "attach" "first" 1100;
                           janusConfig "launch" "second" 1101]))
  = Connect (JString "first") (JNumber 1100) None.
Proof.
  apply (console_takes_first_janus (Some "/workspace")
           [("version", JString "0.2.0");
            ("configurations", JArray [janusConfig "attach" "first" 1100;
                                       janusConfig "launch" "second" 1101])]
           [] (janusConfig "attach" "first" 1100)
           [janusConfig "launch" "second" 1101]).
  - reflexivity.
  - repeat split.
  - reflexivity.
  - repeat constructor; eexists; split; reflexivity.
  - constructor.
  - reflexivity.
Defined.

(** ** X25: the console and the login data *)

(** X25.  When an ordinary launch.json holds a single configuration of type
    'janus', and that one is a launch configuration with a host and a port,
    the server console connects to the host and port that [loadConfigFile]
    puts into the login data. *)
Theorem console_and_login_agree root members configs config hostname port login file :
  JS.truthyS root = true -> ordinaryMembers members ->
  ownProperty "configurations" members = Some (JArray configs) ->
  Forall ordinaryConfig configs ->
  filter isJanus configs = [config] -> Login.isLaunch config = true ->
  member config "host" = Some hostname ->
  member config "applicationPort" = Some port ->
  truthyJ (Some hostname) && truthyJ (Some port) = true ->
  reconnectServerConsole true root (Parsed (JObject members))
    = Connect hostname port (member config "timeout") /\
  Login.server (snd (Login.loadConfigFile login file (Parsed (JObject members))))
    = Some hostname /\
  Login.port (snd (Login.loadConfigFile login file (Parsed (JObject members))))
    = Some port.
Proof.
  intros Hroot Hord Hconf HF Hone Hlaunch Hhost Hport Htruthy.
  split.
  - rewrite (reconnect_ordinary root members _ Hroot Hord Hconf HF).
    rewrite find_filter, Hone. cbn [hd_error]. now rewrite Hhost, Hport, Htruthy.
  - assert (Hnull : Forall (fun c => c <> JNull) configs).
    { eapply Forall_impl; [|exact HF]. intros c (m & -> & _). discriminate. }
    assert (Hlaunches : filter Login.isLaunch configs = [config]).
    { assert (E : filter Login.isLaunch configs
                  = filter Login.isLaunch (filter isJanus configs)).
      { apply filter_narrow. intros c H. unfold Login.isLaunch in H.
        apply andb_prop in H. apply H. }
      rewrite E, Hone. cbn [filter]. now rewrite Hlaunch. }
    unfold Login.loadConfigFile. cbn [member]. rewrite Hconf. cbn [truthyJ].
    destruct (LoginFacts.forEachConfig_launches (Login.set_configFile file login)
                configs Hnull) as (_ & _ & _ & H).
    rewrite Hlaunches in H. cbn [last] in H.
    destruct H as (H1 & H2 & _); [discriminate|].
    destruct (Login.forEachConfig (Login.set_configFile file login) configs)
      as [login' finished]. cbn [fst snd] in *.
    now rewrite H1, H2, Hhost, Hport.
Qed.

Lemma console_and_login_agree_witness :
  reconnectServerConsole true (Some "/workspace")
    (Parsed (launchJsonOf [janusConfig "launch" "host" 1100]))
    = Connect (JString "host") (JNumber 1100) None /\
  Login.server
    (snd (Login.loadConfigFile noLogin "launch.json"
            (Parsed (launchJsonOf [janusConfig "launch" "host" 1100]))))
    = Some (JString "host").
Proof.
  destruct (console_and_login_agree (Some "/workspace")
              [("version", JString "0.2.0");
               ("configurations", JArray [janusConfig "launch" "host" 1100])]
              [janusConfig "launch" "host" 1100]
              (janusConfig "launch" "host" 1100)
              (JString "host") (JNumber 1100) noLogin "launch.json")
    as (H1 & H2 & _).
  - reflexivity.
  - repeat split.
  - reflexivity.
  - repeat constructor; eexists; split; reflexivity.
  - reflexivity.
  - reflexivity.
  - reflexivity.
  - reflexivity.
  - reflexivity.
  - split; [exact H1|exact H2].
Defined.

(** * The login prompts *)

Module PromptFacts.
Import Login Prompts.

(** The dialogue of [askForLoginData] when the first four boxes are
    filled in. *)
Lemma askForLoginData_account Number show t u login s p pr n :
  entered (t 0 "Please enter the hostname" (JString "localhost")) = Some s ->
  entered (t 1 "Please enter the port"
             (JString (match port login with
                       | Some v => if truthyJ (Some v) then show v else "11000"
                       | None => "11000"
                       end))) = Some p ->
  entered (t 2 "Please enter the principal"
             (match principal login with
              | Some v => if truthyJ (Some v) then v else JString "dopaag"
              | None => JString "dopaag"
              end)) = Some pr ->
  entered (t 3 "Please enter the username (username.principal)"
             (match username login with
              | Some v => if truthyJ (Some v) then v else JString "admin"
              | None => JString "admin"
              end)) = Some n ->
  askForLoginData Number show t u login =
  let login1 := set_account (JString s) (Number p) (JString pr) (JString n) login in
  match t 4 "Please enter the password" (JString EmptyString) with
  | None => (Rejected CANCELLED, login1)
  | Some pw =>
      let login2 := set_password (Some (JString pw)) login1 in
      match u 0 ["Yes"; "No"] "Save password to launch.json?" with
      | Some 0 => (Fulfilled tt, set_askForPassword false login2)
      | Some 1 => (Fulfilled tt, set_askForPassword true login2)
      | _ => (Fulfilled tt, login2)
      end
  end.
Proof.
  intros H0 H1 H2 H3. unfold askForLoginData. rewrite H0, H1, H2, H3.
  cbv zeta. destruct (t 4 _ _) as [pw|]; [|reflexivity].
  unfold showQuickPick. destruct (u 0 _ _) as [i|]; [|reflexivity].
  destruct i as [|[|i]]; try reflexivity. now destruct i.
Qed.

End PromptFacts.

(** ** X26: a login dialogue that is cancelled *)

Section LoginDialogue.

Variable Number : string -> json.
Variable show : json -> string.
Variable t : Typist.
Variable u : User.
Variable login : Login.LoginData.

(** What the five input boxes of [askForLoginData] yield. *)
Local Abbreviation hostnameBox :=
  (Prompts.entered (t 0 "Please enter the hostname" (JString "localhost"))).
Local Abbreviation portBox :=
  (Prompts.entered
     (t 1 "Please enter the port"
        (JString (match Login.port login with
                  | Some v => if truthyJ (Some v) then show v else "11000"
                  | None => "11000"
                  end)))).
Local Abbreviation principalBox :=
  (Prompts.entered
     (t 2 "Please enter the principal"
        (match Login.principal login with
         | Some v => if truthyJ (Some v) then v else JString "dopaag"
         | None => JString "dopaag"
         end))).
Local Abbreviation usernameBox :=
  (Prompts.entered
     (t 3 "Please enter the username (username.principal)"
        (match Login.username login with
         | Some v => if truthyJ (Some v) then v else JString "admin"
         | None => JString "admin"
         end))).
Local Abbreviation passwordBox :=
  (t 4 "Please enter the password" (JString EmptyString)).
Local Abbreviation dialogue :=
  (Prompts.askForLoginData Number show t u login).

(** X26.  [askForLoginData] rejects exactly when a box is cancelled (or one
    of the first four is left empty), always with the error 'input login
    data cancelled' and with password and [askForPassword] as they were.
    When it is one of the first four boxes, the login data are untouched.
    When the first four boxes were filled in and the password box is
    cancelled, server, port, principal and user name have been overwritten
    with what was entered in the four boxes, and nothing else has
    changed. *)
Theorem cancelled_login_dialogue :
  (forall reason,
     fst dialogue = Rejected reason ->
     reason = Prompts.CANCELLED /\
     Login.password (snd dialogue) = Login.password login /\
     Login.askForPassword (snd dialogue) = Login.askForPassword login /\
     (hostnameBox = None \/ portBox = None \/ principalBox = None \/
      usernameBox = None \/ passwordBox = None)) /\
  (hostnameBox = None \/ portBox = None \/ principalBox = None \/
   usernameBox = None ->
   dialogue = (Rejected Prompts.CANCELLED, login)) /\
  (forall s p pr n,
     hostnameBox = Some s -> portBox = Some p -> principalBox = Some pr ->
     usernameBox = Some n -> passwordBox = None ->
     dialogue =
     (Rejected Prompts.CANCELLED,
      Login.mkLoginData (Some (JString s)) (Some (Number p)) (Some (JString pr))
        (Some (JString n)) (Login.password login) (Login.askForPassword login)
        (Login.askForPasswordStr login) (Login.configFile login)
        (Login.sdsTimeout login) (Login.lastWarning login))) /\
  (forall s p pr n pw,
     hostnameBox = Some s -> portBox = Some p -> principalBox = Some pr ->
     usernameBox = Some n -> passwordBox = Some pw ->
     fst dialogue = Fulfilled tt /\
     Login.password (snd dialogue) = Some (JString pw)).
Proof.
  destruct hostnameBox as [s|] eqn:H0.
  2:{ assert (E : dialogue = (Rejected Prompts.CANCELLED, login))
        by (unfold Prompts.askForLoginData; now rewrite H0).
      rewrite E. cbn [fst snd]. split; [|split; [|split]].
      - intros reason [= <-]. repeat split. now left.
      - reflexivity.
      - intros; congruence.
      - intros; congruence. }
  destruct portBox as [p|] eqn:H1.
  2:{ assert (E : dialogue = (Rejected Prompts.CANCELLED, login))
        by (unfold Prompts.askForLoginData; now rewrite H0, H1).
      rewrite E. cbn [fst snd]. split; [|split; [|split]].
      - intros reason [= <-]. repeat split. right. now left.
      - reflexivity.
      - intros; congruence.
      - intros; congruence. }
  destruct principalBox as [pr|] eqn:H2.
  2:{ assert (E : dialogue = (Rejected Prompts.CANCELLED, login))
        by (unfold Prompts.askForLoginData; now rewrite H0, H1, H2).
      rewrite E. cbn [fst snd]. split; [|split; [|split]].
      - intros reason [= <-]. repeat split. right. right. now left.
      - reflexivity.
      - intros; congruence.
      - intros; congruence. }
  destruct usernameBox as [n|] eqn:H3.
  2:{ assert (E : dialogue = (Rejected Prompts.CANCELLED, login))
        by (unfold Prompts.askForLoginData; now rewrite H0, H1, H2, H3).
      rewrite E. cbn [fst snd]. split; [|split; [|split]].
      - intros reason [= <-]. repeat split. right. right. right. now left.
      - reflexivity.
      - intros; congruence.
      - intros; congruence. }
  rewrite (PromptFacts.askForLoginData_account Number show t u login s p pr n)
    by assumption.
  cbv zeta. destruct passwordBox as [pw|] eqn:H4.
  - split; [|split; [|split]].
    + intros reason. destruct (u 0 _ _) as [[|[|i]]|]; discriminate.
    + intros [H|[H|[H|H]]]; discriminate.
    + intros s' p' pr' n' _ _ _ _ H. discriminate.
    + intros s' p' pr' n' pw' _ _ _ _ [= <-].
      destruct (u 0 _ _) as [[|[|i]]|]; now split.
  - cbn [fst snd]. split; [|split; [|split]].
    + intros reason [= <-]. repeat split. right. right. right. now right.
    + intros [H|[H|[H|H]]]; discriminate.
    + intros s' p' pr' n' [= <-] [= <-] [= <-] [= <-] _. reflexivity.
    + intros s' p' pr' n' pw' _ _ _ _ H. discriminate.
Qed.

End LoginDialogue.

(** Everything is accepted up to the password box, which is cancelled: the
    promise is rejected, and the account of the login data is the one
    entered. *)
Lemma cancelled_login_dialogue_witness :
  Prompts.askForLoginData Prompts.anyPort Prompts.showPort
    (Prompts.accepting None) (answering pickYes) noLogin
  = (Rejected Prompts.CANCELLED,
     Login.mkLoginData (Some (JString "localhost")) (Some (JNumber 1100))
       (Some (JString "dopaag")) (Some (JString "admin")) None false
       "${command:extension.vscode-janus-debug.askForPassword}"
       EmptyString None EmptyString).
Proof.
  destruct (cancelled_login_dialogue Prompts.anyPort Prompts.showPort
              (Prompts.accepting None) (answering pickYes) noLogin)
    as (_ & _ & H & _).
  apply (H "localhost" "11000" "dopaag" "admin"); reflexivity.
Defined.

(** ** X27: when ensureLoginInformation lets the command go on *)

(** X27.  The promise of [ensureLoginInformation] is fulfilled only with
    login data that pass [checkLoginData] and whose password is not the
    placeholder while [askForPassword] is set.  When the login data it is
    called with are like that, nobody is asked and nothing changes. *)
Theorem ensureLoginInformation_fulfilled checkLoginData Number show d login :
  (fst (fst (fst (Prompts.ensureLoginInformation checkLoginData Number show d login)))
     = Fulfilled tt ->
   let login' :=
     snd (fst (fst (Prompts.ensureLoginInformation checkLoginData Number show d login)))
   in
   checkLoginData login' = true /\
   Login.askForPassword login' && Prompts.placeholderPassword login' = false) /\
  (checkLoginData login = true ->
   Login.askForPassword login && Prompts.placeholderPassword login = false ->
   forall d',
     Prompts.ensureLoginInformation checkLoginData Number show d' login
     = (Fulfilled tt, login, [], None)).
Proof.
  split.
  - unfold Prompts.ensureLoginInformation.
    destruct (checkLoginData login
              && negb (Login.askForPassword login && Prompts.placeholderPassword login))
      eqn:E.
    + intros _. cbn [fst snd]. apply andb_prop in E. destruct E as [E1 E2].
      apply negb_true_iff in E2. now split.
    + destruct (Prompts.getLoginData checkLoginData Number show d login)
        as [[[[| |] login'] warnings] data]; cbn [fst snd]; try discriminate.
      destruct (checkLoginData login' && negb (Prompts.placeholderPassword login'))
        eqn:E'; cbn [fst snd]; [|discriminate].
      intros _. apply andb_prop in E'. destruct E' as [E1 E2].
      apply negb_true_iff in E2. split; [exact E1|].
      rewrite E2. apply andb_false_r.
  - intros Hc Hp d'. unfold Prompts.ensureLoginInformation.
    now rewrite Hc, Hp.
Qed.

(** ** X28: what is written to a new launch.json *)

(** X28.  When the login data do not pass [checkLoginData], the dialogue
    is completed and there is no launch.json yet in the open folder,
    [getLoginData] writes one, and the answer to "Save password to
    launch.json?" decides about the password in it: the password entered
    after "Yes", the placeholder after "No".  When the question is
    dismissed, what [askForPassword] was before decides. *)
Theorem save_question_decides checkLoginData Number show d login s p pr n pw :
  checkLoginData login = false ->
  Prompts.entered (Prompts.typist d 0 "Please enter the hostname" (JString "localhost"))
    = Some s ->
  Prompts.entered
    (Prompts.typist d 1 "Please enter the port"
       (JString (match Login.port login with
                 | Some v => if truthyJ (Some v) then show v else "11000"
                 | None => "11000"
                 end))) = Some p ->
  Prompts.entered
    (Prompts.typist d 2 "Please enter the principal"
       (match Login.principal login with
        | Some v => if truthyJ (Some v) then v else JString "dopaag"
        | None => JString "dopaag"
        end)) = Some pr ->
  Prompts.entered
    (Prompts.typist d 3 "Please enter the username (username.principal)"
       (match Login.username login with
        | Some v => if truthyJ (Some v) then v else JString "admin"
        | None => JString "admin"
        end)) = Some n ->
  Prompts.typist d 4 "Please enter the password" (JString EmptyString) = Some pw ->
  Prompts.deskWorkspace d = true -> JS.truthyS (Prompts.deskRoot d) = true ->
  Prompts.launchFile d = Absent -> Prompts.writeFails d = None ->
  exists login' data,
    Prompts.getLoginData checkLoginData Number show d login
      = (Fulfilled tt, login', [], Some data) /\
    Login.password login' = Some (JString pw) /\
    init_host data = Some (JString s) /\
    init_password data =
      match Prompts.user d 0 ["Yes"; "No"] "Save password to launch.json?" with
      | Some 0 => Some (JString pw)
      | Some 1 =>
          Some (JString "${command:extension.vscode-janus-debug.askForPassword}")
      | _ =>
          if Login.askForPassword login
          then Some (JString "${command:extension.vscode-janus-debug.askForPassword}")
          else Some (JString pw)
      end.
Proof.
  intros Hc H0 H1 H2 H3 H4 Hw Hroot Hfile Hwrite.
  unfold Prompts.getLoginData. rewrite Hc. cbn [negb].
  rewrite (PromptFacts.askForLoginData_account Number show (Prompts.typist d)
             (Prompts.user d) login s p pr n) by assumption.
  cbv zeta. rewrite H4.
  unfold Prompts.createLaunchJson. rewrite Hw, Hroot, Hfile, Hwrite. cbn [negb].
  destruct (Prompts.user d 0 _ _) as [[|[|i]]|];
    eexists; eexists; (split; [reflexivity|]); now repeat split.
Qed.

(** The question is answered "No": the launch.json holds the
    placeholder. *)
Lemma save_question_decides_witness :
  exists login' data,
    Prompts.getLoginData Prompts.complete Prompts.anyPort Prompts.showPort
      (Prompts.deskOf (Prompts.accepting (Some "secret")) pickNo) noLogin
      = (Fulfilled tt, login', [], Some data) /\
    Login.password login' = Some (JString "secret") /\
    init_password data =
      Some (JString "${command:extension.vscode-janus-debug.askForPassword}").
Proof.
  destruct (save_question_decides Prompts.complete Prompts.anyPort Prompts.showPort
              (Prompts.deskOf (Prompts.accepting (Some "secret")) pickNo) noLogin
              "localhost" "11000" "dopaag" "admin" "secret")
    as (login' & data & H1 & H2 & _ & H3); try reflexivity.
  exists login', data. split; [exact H1|]. split; [exact H2|exact H3].
Defined.

(** ** X29: login data that could not be saved *)

(** X29.  [getLoginData] writes a launch.json only where there is none,
    and when the dialogue of [askForLoginData] was completed its promise is
    fulfilled whether or not the login data could be saved: a failure to
    save them only shows a warning. *)
Theorem unsaved_login_data_is_no_failure checkLoginData Number show d login :
  (forall data,
     snd (Prompts.getLoginData checkLoginData Number show d login) = Some data ->
     Prompts.launchFile d = Absent) /\
  (checkLoginData login = false ->
   fst (Prompts.askForLoginData Number show (Prompts.typist d) (Prompts.user d) login)
     = Fulfilled tt ->
   fst (fst (fst (Prompts.getLoginData checkLoginData Number show d login)))
     = Fulfilled tt /\
   (snd (Prompts.getLoginData checkLoginData Number show d login) = None ->
    exists reason,
      snd (fst (Prompts.getLoginData checkLoginData Number show d login))
      = [("did not save login data: " ++ reason)%string])).
Proof.
  split.
  - intros data. unfold Prompts.getLoginData.
    destruct (negb (checkLoginData login)).
    + destruct (Prompts.askForLoginData Number show _ _ login) as [[[]| |] login'];
        cbn [snd]; try discriminate.
      unfold Prompts.createLaunchJson.
      destruct (negb (Prompts.deskWorkspace d)); [discriminate|].
      destruct (negb (JS.truthyS (Prompts.deskRoot d))); [discriminate|].
      destruct (Prompts.launchFile d); try discriminate. reflexivity.
    + destruct (Prompts.askForPassword _ login) as [[[]| |] login'];
        discriminate.
  - intros Hc Hf. unfold Prompts.getLoginData. rewrite Hc. cbn [negb].
    destruct (Prompts.askForLoginData Number show _ _ login) as [[[]| |] login'];
      cbn [fst] in Hf; try discriminate.
    unfold Prompts.createLaunchJson.
    destruct (negb (Prompts.deskWorkspace d));
      [split; [reflexivity|intros _; eexists; reflexivity]|].
    destruct (negb (JS.truthyS (Prompts.deskRoot d)));
      [split; [reflexivity|intros _; eexists; reflexivity]|].
    destruct (Prompts.launchFile d);
      try (split; [reflexivity|intros _; eexists; reflexivity]).
    destruct (Prompts.writeFails d);
      [split; [reflexivity|intros _; eexists; reflexivity]|].
    split; [reflexivity|discriminate].
Qed.
